(** * oemof_b3.tools.data_processing: a shallow embedding

    The module [src/oemof_b3/tools/data_processing.py] loads, filters,
    aggregates, stacks and unstacks two kinds of pandas tables: scalars and
    (stacked) time series.  This file embeds its functions as Rocq
    functions and states the properties of the specification about them.

    Conventions of the embedding.
    - A [DataFrame] has the default [RangeIndex]: the row with label [i] is
      the [i]-th row.  This is what [pd.read_csv], [load_scalars],
      [load_timeseries], [df_filtered] and [df_agg] produce.
    - A cell is a Python object: [None], a string, an integer id, a number,
      a timestamp, a frequency label, a list of numbers, or a list of rows
      of numbers.  Tables are taken to hold in each column what the schema
      prescribes (text columns hold strings, [var_value] a number, the time
      fields timestamps and a frequency, [series] a list of numbers); where
      the code would meet a cell of another type the embedding raises
      [PyTypeError], and the results below are stated for typed tables.
    - Numbers are kept abstract (class [Numeric]): the code only adds,
      subtracts and compares them, and every sum below is written in the
      order in which the code performs it, so nothing relies on laws that
      floating point numbers lack.  [nnan] is [np.nan].
    - Timestamps are integers (a number of time units).  A frequency is
      a fixed step, kept as a non-zero number of time units whatever its
      label (["H"] and ["1H"] are one step, and the frequency of equally
      spaced timestamps is their step, also where pandas labels it by a
      rule such as ["W-MON"] for steps of seven days), or a calendar rule
      for timestamps that are not equally spaced (["MS"], ["B"]), kept as
      its label.  What pandas answers for calendar rules, and what it
      reads from a results file, is not computed: the embedding takes
      these answers as given (classes [CalendarRules] and [CsvReader]) and
      assumes nothing of them.
    - A raised exception is a value of [error]; text printed by the module
      is a list of [notice]. *)

From Stdlib Require Import String Ascii List Bool ZArith Lia Permutation.
Import ListNotations.
Local Open Scope string_scope.
Local Open Scope Z_scope.
Local Open Scope list_scope.

Set Implicit Arguments.

(** ** Python strings *)

(** [sub in s] on two strings. *)
Fixpoint str_in (sub s : string) : bool :=
  if String.prefix sub s then true
  else match s with
       | EmptyString => false
       | String _ s' => str_in sub s'
       end.

(** [s.split(sep)] for a one-character separator. *)
Fixpoint split (sep : ascii) (s : string) : list string :=
  match s with
  | EmptyString => [EmptyString]
  | String c s' =>
      if Ascii.eqb c sep then EmptyString :: split sep s'
      else match split sep s' with
           | seg :: rest => String c seg :: rest
           | [] => [String c EmptyString]
           end
  end.

(** [x in l] on a list of strings. *)
Definition mem (x : string) (l : list string) : bool :=
  existsb (String.eqb x) l.

(** [l1 == l2] on two lists of strings. *)
Fixpoint list_eqb (l1 l2 : list string) : bool :=
  match l1, l2 with
  | [], [] => true
  | a :: l1', b :: l2' => String.eqb a b && list_eqb l1' l2'
  | _, _ => false
  end.

(** ** Exceptions, notices and the two monads *)

Inductive error : Type :=
  (* raised by a [raise] statement of the module *)
  | InvalidSchemaKind (data_type : string)
  | MissingRequiredColumns (missing : list string)
  | MissingRegion
  | NotTimeIndexed
  | NoFixedFrequency
  | InconsistentTimeIndex (name index : string)
  | MissingTimeField (name index : string)
  | UnrecognizedSchema (header_timeseries header_scalars : list string)
  | InvalidFilterKey (key : string) (filter_options : list string)
  | InvalidAggregationKey (key : string) (agg_options : list string)
  | MissingColumn (key : string)
  | UnknownVariable (var_name : string)
  (* raised by the Python runtime, numpy or pandas *)
  | PyIndexError
  | PyKeyError (key : string)
  | PyTypeError
  | PyValueError
  | PyNameError.

(** A frequency of pandas: a fixed step or a calendar rule.  An integer is
    read as the fixed step of that many time units. *)
Inductive Freq : Type :=
  | Fixed (step : Z)
  | Calendar (label : string).

Coercion Fixed : Z >-> Freq.
Bind Scope Z_scope with Freq.

(** An optional frequency is read against the type that is expected of it,
    so that the step of a frequency may be written for the frequency. *)
Arguments Some {A} & a.

Definition freq_eqb (f g : Freq) : bool :=
  match f, g with
  | Fixed a, Fixed b => Z.eqb a b
  | Calendar a, Calendar b => String.eqb a b
  | _, _ => false
  end.

Inductive notice : Type :=
  | ValueNotFound (value key : string)
  | FrequencyInferred (freq : Freq)
  | RemarksLost (col : string).

Inductive result (A : Type) : Type :=
  | Ok (a : A)
  | Err (e : error).
Arguments Ok {A} & a.
Arguments Err {A} e.

Definition bind {A B : Type} (m : result A) (k : A -> result B) : result B :=
  match m with
  | Ok a => k a
  | Err e => Err e
  end.

Declare Scope py_scope.
Delimit Scope py_scope with py.
Notation "x <- m ;; k" := (bind m (fun x => k))
  (at level 61, m at next level, right associativity) : py_scope.
Local Open Scope py_scope.

(** A [for] loop whose body may raise: the loop stops at the first
    exception. *)
Fixpoint foldM {A B : Type} (f : A -> B -> result A) (l : list B) (a : A)
  : result A :=
  match l with
  | [] => Ok a
  | x :: l' => a' <- f a x ;; foldM f l' a'
  end.

(** Printed text so far, and the outcome. *)
Definition io (A : Type) : Type := (list notice * result A)%type.

Definition io_ret {A : Type} (a : A) : io A := ([], Ok a).
Definition io_raise {A : Type} (e : error) : io A := ([], Err e).
Definition io_print (n : notice) : io unit := ([n], Ok tt).
Definition io_lift {A : Type} (m : result A) : io A := ([], m).
Definition io_bind {A B : Type} (m : io A) (k : A -> io B) : io B :=
  match m with
  | (out, Ok a) => let (out', r) := k a in (out ++ out', r)
  | (out, Err e) => (out, Err e)
  end.

Notation "x <~ m ;; k" := (io_bind m (fun x => k))
  (at level 61, m at next level, right associativity) : py_scope.

(** ** Numbers, cells, rows and tables *)

Class Numeric (num : Type) : Type := {
  nzero : num;
  nnan : num;
  nadd : num -> num -> num;
  nsub : num -> num -> num;
  neqb : num -> num -> bool
}.

(** Exact integers with a missing marker: the instance on which concrete
    tables are evaluated.  [NaN] propagates and is equal to nothing. *)
Inductive number : Type :=
  | Num (z : Z)
  | NaN.

#[export] Instance number_Numeric : Numeric number := {
  nzero := Num 0;
  nnan := NaN;
  nadd a b := match a, b with Num x, Num y => Num (x + y) | _, _ => NaN end;
  nsub a b := match a, b with Num x, Num y => Num (x - y) | _, _ => NaN end;
  neqb a b := match a, b with Num x, Num y => Z.eqb x y | _, _ => false end
}.

Section Cells.
Context {num : Type} `{Numeric num}.

Inductive value : Type :=
  | VNone
  | VStr (s : string)
  | VInt (i : Z)
  | VNum (x : num)
  | VTime (t : Z)
  | VFreq (f : Freq)
  | VList (l : list num)
  | VTable (m : list (list num)).

Fixpoint nums_eqb (l1 l2 : list num) : bool :=
  match l1, l2 with
  | [], [] => true
  | a :: l1', b :: l2' => neqb a b && nums_eqb l1' l2'
  | _, _ => false
  end.

Fixpoint table_eqb (m1 m2 : list (list num)) : bool :=
  match m1, m2 with
  | [], [] => true
  | a :: m1', b :: m2' => nums_eqb a b && table_eqb m1' m2'
  | _, _ => false
  end.

(** [a == b] on two cells. *)
Definition value_eqb (a b : value) : bool :=
  match a, b with
  | VNone, VNone => true
  | VStr s, VStr t => String.eqb s t
  | VInt i, VInt j => Z.eqb i j
  | VNum x, VNum y => neqb x y
  | VTime s, VTime t => Z.eqb s t
  | VFreq f, VFreq g => freq_eqb f g
  | VList l, VList k => nums_eqb l k
  | VTable m, VTable n => table_eqb m n
  | _, _ => false
  end.

(** A row, and the dictionary from which [DataFrame.append] builds one: a
    cell for each column name. *)
Definition row : Type := list (string * value).

(** The cell of a row under a column; pandas fills a cell that was never
    given with NaN. *)
Fixpoint row_get (r : row) (c : string) : value :=
  match r with
  | [] => VNum nnan
  | (k, v) :: r' => if String.eqb k c then v else row_get r' c
  end.

Fixpoint row_set (r : row) (c : string) (v : value) : row :=
  match r with
  | [] => [(c, v)]
  | (k, w) :: r' =>
      if String.eqb k c then (k, v) :: r' else (k, w) :: row_set r' c v
  end.

Record DataFrame : Type := {
  columns : list string;
  rows : list row
}.

(** [df[c][index]] for the row [r] at [index]: a [KeyError] when the frame
    has no column [c]. *)
Definition cell (df : DataFrame) (c : string) (r : row) : result value :=
  if mem c (columns df) then Ok (row_get r c) else Err (PyKeyError c).

(** [list(df[c])]. *)
Definition column (df : DataFrame) (c : string) : result (list value) :=
  if mem c (columns df) then Ok (map (fun r => row_get r c) (rows df))
  else Err (PyKeyError c).

(** [df.append(new_row, ignore_index=True)]: the row is added at the end,
    and a key of [new_row] that is no column yet becomes one. *)
Definition append (df : DataFrame) (new_row : row) : DataFrame :=
  {| columns := columns df
                ++ filter (fun k => negb (mem k (columns df)))
                          (map fst new_row);
     rows := rows df ++ [new_row] |}.

Definition as_str (v : value) : result string :=
  match v with VStr s => Ok s | _ => Err PyTypeError end.

Definition as_num (v : value) : result num :=
  match v with VNum x => Ok x | _ => Err PyTypeError end.

Definition as_list (v : value) : result (list num) :=
  match v with VList l => Ok l | _ => Err PyTypeError end.

End Cells.

Arguments value num : clear implicits.
Arguments row num : clear implicits.
Arguments DataFrame num : clear implicits.

(** ** get_optional_required_header *)

(** [l.remove(x)]: the first occurrence goes; [ValueError] when there is
    none. *)
Fixpoint list_remove (x : string) (l : list string) : result (list string) :=
  match l with
  | [] => Err PyValueError
  | y :: l' =>
      if String.eqb y x then Ok l'
      else (r <- list_remove x l' ;; Ok (y :: r))
  end.

Definition header_scalars : list string :=
  ["id_scal"; "scenario"; "name"; "var_name"; "carrier"; "region"; "tech";
   "type"; "var_value"; "var_unit"; "reference"; "comment"].

Definition optional_header_scalars : list string :=
  ["id_scal"; "var_unit"; "reference"; "comment"].

Definition header_timeseries : list string :=
  ["id_ts"; "region"; "var_name"; "timeindex_start"; "timeindex_stop";
   "timeindex_resolution"; "series"; "var_unit"; "source"; "comment"].

Definition optional_header_timeseries : list string :=
  ["id_ts"; "var_unit"; "source"; "comment"].

Definition get_optional_required_header (data_type : string)
  : result (list string * list string * list string) :=
  hs <- (if String.eqb data_type "scalars"
         then Ok (header_scalars, optional_header_scalars)
         else if String.eqb data_type "timeseries"
         then Ok (header_timeseries, optional_header_timeseries)
         else Err (InvalidSchemaKind data_type)) ;;
  let (header, optional_header) := hs : list string * list string in
  required_header <-
    foldM (fun required optional => list_remove optional required)
          optional_header header ;;
  Ok (header, optional_header, required_header).

(** The required headers that the function computes (lemmas
    [get_header_scalars] and [get_header_timeseries]). *)
Definition required_header_scalars : list string :=
  ["scenario"; "name"; "var_name"; "carrier"; "region"; "tech"; "type";
   "var_value"].

Definition required_header_timeseries : list string :=
  ["region"; "var_name"; "timeindex_start"; "timeindex_stop";
   "timeindex_resolution"; "series"].


(** ** The header check shared by df_filtered and df_agg

    Lines 351-377 of [df_filtered] and lines 438-470 of [df_agg] are the
    same statements; they are embedded once. *)

Inductive kind : Type :=
  | Scalars
  | TimeSeries.

(** The loop that takes the optional columns out of a copy of the frame's
    header. *)
Definition df_header_required
           (optional_header_scalars optional_header_timeseries : list string)
           (df_header : list string) : result (list string) :=
  foldM (fun required item =>
           if mem item optional_header_scalars
           then list_remove item required
           else if mem item optional_header_timeseries
           then list_remove item required
           else Ok required)
        df_header df_header.

Definition classify (df_header : list string) : result kind :=
  scalars_header <- get_optional_required_header "scalars" ;;
  let '(header_scalars, optional_header_scalars, required_header_scalars) :=
    scalars_header in
  timeseries_header <- get_optional_required_header "timeseries" ;;
  let '(header_timeseries, optional_header_timeseries,
        required_header_timeseries) := timeseries_header in
  df_header_required <-
    df_header_required optional_header_scalars optional_header_timeseries
                       df_header ;;
  if list_eqb df_header_required required_header_scalars then Ok Scalars
  else if list_eqb df_header_required required_header_timeseries
  then Ok TimeSeries
  else Err (UnrecognizedSchema header_timeseries header_scalars).

Section Tables.
Context {num : Type} `{Numeric num}.

Local Abbreviation value := (value num).
Local Abbreviation row := (row num).
Local Abbreviation DataFrame := (DataFrame num).

(** ** df_filtered *)

Definition filter_options (k : kind) : list string :=
  match k with
  | Scalars => ["scenario"; "region"; "carrier"; "tech"; "type"; "var_name"]
  | TimeSeries => ["region"; "var_name"]
  end.

(** The body of [for value in values]: a notice when the value is not in
    the column, else one scan of the rows that appends each match. *)
Definition filter_value (df : DataFrame) (key : string)
           (df_filtered_by_value : DataFrame) (v : string) : io DataFrame :=
  col <~ io_lift (column df key) ;;
  if negb (existsb (value_eqb (VStr v)) col)
  then (_ <~ io_print (ValueNotFound v key) ;; io_ret df_filtered_by_value)
  else io_lift
         (foldM (fun acc r =>
                   c <- cell df key r ;;
                   if value_eqb (VStr v) c then Ok (append acc r) else Ok acc)
                (rows df) df_filtered_by_value).

Fixpoint io_fold {A B : Type} (f : A -> B -> io A) (l : list B) (a : A)
  : io A :=
  match l with
  | [] => io_ret a
  | x :: l' => a' <~ f a x ;; io_fold f l' a'
  end.

(** The values to filter by are text, as the cells of every column that is
    a filter option. *)
Definition df_filtered (df : DataFrame) (key : string) (values : list string)
  : io DataFrame :=
  let df_header := columns df in
  k <~ io_lift (classify df_header) ;;
  if negb (mem key (filter_options k))
  then io_raise (InvalidFilterKey key (filter_options k))
  else if negb (mem key df_header)
  then io_raise (MissingColumn key)
  else io_fold (filter_value df key) values
               {| columns := columns df; rows := [] |}.

(** ** df_agg *)

Definition agg_options (k : kind) : list string :=
  match k with
  | Scalars => ["region"; "carrier"; "tech"]
  | TimeSeries => ["region"]
  end.

(** [list(dict.fromkeys(l))]: the distinct cells of [l], each at the place
    of its first occurrence. *)
Definition fromkeys (l : list value) : list value :=
  fold_left (fun seen x => if existsb (value_eqb x) seen then seen
                           else seen ++ [x]) l [].

(** The result dictionary of one group: keys in insertion order. *)
Definition results_dict : Type := list (string * num).

Definition dict_has (d : results_dict) (k : string) : bool :=
  mem k (map fst d).

Fixpoint dict_get (d : results_dict) (k : string) : result num :=
  match d with
  | [] => Err (PyKeyError k)
  | (k', x) :: d' => if String.eqb k' k then Ok x else dict_get d' k
  end.

Fixpoint dict_set (d : results_dict) (k : string) (x : num) : results_dict :=
  match d with
  | [] => [(k, x)]
  | (k', y) :: d' =>
      if String.eqb k' k then (k', x) :: d' else (k', y) :: dict_set d' k x
  end.

(** [results_dict[k] = results_dict[k] + df["var_value"][index]]. *)
Definition dict_add (df : DataFrame) (d : results_dict) (k : string) (r : row)
  : result results_dict :=
  x <- dict_get d k ;;
  c <- cell df "var_value" r ;;
  v <- as_num c ;;
  Ok (dict_set d k (nadd x v)).

(** [results_dict[k] = results_dict[k] - df["var_value"][index]]. *)
Definition dict_sub (df : DataFrame) (d : results_dict) (k : string) (r : row)
  : result results_dict :=
  x <- dict_get d k ;;
  c <- cell df "var_value" r ;;
  v <- as_num c ;;
  Ok (dict_set d k (nsub x v)).

(** The statements the code repeats for a flow (twice), for costs and for
    invest: the bucket is created with 0 when it is new, then
    [if "in" in var_name] the value is added,
    [elif "out" in var_name] it is subtracted. *)
Definition in_out (df : DataFrame) (d : results_dict) (bucket var_name : string)
           (r : row) : result results_dict :=
  let d := if negb (dict_has d bucket) then dict_set d bucket nzero else d in
  if str_in "in" var_name then dict_add df d bucket r
  else if str_in "out" var_name then dict_sub df d bucket r
  else Ok d.

(** The body of the row loop of the scalar aggregation, for a row of the
    current scenario and key item (lines 514-655). *)
Definition agg_scalar_row (df : DataFrame) (key : string) (d : results_dict)
           (r : row) : result results_dict :=
  c <- cell df "var_name" r ;;
  var_name <- as_str c ;;
  if str_in "capacity" var_name then
    let d := if negb (dict_has d "capacity")
             then dict_set d "capacity" nzero else d in
    dict_add df d "capacity" r
  else if str_in "flow" var_name then
    energy_carrier <- match nth_error (split "_" var_name) 2 with
                      | Some s => Ok s
                      | None => Err PyIndexError
                      end ;;
    if negb (str_in "carrier" key) && negb (str_in "tech" key) then
      in_out df d ("flow_" ++ energy_carrier)%string var_name r
    else
      cc <- cell df "carrier" r ;;
      carrier <- as_str cc ;;
      in_out df d ("flow_" ++ energy_carrier ++ "_" ++ carrier)%string
             var_name r
  else if str_in "costs" var_name then
    in_out df d "costs" var_name r
  else if str_in "invest" var_name then
    in_out df d "invest" var_name r
  else if str_in "losses" var_name then
    let d := if negb (dict_has d "losses")
             then dict_set d "losses" nzero else d in
    dict_add df d "losses" r
  else Err (UnknownVariable var_name).

(** The row loop for one scenario and one key item (lines 506-655). *)
Definition agg_scalar_group (df : DataFrame) (key : string)
           (scenario key_item : value) : result results_dict :=
  foldM (fun d r =>
           s <- cell df "scenario" r ;;
           k <- cell df key r ;;
           if value_eqb s scenario && value_eqb k key_item
           then agg_scalar_row df key d r
           else Ok d)
        (rows df) [].

(** The row built for one entry of the result dictionary (lines 662-689). *)
Definition new_scalar_row (key : string) (scenario key_item : value)
           (dict_key : string) (dict_item : num) : result row :=
  rct <- (if String.eqb key "region"
          then Ok (key_item, VStr "All", VStr "All")
          else if String.eqb key "carrier"
          then Ok (VStr "All", key_item, VStr "All")
          else if String.eqb key "tech"
          then Ok (VStr "All", VStr "All", key_item)
          else Err PyNameError) ;;
  let '(region, carrier, tech) := rct in
  Ok [("id_scal", VNone);
      ("scenario", scenario);
      ("name", VStr ("Aggregated by " ++ key));
      ("var_name", VStr dict_key);
      ("carrier", carrier);
      ("region", region);
      ("tech", tech);
      ("type", VStr "All");
      ("var_value", VNum dict_item);
      ("var_unit", VStr "-");
      ("reference", VNone);
      ("comment", VNone)].

(** Lines 500-691: scenarios outermost, key items next; each group appends
    one row for each entry of its dictionary. *)
Definition agg_scalars (df : DataFrame) (key : string) (key_list : list value)
           (df_agg_by_key : DataFrame) : result DataFrame :=
  scenarios <- column df "scenario" ;;
  let scenario_list := fromkeys scenarios in
  foldM (fun out scenario =>
     foldM (fun out key_item =>
        d <- agg_scalar_group df key scenario key_item ;;
        foldM (fun out (entry : string * num) =>
                 let (dict_key, dict_item) := entry in
                 new_row <- new_scalar_row key scenario key_item
                                           dict_key dict_item ;;
                 Ok (append out new_row))
              d out)
       key_list out)
    scenario_list df_agg_by_key.

(** [np.add(a, b)] on two one-dimensional sequences: equal lengths add
    position by position, a sequence of length one is broadcast, any other
    pair of lengths raises [ValueError]. *)
Definition np_add (a b : list num) : result (list num) :=
  if Nat.eqb (length a) (length b)
  then Ok (map (fun p => nadd (fst p) (snd p)) (combine a b))
  else match a, b with
       | [x], _ => Ok (map (fun y => nadd x y) b)
       | _, [y] => Ok (map (fun x => nadd x y) a)
       | _, _ => Err PyValueError
       end.

(** [df[c][0]]: the cell of the row with label 0. *)
Definition cell0 (df : DataFrame) (c : string) : result value :=
  match rows df with
  | r :: _ => cell df c r
  | [] => if mem c (columns df) then Err (PyKeyError "0")
          else Err (PyKeyError c)
  end.

(** The row loop for one key item of the time series aggregation
    (lines 698-712); [None] is the empty dictionary. *)
Definition agg_series_group (df : DataFrame) (key : string) (key_item : value)
  : result (option (list num)) :=
  foldM (fun d r =>
           k <- cell df key r ;;
           if value_eqb k key_item then
             acc <- match d with
                    | Some s => Ok s
                    | None =>
                        c0 <- cell0 df "series" ;;
                        s0 <- as_list c0 ;;
                        Ok (repeat nzero (length s0))
                    end ;;
             c <- cell df "series" r ;;
             s <- as_list c ;;
             sum <- np_add acc s ;;
             Ok (Some sum)
           else Ok d)
        (rows df) None.

(** Lines 696-727. *)
Definition agg_timeseries (df : DataFrame) (key : string)
           (key_list : list value) (df_agg_by_key : DataFrame)
  : result DataFrame :=
  foldM (fun out key_item =>
           d <- agg_series_group df key key_item ;;
           timeindex_start <- cell0 df "timeindex_start" ;;
           timeindex_stop <- cell0 df "timeindex_stop" ;;
           timeindex_resolution <- cell0 df "timeindex_resolution" ;;
           series <- match d with
                     | Some s => Ok s
                     | None => Err (PyKeyError "series")
                     end ;;
           Ok (append out
                 [("id_ts", VNone);
                  ("region", key_item);
                  ("var_name", VStr ("Aggregated by " ++ key));
                  ("timeindex_start", timeindex_start);
                  ("timeindex_stop", timeindex_stop);
                  ("timeindex_resolution", timeindex_resolution);
                  ("series", VList series);
                  ("var_unit", VStr "-");
                  ("source", VNone);
                  ("comment", VNone)]))
        key_list df_agg_by_key.

Definition df_agg (df : DataFrame) (key : string) : result DataFrame :=
  let df_header := columns df in
  k <- classify df_header ;;
  if negb (mem key (agg_options k))
  then Err (InvalidAggregationKey key (agg_options k))
  else if negb (mem key df_header)
  then Err (MissingColumn key)
  else
    let df_agg_by_key := {| columns := columns df; rows := [] |} in
    keys <- column df key ;;
    let key_list := fromkeys keys in
    match k with
    | Scalars => agg_scalars df key key_list df_agg_by_key
    | TimeSeries => agg_timeseries df key key_list df_agg_by_key
    end.

End Tables.

Arguments results_dict num : clear implicits.

(** ** Wide time series tables, and what the code uses of pandas *)

(** The row index of a wide table: a [pd.DatetimeIndex] with its timestamps
    and its [freq] attribute, or an index of another type. *)
Inductive Index : Type :=
  | DatetimeIndex (values : list Z) (freq : option Freq)
  | OtherIndex (labels : list string).

(** What pandas answers for calendar rules: the rule, if any, that
    [pd.infer_freq] finds in an index that is strictly monotonic and not
    equally spaced (["MS"] for month starts, ["B"] for business days), and
    the timestamps of [pd.date_range] for a calendar rule.  Nothing is
    assumed of the two. *)
Class CalendarRules : Type := {
  infer_calendar : list Z -> option string;
  calendar_range : Z -> Z -> string -> list Z
}.

(** [pd.read_csv(path, skiprows=3)], for the file of which the frame is
    [pd.read_csv(path)]: what pandas reads when it skips three lines and
    takes the fourth for the header.  Nothing is assumed of it. *)
Class CsvReader (num : Type) : Type := {
  read_csv_skiprows : DataFrame num -> DataFrame num
}.

Section Frequencies.
Context `{CalendarRules}.

(** [pd.date_range(start, stop, freq=f)] for a fixed step: the timestamps
    [start], [start + f], ... that do not pass [stop]. *)
Definition fixed_range (start stop f : Z) : list Z :=
  if 0 <? f then
    if start <=? stop
    then map (fun i => start + Z.of_nat i * f)
             (seq 0 (S (Z.to_nat ((stop - start) / f))))
    else []
  else if f <? 0 then
    if stop <=? start
    then map (fun i => start + Z.of_nat i * f)
             (seq 0 (S (Z.to_nat ((start - stop) / (- f)))))
    else []
  else [].

(** [pd.date_range(start, stop, freq=f)]. *)
Definition date_range (start stop : Z) (f : Freq) : list Z :=
  match f with
  | Fixed step => fixed_range start stop step
  | Calendar label => calendar_range start stop label
  end.

(** The index is strictly increasing or strictly decreasing. *)
Definition strictly_monotonic (values : list Z) : bool :=
  forallb (fun p => fst p <? snd p) (combine values (tl values))
  || forallb (fun p => snd p <? fst p) (combine values (tl values)).

(** [pd.infer_freq(index)] on a [DatetimeIndex]: [ValueError] with fewer
    than three timestamps; the common step when the timestamps are
    equally spaced; [None] when they are not strictly monotonic (out of
    order, or one timestamp twice); else the calendar rule that pandas
    finds, or [None] when it finds none. *)
Definition infer_freq (values : list Z) : result (option Freq) :=
  match values with
  | t0 :: t1 :: _ :: _ =>
      let d := t1 - t0 in
      if d =? 0 then Ok None
      else if forallb (fun p => snd p - fst p =? d)
                      (combine values (tl values))
      then Ok (Some (Fixed d))
      else if strictly_monotonic values
      then Ok (option_map Calendar (infer_calendar values))
      else Ok None
  | _ => Err PyValueError
  end.

End Frequencies.

Definition list_min (l : list Z) : Z :=
  match l with
  | [] => 0
  | x :: l' => fold_left Z.min l' x
  end.

Definition list_max (l : list Z) : Z :=
  match l with
  | [] => 0
  | x :: l' => fold_left Z.max l' x
  end.

(** The position of a timestamp in an index. *)
Fixpoint position (t : Z) (values : list Z) : option nat :=
  match values with
  | [] => None
  | x :: values' =>
      if x =? t then Some O else option_map S (position t values')
  end.

Section TimeSeries.
Context {num : Type} `{Numeric num} `{CalendarRules} `{CsvReader num}.

Local Abbreviation value := (value num).
Local Abbreviation row := (row num).
Local Abbreviation DataFrame := (DataFrame num).

(** A wide table: a row index and named columns of numbers, one number for
    each entry of the index. *)
Record Wide : Type := {
  windex : Index;
  wcolumns : list (string * list num)
}.

(** [_df.asfreq(f)]: the table on the index
    [date_range(index.min(), index.max(), freq=f)]; a timestamp that the old
    index lacks gets NaN. *)
Definition asfreq (values : list Z) (cols : list (string * list num))
           (f : Freq) : Wide :=
  let new_index := date_range (list_min values) (list_max values) f in
  {| windex := DatetimeIndex new_index (Some f);
     wcolumns :=
       map (fun col : string * list num =>
              (fst col,
               map (fun t => match position t values with
                             | Some i => nth i (snd col) nnan
                             | None => nnan
                             end)
                   new_index))
           cols |}.

(** [list(_df[column].values)]: the values of the column of that name, or,
    when several columns have the name, the rows of the table they form. *)
Definition column_values (n : nat) (cols : list (string * list num))
           (column : string) : result value :=
  match filter (fun col => String.eqb (fst col) column) cols with
  | [] => Err (PyKeyError column)
  | [col] => Ok (VList (snd col))
  | sub =>
      Ok (VTable (map (fun i => map (fun col => nth i (snd col) nnan) sub)
                      (seq 0 n)))
  end.

(** ** check_consistency_timeindex *)

Definition field_name (index : string) : option string :=
  if String.eqb index "timeindex_start" then Some "start date"
  else if String.eqb index "timeindex_stop" then Some "end date"
  else if String.eqb index "timeindex_resolution" then Some "frequency"
  else None.

Definition is_none (v : value) : bool :=
  match v with VNone => true | _ => false end.

(** [array == v] on the cells of a column, as pandas compares an array
    with one cell: element by element, except that a missing [v] ([None])
    is equal to nothing, itself included, and that a list is taken for an
    array, which must have the length of the column ([ValueError]
    otherwise) and is compared position by position; a list of rows never
    has the shape of the column. *)
Definition array_eq (col : list value) (v : value) : result (list bool) :=
  match v with
  | VNone => Ok (map (fun _ => false) col)
  | VList l =>
      if Nat.eqb (length l) (length col)
      then Ok (map (fun p : value * num => value_eqb (fst p) (VNum (snd p)))
                   (combine col l))
      else Err PyValueError
  | VTable _ => Err PyValueError
  | _ => Ok (map (fun c => value_eqb c v) col)
  end.

Definition check_consistency_timeindex (df : DataFrame) (index : string)
  : result value :=
  col <- column df index ;;
  first <- match col with
           | v :: _ => Ok v
           | [] => Err PyIndexError
           end ;;
  equal <- array_eq col first ;;
  if forallb (fun b : bool => b) equal then
    if is_none first then
      match field_name index with
      | Some name => Err (MissingTimeField name index)
      | None => Err PyNameError
      end
    else Ok first
  else
    match field_name index with
    | Some name => Err (InconsistentTimeIndex name index)
    | None => Err PyNameError
    end.

(** ** stack_timeseries *)

Definition df_stacked_cols : list string :=
  ["var_name"; "timeindex_start"; "timeindex_stop"; "timeindex_resolution";
   "series"].

Definition stack_timeseries (df : Wide) : io DataFrame :=
  match windex df with
  | OtherIndex _ => io_raise NotTimeIndexed
  | DatetimeIndex values freqstr =>
      inferred <~ io_lift (infer_freq values) ;;
      match inferred with
      | None => io_raise NoFixedFrequency
      | Some _df_freq =>
          _df <~ match freqstr with
                 | None =>
                     _ <~ io_print (FrequencyInferred _df_freq) ;;
                     io_ret (asfreq values (wcolumns df) _df_freq)
                 | Some _ => io_ret df
                 end ;;
          match windex _df with
          | OtherIndex _ => io_raise NotTimeIndexed
          | DatetimeIndex values' freqstr' =>
              timeindex_start <~ io_lift (match values' with
                                          | t :: _ => Ok t
                                          | [] => Err PyIndexError
                                          end) ;;
              let timeindex_stop := last values' timeindex_start in
              let timeindex_resolution :=
                match freqstr' with
                | Some f => VFreq f
                | None => VNone
                end in
              io_lift
                (foldM (fun df_stacked column =>
                          series <- column_values (length values')
                                                  (wcolumns _df) column ;;
                          Ok (append df_stacked
                                [("var_name", VStr column);
                                 ("timeindex_start", VTime timeindex_start);
                                 ("timeindex_stop", VTime timeindex_stop);
                                 ("timeindex_resolution",
                                   timeindex_resolution);
                                 ("series", series)]))
                       (map fst (wcolumns df))
                       {| columns := df_stacked_cols; rows := [] |})
          end
      end
  end.

(** ** unstack_timeseries *)

Definition as_time (v : value) : result Z :=
  match v with VTime t => Ok t | _ => Err PyTypeError end.

Definition as_freq (v : value) : result Freq :=
  match v with VFreq f => Ok f | _ => Err PyTypeError end.

(** [row[1]["series"]] for each row, then [list(_df["var_name"])]. *)
Fixpoint mapM {A B : Type} (f : A -> result B) (l : list A)
  : result (list B) :=
  match l with
  | [] => Ok []
  | x :: l' => y <- f x ;; ys <- mapM f l' ;; Ok (y :: ys)
  end.

(** [pd.DataFrame(np.array(values_series).transpose(), columns=names,
    index=index)]: the series must all have the length of the index, and
    there is one name for each series. *)
Definition wide_of_series (values_series : list (list num))
           (names : list string) (index : list Z) (f : Freq)
  : result Wide :=
  if forallb (fun s => Nat.eqb (length s) (length index)) values_series
  then Ok {| windex := DatetimeIndex index (Some f);
             wcolumns := combine names values_series |}
  else Err PyValueError.

Definition unstack_timeseries (df : DataFrame) : io Wide :=
  frequency <~ io_lift (check_consistency_timeindex df
                          "timeindex_resolution") ;;
  timeindex_start <~ io_lift (check_consistency_timeindex df
                                "timeindex_start") ;;
  timeindex_stop <~ io_lift (check_consistency_timeindex df
                               "timeindex_stop") ;;
  _ <~ io_fold (fun (_ : unit) col =>
                  if mem col (columns df) then io_print (RemarksLost col)
                  else io_ret tt)
               ["source"; "comment"] tt ;;
  io_lift
    (values_series <- mapM (fun r => c <- cell df "series" r ;; as_list c)
                           (rows df) ;;
     names <- mapM (fun r => c <- cell df "var_name" r ;; as_str c)
                   (rows df) ;;
     start <- as_time timeindex_start ;;
     stop <- as_time timeindex_stop ;;
     f <- as_freq frequency ;;
     wide_of_series values_series names (date_range start stop f) f).

(** ** load_timeseries

    [df] is the frame that [pd.read_csv(path)] yields for the file, with
    its timestamps and series literals already parsed (what
    [pd.to_datetime] and [ast.literal_eval] do on lines 207 and 246-250). *)

(** [df[c] = vals]. *)
Definition set_column (df : DataFrame) (c : string) (vals : list value)
  : DataFrame :=
  {| columns := if mem c (columns df) then columns df else columns df ++ [c];
     rows := map (fun p : row * value => row_set (fst p) c (snd p))
                 (combine (rows df) vals) |}.

(** [df[header]]. *)
Definition select (df : DataFrame) (header : list string) : result DataFrame :=
  match filter (fun c => negb (mem c (columns df))) header with
  | [] => Ok {| columns := header;
                rows := map (fun r => map (fun c => (c, row_get r c)) header)
                            (rows df) |}
  | c :: _ => Err (PyKeyError c)
  end.

(** Lines 269-283. *)
Definition region_of (var_name : string) : result string :=
  if str_in "BE" var_name && str_in "BB" var_name then Ok "BE_BB"
  else if str_in "BE" var_name && negb (str_in "BB" var_name) then Ok "BE"
  else if negb (str_in "BE" var_name) && str_in "BB" var_name then Ok "BB"
  else Err MissingRegion.

(** [pd.read_csv(path, nrows=3)]: the first three rows of the file. *)
Definition head3 (df : DataFrame) : DataFrame :=
  {| columns := columns df; rows := firstn 3 (rows df) |}.

(** [df[c][i]] for the row label [i], which is written [label]. *)
Definition cell_at (df : DataFrame) (c : string) (i : nat) (label : string)
  : result value :=
  if mem c (columns df)
  then match nth_error (rows df) i with
       | Some r => Ok (row_get r c)
       | None => Err (PyKeyError label)
       end
  else Err (PyKeyError c).

(** Lines 174-179: the test for the layout of a results file. *)
Definition results_format (df : DataFrame) : result bool :=
  if negb (mem "from" (columns df)) then Ok false
  else
    c0 <- cell_at df "from" 0 "0" ;;
    if negb (value_eqb c0 (VStr "to")) then Ok false
    else
      c1 <- cell_at df "from" 1 "1" ;;
      if negb (value_eqb c1 (VStr "type")) then Ok false
      else
        c2 <- cell_at df "from" 2 "2" ;;
        Ok (value_eqb c2 (VStr "timeindex")).

(** Lines 184-190: the merged header, ["<type> from <from> to <to>"]. *)
Definition merged_header (df : DataFrame) : result (list string) :=
  mapM (fun ic : nat * string =>
          let (index, col) := ic in
          if Nat.eqb index 0 then Ok "timeindex"
          else
            c1 <- cell_at df col 1 "1" ;;
            type <- as_str c1 ;;
            c0 <- cell_at df col 0 "0" ;;
            to <- as_str c0 ;;
            Ok (type ++ " from " ++ col ++ " to " ++ to)%string)
       (combine (seq 0 (length (columns df))) (columns df)).

(** [df.rename(columns={col: new}, inplace=True)]. *)
Definition rename_column (df : DataFrame) (col new : string) : DataFrame :=
  let renamed k := if String.eqb k col then new else k in
  {| columns := map renamed (columns df);
     rows := map (map (fun kv : string * value => (renamed (fst kv), snd kv)))
                 (rows df) |}.

(** Lines 194-197: the columns of the frame read anew get the merged
    names, one after the other. *)
Definition rename_columns (df_columns : list string) (df : DataFrame)
  : result DataFrame :=
  foldM (fun df (ic : nat * string) =>
           let (index, col) := ic in
           match nth_error df_columns index with
           | Some new => Ok (rename_column df col new)
           | None => Err PyIndexError
           end)
        (combine (seq 0 (length (columns df))) (columns df)) df.

(** [del df[c]]. *)
Definition del_column (df : DataFrame) (c : string) : DataFrame :=
  {| columns := filter (fun k => negb (String.eqb k c)) (columns df);
     rows := map (filter (fun kv : string * value =>
                            negb (String.eqb (fst kv) c)))
                 (rows df) |}.

(** [df.set_index(c)] for a column [c] of timestamps: the column becomes
    the row index, a [DatetimeIndex] without a frequency, and the other
    columns hold the numbers of the wide table. *)
Definition set_index (df : DataFrame) (c : string) : result Wide :=
  index <- column df c ;;
  times <- mapM as_time index ;;
  cols <- mapM (fun k =>
                  vals <- mapM (fun r => as_num (row_get r k)) (rows df) ;;
                  Ok (k, vals))
               (filter (fun k => negb (String.eqb k c)) (columns df)) ;;
  Ok {| windex := DatetimeIndex times None; wcolumns := cols |}.

(** Lines 207-213: the first column is parsed into the column
    [timeindex], which becomes the row index. *)
Definition wide_frame (df : DataFrame) : result Wide :=
  first <- match columns df with
           | c :: _ => Ok c
           | [] => Err PyIndexError
           end ;;
  col <- column df first ;;
  times <- mapM as_time col ;;
  let df := set_column df "timeindex" (map VTime times) in
  first <- match columns df with
           | c :: _ => Ok c
           | [] => Err PyIndexError
           end ;;
  let df := if negb (String.eqb first "timeindex")
            then del_column df first else df in
  set_index df "timeindex".

(** The frame [file] of the whole file is read three times: its first
    three rows on line 170, which is what a wide table is stacked from;
    without its first three lines on line 193, for a results file; and
    whole on line 220, for a stacked table. *)
Definition load_timeseries (file : DataFrame) : io DataFrame :=
  timeseries_header <~
    io_lift (get_optional_required_header "timeseries") ;;
  let '(header, optional_header, required_header) := timeseries_header in
  let df := head3 file in
  results <~ io_lift (results_format df) ;;
  df <~ (if results
         then
           df_columns <~ io_lift (merged_header df) ;;
           io_lift (rename_columns df_columns (read_csv_skiprows file))
         else io_ret df) ;;
  let stacked :=
    existsb (fun item => mem item required_header) (columns df) in
  df <~ (if negb stacked
         then
           wide <~ io_lift (wide_frame df) ;;
           stack_timeseries wide
         else
           let df := file in
           let df_header := columns df in
           let missing_required :=
             filter (fun required => negb (mem required df_header)
                                     && negb (str_in "region" required))
                    required_header in
           match missing_required with
           | [] => io_ret df
           | _ => io_raise (MissingRequiredColumns missing_required)
           end) ;;
  required_header_without_reg <~
    io_lift (list_remove "region" required_header) ;;
  df <~ (if (list_eqb (columns df) required_header
             || list_eqb (columns df) required_header_without_reg)
            && negb (list_eqb (columns df) header)
         then
           let df :=
             if negb (mem (hd "" optional_header) (columns df))
             then set_column df (hd "" optional_header)
                    (map (fun i => VInt (Z.of_nat i))
                         (seq 0 (length (rows df))))
             else df in
           df <~ (if negb (mem (hd "" required_header) (columns df))
                  then
                    region <~
                      io_lift (mapM (fun r =>
                                       c <- cell df "var_name" r ;;
                                       var_name <- as_str c ;;
                                       reg <- region_of var_name ;;
                                       Ok (VStr reg))
                                    (rows df)) ;;
                    io_ret (set_column df (hd "" required_header) region)
                  else io_ret df) ;;
           io_ret
             (fold_left
                (fun df optional =>
                   if negb (mem optional (columns df))
                   then set_column df optional
                          (map (fun _ => VNum nnan) (rows df))
                   else df)
                (tl optional_header) df)
         else io_ret df) ;;
  io_lift (select df header).

End TimeSeries.

Arguments Wide num : clear implicits.

(** ** load_scalars

    [df] is the frame that [pd.read_csv] yields for the file, and
    [filename] is [os.path.splitext(path)[0]].  The function prints one
    notice for each optional column that it adds, the id column apart. *)

Inductive load_notice : Type :=
  | OptionalColumnAdded (filename optional : string).

Section Loading.
Context {num : Type} `{Numeric num}.

Local Abbreviation value := (value num).
Local Abbreviation row := (row num).
Local Abbreviation DataFrame := (DataFrame num).

(** The body of [for optional in optional_header] (lines 123-137).  The
    header lists each name once, so [optional is optional_header[0]] is
    equality with the first name. *)
Definition add_optional (filename : string) (df_header : list string)
           (optional_header : list string)
           (state : list load_notice * DataFrame) (optional : string)
  : list load_notice * DataFrame :=
  let (out, df) := state in
  if negb (mem optional df_header) then
    if String.eqb optional (hd "" optional_header)
    then (out, set_column df optional
                 (map (fun i => VInt (Z.of_nat i))
                      (seq 0 (length (rows df)))))
    else (out ++ [OptionalColumnAdded filename optional],
          set_column df optional (map (fun _ => VNum nnan) (rows df)))
  else (out, df).

(** [list(set(required_header).difference(set(df_header)))]: the required
    columns that the frame lacks.  Python lists a set in no specified order;
    here they come in the order of the header. *)
Definition load_scalars (filename : string) (df : DataFrame)
  : list load_notice * result DataFrame :=
  match get_optional_required_header "scalars" with
  | Err e => ([], Err e)
  | Ok (header, optional_header, required_header) =>
      let df_header := columns df in
      let missing_required :=
        filter (fun c => negb (mem c df_header)) required_header in
      match missing_required with
      | _ :: _ => ([], Err (MissingRequiredColumns missing_required))
      | [] =>
          let (out, df) :=
            fold_left (add_optional filename df_header optional_header)
                      optional_header ([], df) in
          (out, select df header)
      end
  end.

(** ** The second half of load_timeseries

    Lines 252-294, which [load_timeseries] runs on the stacked frame: the
    frame gets the columns that it lacks when its columns are exactly the
    required ones, and is then put in the order of the header.  Lemma
    [load_timeseries_eq] shows that [load_timeseries] ends with these
    statements. *)
Definition complete_timeseries (header optional_header required_header
                                : list string) (df : DataFrame)
  : io DataFrame :=
  required_header_without_reg <~
    io_lift (list_remove "region" required_header) ;;
  df <~ (if (list_eqb (columns df) required_header
             || list_eqb (columns df) required_header_without_reg)
            && negb (list_eqb (columns df) header)
         then
           let df :=
             if negb (mem (hd "" optional_header) (columns df))
             then set_column df (hd "" optional_header)
                    (map (fun i => VInt (Z.of_nat i))
                         (seq 0 (length (rows df))))
             else df in
           df <~ (if negb (mem (hd "" required_header) (columns df))
                  then
                    region <~
                      io_lift (mapM (fun r =>
                                       c <- cell df "var_name" r ;;
                                       var_name <- as_str c ;;
                                       reg <- region_of var_name ;;
                                       Ok (VStr reg))
                                    (rows df)) ;;
                    io_ret (set_column df (hd "" required_header) region)
                  else io_ret df) ;;
           io_ret
             (fold_left
                (fun df optional =>
                   if negb (mem optional (columns df))
                   then set_column df optional
                          (map (fun _ => VNum nnan) (rows df))
                   else df)
                (tl optional_header) df)
         else io_ret df) ;;
  io_lift (select df header).

End Loading.

(** ** Vocabulary of the statements *)

(** A column that one of the two schemas lists as optional. *)
Definition is_optional (c : string) : bool :=
  mem c optional_header_scalars || mem c optional_header_timeseries.

(** One of the two region codes occurs in the name. *)
Definition has_region (var_name : string) : bool :=
  str_in "BE" var_name || str_in "BB" var_name.

(** The region of a name in which a region code occurs: both codes give
    ["BE_BB"], one code gives that code. *)
Definition region_code (var_name : string) : string :=
  if str_in "BE" var_name && str_in "BB" var_name then "BE_BB"
  else if str_in "BE" var_name then "BE"
  else "BB".

(** The [n] timestamps [t0], [t0 + d], [t0 + 2 d], ... *)
Definition arithmetic (t0 d : Z) (n : nat) : list Z :=
  map (fun i => t0 + Z.of_nat i * d) (seq 0 n).

Section Vocabulary.
Context {num : Type} `{Numeric num} `{CalendarRules}.

Local Abbreviation value := (value num).
Local Abbreviation row := (row num).
Local Abbreviation DataFrame := (DataFrame num).

(** The row of a table matches the requested value. *)
Definition matches (key v : string) (r : row) : bool :=
  value_eqb (VStr v) (row_get r key).

(** The requested value occurs in the column. *)
Definition found (df : DataFrame) (key v : string) : bool :=
  existsb (matches key v) (rows df).

Definition is_str (v : value) : bool :=
  match v with VStr _ => true | _ => false end.

Definition is_num (v : value) : bool :=
  match v with VNum _ => true | _ => false end.

(** The text of a cell. *)
Definition text_of (v : value) : string :=
  match v with VStr s => s | _ => "" end.

(** The text of the [var_name] cell of a row. *)
Definition var_name_of (r : row) : string :=
  match row_get r "var_name" with VStr s => s | _ => "" end.

(** The cells that the scalar aggregation reads hold what the schema
    prescribes. *)
Definition typed_scalar_row (r : row) : bool :=
  is_str (row_get r "scenario") && is_str (row_get r "var_name")
  && is_str (row_get r "carrier") && is_str (row_get r "region")
  && is_str (row_get r "tech") && is_num (row_get r "var_value").

(** One of the five categories of the aggregation occurs in the name. *)
Definition known (var_name : string) : bool :=
  str_in "capacity" var_name || str_in "flow" var_name
  || str_in "costs" var_name || str_in "invest" var_name
  || str_in "losses" var_name.

(** A name that the aggregation treats as a flow has a third segment. *)
Definition flow_has_carrier (var_name : string) : bool :=
  str_in "capacity" var_name || negb (str_in "flow" var_name)
  || (3 <=? length (split "_" var_name))%nat.

(** The exceptions that the scalar aggregation of a typed table can raise. *)
Definition agg_failure (df : DataFrame) (e : error) : Prop :=
  (exists r, In r (rows df) /\ known (var_name_of r) = false
             /\ e = UnknownVariable (var_name_of r))
  \/ (exists r, In r (rows df) /\ flow_has_carrier (var_name_of r) = false
                /\ e = PyIndexError).

(** The numbers of the [series] cell of a row. *)
Definition series_of (r : row) : list num :=
  match row_get r "series" with VList l => l | _ => [] end.

(** The sum of two sequences, position by position. *)
Definition add_series (a b : list num) : list num :=
  map (fun p => nadd (fst p) (snd p)) (combine a b).

(** The sum that the time series aggregation builds for a key item: the
    series of the rows of the group are added, in table order, to [n]
    zeros. *)
Definition group_sum (df : DataFrame) (key : string) (key_item : value)
           (n : nat) : list num :=
  fold_left add_series
            (map series_of
                 (filter (fun r => value_eqb (row_get r key) key_item)
                         (rows df)))
            (repeat nzero n).

(** The region of a row is text and its series has [n] numbers. *)
Definition typed_series_row (n : nat) (r : row) : bool :=
  is_str (row_get r "region")
  && match row_get r "series" with
     | VList l => Nat.eqb (length l) n
     | _ => false
     end.

(** The cell of the first row of a table under a column. *)
Definition first_cell (df : DataFrame) (c : string) : value :=
  match rows df with
  | r :: _ => row_get r c
  | [] => VNone
  end.

(** The row that the time series aggregation emits for a key item. *)
Definition aggregated_series_row (df : DataFrame) (key : string) (n : nat)
           (key_item : value) : row :=
  [("id_ts", VNone);
   ("region", key_item);
   ("var_name", VStr ("Aggregated by " ++ key));
   ("timeindex_start", first_cell df "timeindex_start");
   ("timeindex_stop", first_cell df "timeindex_stop");
   ("timeindex_resolution", first_cell df "timeindex_resolution");
   ("series", VList (group_sum df key key_item n));
   ("var_unit", VStr "-");
   ("source", VNone);
   ("comment", VNone)].

(** A cell that holds no number: [None], text, an id, a timestamp or a
    frequency label.  On such cells [==] is equality. *)
Definition plain (v : value) : bool :=
  match v with
  | VNone | VStr _ | VInt _ | VTime _ | VFreq _ => true
  | _ => false
  end.

(** All rows of the table hold a plain cell under the column. *)
Definition plain_column (df : DataFrame) (c : string) : Prop :=
  forall r, In r (rows df) -> plain (row_get r c) = true.

(** Two rows of the table differ under the column. *)
Definition differs (df : DataFrame) (c : string) : Prop :=
  exists r1 r2, In r1 (rows df) /\ In r2 (rows df)
                /\ row_get r1 c <> row_get r2 c.

(** All rows of the table hold the cell [v] under the column. *)
Definition constant (df : DataFrame) (c : string) (v : value) : Prop :=
  forall r, In r (rows df) -> row_get r c = v.

(** The stacked row of a variable. *)
Definition stacked_row (name : string) (start stop f : Z) (vals : list num)
  : row :=
  [("var_name", VStr name);
   ("timeindex_start", VTime start);
   ("timeindex_stop", VTime stop);
   ("timeindex_resolution", VFreq f);
   ("series", VList vals)].

(** The name of a stacked row is text and its series has [n] numbers. *)
Definition typed_stacked_row (n : nat) (r : row) : bool :=
  is_str (row_get r "var_name")
  && match row_get r "series" with
     | VList l => Nat.eqb (length l) n
     | _ => false
     end.

(** [stack_timeseries] after [unstack_timeseries]. *)
Definition round_trip (df : DataFrame) : io DataFrame :=
  w <~ unstack_timeseries df ;; stack_timeseries w.

(** The cells of a column, in row order. *)
Definition col_of (df : DataFrame) (c : string) : list value :=
  map (fun r => row_get r c) (rows df).

End Vocabulary.

(** ** Vocabulary of the further statements *)

Section FurtherVocabulary.
Context {num : Type} `{Numeric num}.

Local Abbreviation value := (value num).
Local Abbreviation row := (row num).
Local Abbreviation DataFrame := (DataFrame num).
Local Abbreviation results_dict := (results_dict num).

(** Every cell of every row lies under a column of the frame, as in a
    pandas frame. *)
Definition well_formed (df : DataFrame) : Prop :=
  forall r, In r (rows df) -> forall c, In c (map fst r) -> In c (columns df).

(** The exception of the check that the key is a column of the frame. *)
Definition is_missing_column (e : error) : bool :=
  match e with MissingColumn _ => true | _ => false end.

(** The ids [0], [1], ... of [n] rows. *)
Definition ids (n : nat) : list value :=
  map (fun i => VInt (Z.of_nat i)) (seq 0 n).

(** A column of [n] missing values. *)
Definition nans (n : nat) : list value :=
  repeat (VNum nnan) n.

(** *** The scalar aggregation as a function of the rows *)

(** The number of the [var_value] cell of a row. *)
Definition value_of (r : row) : num :=
  match row_get r "var_value" with VNum x => x | _ => nzero end.

(** The row belongs to the group of the scenario and the key item. *)
Definition in_group (key : string) (scenario key_item : value) (r : row)
  : bool :=
  value_eqb (row_get r "scenario") scenario
  && value_eqb (row_get r key) key_item.

(** The entry of the result dictionary that a row goes to: the category of
    its name, for a flow with the third segment of the name and, unless the
    key is the region, with the carrier of the row. *)
Definition bucket (key : string) (r : row) : string :=
  let var_name := var_name_of r in
  if str_in "capacity" var_name then "capacity"
  else if str_in "flow" var_name then
    let energy_carrier := nth 2 (split "_" var_name) "" in
    if negb (str_in "carrier" key) && negb (str_in "tech" key)
    then ("flow_" ++ energy_carrier)%string
    else ("flow_" ++ energy_carrier ++ "_"
          ++ text_of (row_get r "carrier"))%string
  else if str_in "costs" var_name then "costs"
  else if str_in "invest" var_name then "invest"
  else "losses".

(** What a row does to the number [x] of its entry: capacities and losses
    are added; a flow, a cost or an investment is added when ["in"] occurs
    in its name, else subtracted when ["out"] occurs in it, else left
    out. *)
Definition contribution (r : row) (x : num) : num :=
  let var_name := var_name_of r in
  if str_in "capacity" var_name then nadd x (value_of r)
  else if str_in "flow" var_name || str_in "costs" var_name
          || str_in "invest" var_name
  then if str_in "in" var_name then nadd x (value_of r)
       else if str_in "out" var_name then nsub x (value_of r)
       else x
  else nadd x (value_of r).

(** The distinct names of a list, each at the place of its first
    occurrence. *)
Definition distinct (l : list string) : list string :=
  fold_left (fun seen x => if mem x seen then seen else seen ++ [x]) l [].

(** The number of the entry [b] after the rows [rs]: their contributions
    in the order of the rows, from zero. *)
Definition entry_total (key : string) (rs : list row) (b : string) : num :=
  fold_left (fun x r => contribution r x)
            (filter (fun r => String.eqb (bucket key r) b) rs) nzero.

(** The row that the scalar aggregation emits for an entry. *)
Definition aggregated_scalar_row (key : string) (scenario key_item : value)
           (dict_key : string) (dict_item : num) : row :=
  [("id_scal", VNone);
   ("scenario", scenario);
   ("name", VStr ("Aggregated by " ++ key)%string);
   ("var_name", VStr dict_key);
   ("carrier", if String.eqb key "carrier" then key_item else VStr "All");
   ("region", if String.eqb key "region" then key_item else VStr "All");
   ("tech", if String.eqb key "tech" then key_item else VStr "All");
   ("type", VStr "All");
   ("var_value", VNum dict_item);
   ("var_unit", VStr "-");
   ("reference", VNone);
   ("comment", VNone)].

(** The rows of the aggregated table: the scenarios in the order of their
    first occurrence, within a scenario the key items in that order, and
    within a group its entries in that order. *)
Definition aggregated_scalar_rows (df : DataFrame) (key : string)
  : list row :=
  flat_map
    (fun scenario =>
       flat_map
         (fun key_item =>
            let group := filter (in_group key scenario key_item) (rows df) in
            map (fun b => aggregated_scalar_row key scenario key_item b
                            (entry_total key group b))
                (distinct (map (bucket key) group)))
         (fromkeys (col_of df key)))
    (fromkeys (col_of df "scenario")).

(** A row that the scalar aggregation takes in. *)
Definition summable (r : row) : bool :=
  known (var_name_of r) && flow_has_carrier (var_name_of r).

(** The number under a key of the result dictionary, zero when the key is
    new. *)
Definition dict_lookup (d : results_dict) (k : string) : num :=
  match dict_get d k with Ok x => x | Err _ => nzero end.

Definition dict_update (d : results_dict) (k : string) (f : num -> num)
  : results_dict :=
  dict_set d k (f (dict_lookup d k)).

End FurtherVocabulary.

(** ** Concrete tables *)

(** The answers of pandas with which the concrete tables are evaluated: no
    calendar rule is found, and a results file is read as its rows after
    the third. *)
Definition no_calendar : CalendarRules :=
  {| infer_calendar := fun _ => None;
     calendar_range := fun _ _ _ => [] |}.

Definition rows_after_header : CsvReader number :=
  {| read_csv_skiprows :=
       fun df => {| columns := columns df; rows := skipn 3 (rows df) |} |}.

(** A row of a scalar table without its optional columns. *)
Definition scalar_row
           (scenario name var_name carrier region tech type : string)
           (var_value : Z) : row number :=
  [("scenario", VStr scenario);
   ("name", VStr name);
   ("var_name", VStr var_name);
   ("carrier", VStr carrier);
   ("region", VStr region);
   ("tech", VStr tech);
   ("type", VStr type);
   ("var_value", VNum (Num var_value))].

Definition scalar_table (rs : list (row number)) : DataFrame number :=
  {| columns := required_header_scalars; rows := rs |}.

(** A row of a stacked time series table with its [region] and without its
    optional columns. *)
Definition series_row (region var_name : string)
           (start stop resolution : value number) (series : list Z)
  : row number :=
  [("region", VStr region);
   ("var_name", VStr var_name);
   ("timeindex_start", start);
   ("timeindex_stop", stop);
   ("timeindex_resolution", resolution);
   ("series", VList (map Num series))].

Definition series_table (rs : list (row number)) : DataFrame number :=
  {| columns := required_header_timeseries; rows := rs |}.

(** A row of a stacked table as [stack_timeseries] lays it out. *)
Definition stacked (var_name : string)
           (start stop resolution : value number) (series : list Z)
  : row number :=
  [("var_name", VStr var_name);
   ("timeindex_start", start);
   ("timeindex_stop", stop);
   ("timeindex_resolution", resolution);
   ("series", VList (map Num series))].

Definition stacked_table (rs : list (row number)) : DataFrame number :=
  {| columns := df_stacked_cols; rows := rs |}.

(** Three hourly values of two variables. *)
Definition two_variables : DataFrame number :=
  stacked_table
    [stacked "BB-wind" (VTime 0) (VTime 7200) (VFreq 3600) [1; 2; 3];
     stacked "BE-load" (VTime 0) (VTime 7200) (VFreq 3600) [4; 5; 6]].

Definition invest_table : DataFrame number :=
  scalar_table
    [scalar_row "base" "BB-pv" "invest_out_electricity" "solar" "BB" "pv"
                "volatile" 5].

Definition unknown_table : DataFrame number :=
  scalar_table
    [scalar_row "base" "BB-wind" "capacity" "wind" "BB" "onshore" "volatile" 4;
     scalar_row "base" "BB-x" "foobar_in" "wind" "BB" "onshore" "volatile" 1].

Definition no_start_table : DataFrame number :=
  stacked_table [stacked "a" VNone (VTime 7200) (VFreq 3600) [1; 2; 3];
                 stacked "b" VNone (VTime 7200) (VFreq 3600) [4; 5; 6]].

Definition regions_table : DataFrame number :=
  series_table
    [series_row "BB" "wind" (VTime 0) (VTime 7200) (VFreq 3600) [1; 2; 3];
     series_row "BE" "load" (VTime 0) (VTime 7200) (VFreq 3600) [4; 5; 6];
     series_row "BB" "pv" (VTime 0) (VTime 7200) (VFreq 3600) [10; 20; 30]].

Definition filter_table : DataFrame number :=
  scalar_table
    [scalar_row "base" "BE-load" "flow_in_electricity" "load" "BE" "demand"
                "load" 2;
     scalar_row "base" "BB-wind" "capacity" "wind" "BB" "onshore" "volatile" 4;
     scalar_row "base" "BB-pv" "capacity" "solar" "BB" "pv" "volatile" 6].

(** Three hourly values of two variables, as a wide table that does not
    record its frequency. *)
Definition wide_example : Wide number :=
  {| windex := DatetimeIndex [0; 3600; 7200] None;
     wcolumns := [("BB-wind", [Num 1; Num 2; Num 3]);
                  ("BE-load", [Num 4; Num 5; Num 6])] |}.

(** A file of four hourly values of two variables: the timestamps are a
    column, and no column is one of the stacked layout.  Its first three
    rows are those of [wide_example]. *)
Definition wide_file : DataFrame number :=
  {| columns := ["timeindex"; "BB-wind"; "BE-load"];
     rows := [[("timeindex", VTime 0); ("BB-wind", VNum (Num 1));
               ("BE-load", VNum (Num 4))];
              [("timeindex", VTime 3600); ("BB-wind", VNum (Num 2));
               ("BE-load", VNum (Num 5))];
              [("timeindex", VTime 7200); ("BB-wind", VNum (Num 3));
               ("BE-load", VNum (Num 6))];
              [("timeindex", VTime 10800); ("BB-wind", VNum (Num 7));
               ("BE-load", VNum (Num 8))]] |}.

(** The required columns of a time series table, with [region] last. *)
Definition region_last : DataFrame number :=
  {| columns := df_stacked_cols ++ ["region"];
     rows := [stacked "BB-wind" (VTime 0) (VTime 7200) (VFreq 3600) [1; 2; 3]
              ++ [("region", VStr "BB")]] |}.

(** A stacked table with a column of comments. *)
Definition commented_table : DataFrame number :=
  {| columns := df_stacked_cols ++ ["comment"];
     rows := [stacked "BB-wind" (VTime 0) (VTime 7200) (VFreq 3600) [1; 2; 3]
              ++ [("comment", VStr "measured")]] |}.

(** * Properties *)

(** ** Strings, lists and the monads *)

Lemma mem_true_iff (x : string) (l : list string) :
  mem x l = true <-> In x l.
Proof.
  unfold mem. rewrite existsb_exists. split.
  - intros [y [Hy Heq]]. apply String.eqb_eq in Heq. now subst.
  - intros Hin. exists x. split; [assumption | apply String.eqb_refl].
Qed.

Lemma mem_false_iff (x : string) (l : list string) :
  mem x l = false <-> ~ In x l.
Proof.
  rewrite <- mem_true_iff. destruct (mem x l); split; congruence.
Qed.

Lemma list_eqb_eq (l1 l2 : list string) :
  list_eqb l1 l2 = true <-> l1 = l2.
Proof.
  revert l2. induction l1 as [|a l1 IH]; intros [|b l2]; simpl;
    try (split; congruence).
  rewrite andb_true_iff, String.eqb_eq, IH. split.
  - intros [-> ->]. reflexivity.
  - intros Heq. injection Heq as -> ->. split; reflexivity.
Qed.

Lemma list_eqb_neq (l1 l2 : list string) :
  list_eqb l1 l2 = false <-> l1 <> l2.
Proof.
  rewrite <- list_eqb_eq. destruct (list_eqb l1 l2); split; congruence.
Qed.

Lemma list_remove_first (x : string) (pre l : list string) :
  ~ In x pre -> list_remove x (pre ++ x :: l) = Ok (pre ++ l).
Proof.
  induction pre as [|y pre IH]; simpl; intros Hnin.
  - now rewrite String.eqb_refl.
  - destruct (String.eqb y x) eqn:Hyx.
    + apply String.eqb_eq in Hyx. tauto.
    + rewrite IH by tauto. reflexivity.
Qed.

(** An invariant of a loop that does not raise holds when the loop ends. *)
Lemma foldM_invariant {A B : Type} (P : A -> Prop) (f : A -> B -> result A)
      (l : list B) :
  (forall a x a', In x l -> P a -> f a x = Ok a' -> P a') ->
  forall a a', P a -> foldM f l a = Ok a' -> P a'.
Proof.
  induction l as [|x l IH]; simpl; intros Hstep a a' Ha Hrun.
  - now injection Hrun as <-.
  - destruct (f a x) as [a1|e] eqn:Hf; simpl in Hrun; [|discriminate].
    apply (IH (fun a0 y a0' Hy => Hstep a0 y a0' (or_intror Hy)) a1 a');
      [|assumption].
    apply (Hstep a x a1); auto.
Qed.

(** A loop raises when one of its iterations raises whatever the state,
    and the exception is one that some iteration can raise. *)
Lemma foldM_raises {A B : Type} (E : error -> Prop) (f : A -> B -> result A)
      (l : list B) :
  (forall a x e, In x l -> f a x = Err e -> E e) ->
  (exists x, In x l /\ forall a, exists e, f a x = Err e) ->
  forall a, exists e, foldM f l a = Err e /\ E e.
Proof.
  induction l as [|x l IH]; simpl; intros Hallowed [x0 [Hin Hbad]] a.
  - contradiction.
  - destruct (f a x) as [a1|e] eqn:Hf; simpl.
    + apply IH.
      * intros a0 y e Hy. apply Hallowed. now right.
      * destruct Hin as [->|Hin].
        -- destruct (Hbad a) as [e He]. congruence.
        -- exists x0. now split.
    + exists e. split; [reflexivity|]. apply (Hallowed a x e); auto.
Qed.

(** ** C6: the header check *)

(** The required headers that [get_optional_required_header] computes. *)
Lemma get_header_scalars :
  get_optional_required_header "scalars"
  = Ok (header_scalars, optional_header_scalars, required_header_scalars).
Proof. reflexivity. Qed.

Lemma get_header_timeseries :
  get_optional_required_header "timeseries"
  = Ok (header_timeseries, optional_header_timeseries,
        required_header_timeseries).
Proof. reflexivity. Qed.

Lemma df_header_required_loop (l pre : list string) :
  (forall c, In c pre -> is_optional c = false) ->
  foldM (fun required item =>
           if mem item optional_header_scalars
           then list_remove item required
           else if mem item optional_header_timeseries
           then list_remove item required
           else Ok required)
        l (pre ++ l)
  = Ok (pre ++ filter (fun c => negb (is_optional c)) l).
Proof.
  revert pre. induction l as [|x l IH]; intros pre Hpre; [reflexivity|].
  assert (Hopt : is_optional x = true -> ~ In x pre).
  { intros Hx Hin. apply Hpre in Hin. congruence. }
  cbn [foldM filter]. unfold is_optional in *.
  destruct (mem x optional_header_scalars) eqn:Hs;
    [|destruct (mem x optional_header_timeseries) eqn:Ht];
    cbn [orb negb].
  - rewrite list_remove_first by auto. simpl. now apply IH.
  - rewrite list_remove_first by auto. simpl. now apply IH.
  - simpl.
    replace (pre ++ x :: l) with ((pre ++ [x]) ++ l)
      by now rewrite <- app_assoc.
    rewrite IH.
    + now rewrite <- app_assoc.
    + intros c Hc. apply in_app_or in Hc. destruct Hc as [Hc|[<-|[]]].
      * now apply Hpre.
      * now rewrite Hs, Ht.
Qed.

(** The loop never raises: it yields the header without its optional
    columns, in the order of the header. *)
Lemma df_header_required_filter (df_header : list string) :
  df_header_required optional_header_scalars optional_header_timeseries
                     df_header
  = Ok (filter (fun c => negb (is_optional c)) df_header).
Proof.
  unfold df_header_required.
  apply (df_header_required_loop df_header []). intros c [].
Qed.

Lemma classify_eq (df_header : list string) :
  classify df_header =
  let required := filter (fun c => negb (is_optional c)) df_header in
  if list_eqb required required_header_scalars then Ok Scalars
  else if list_eqb required required_header_timeseries then Ok TimeSeries
  else Err (UnrecognizedSchema header_timeseries header_scalars).
Proof.
  unfold classify.
  rewrite get_header_scalars, get_header_timeseries. cbn [bind].
  rewrite df_header_required_filter. reflexivity.
Qed.

Section TableProperties.
Context {num : Type} `{Numeric num} {calendar : CalendarRules}
        {reader : CsvReader num}.

Local Abbreviation value := (value num).
Local Abbreviation row := (row num).
Local Abbreviation DataFrame := (DataFrame num).
Local Abbreviation results_dict := (results_dict num).
Local Abbreviation Wide := (Wide num).

(** C6, as amended: [df_filtered] and [df_agg] take the optional columns of
    either schema out of the frame's header and compare what is left, as an
    ordered list, with the required header of scalars and then with that of
    time series; the frame is a scalar table, or a time series table, exactly
    when the list is equal to that header, and when it is equal to neither
    both functions raise the [KeyError] that names the two full headers. *)
Theorem header_check_is_ordered (df : DataFrame) (key : string)
        (values : list string) :
  let required := filter (fun c => negb (is_optional c)) (columns df) in
  (classify (columns df) = Ok Scalars
   <-> required = required_header_scalars) /\
  (classify (columns df) = Ok TimeSeries
   <-> required = required_header_timeseries) /\
  (required <> required_header_scalars /\
   required <> required_header_timeseries ->
   df_filtered df key values
   = ([], Err (UnrecognizedSchema header_timeseries header_scalars)) /\
   df_agg df key
   = Err (UnrecognizedSchema header_timeseries header_scalars)).
Proof.
  intros required.
  assert (Hc := classify_eq (columns df)). cbv zeta in Hc.
  fold required in Hc.
  assert (Hdiff : required_header_scalars <> required_header_timeseries)
    by discriminate.
  destruct (list_eqb required required_header_scalars) eqn:Hs.
  - apply list_eqb_eq in Hs. split; [tauto|]. split; [|tauto].
    split; intros Ht; congruence.
  - apply list_eqb_neq in Hs.
    destruct (list_eqb required required_header_timeseries) eqn:Ht.
    + apply list_eqb_eq in Ht. split; [|split; [tauto|tauto]].
      split; intros Hk; congruence.
    + apply list_eqb_neq in Ht. split; [|split].
      * split; intros Hk; congruence.
      * split; intros Hk; congruence.
      * intros _. unfold df_filtered, df_agg. rewrite Hc. now split.
Qed.

(** ** C9: df_filtered *)

Lemma value_eqb_str (s : string) (v : value) :
  value_eqb (VStr s) v = true <-> v = VStr s.
Proof.
  destruct v; simpl; try (split; congruence).
  rewrite String.eqb_eq. split; congruence.
Qed.

Lemma value_eqb_str_r (s : string) (v : value) :
  value_eqb v (VStr s) = true <-> v = VStr s.
Proof.
  destruct v; simpl; try (split; congruence).
  rewrite String.eqb_eq. split; congruence.
Qed.

Lemma cell_in (df : DataFrame) (c : string) (r : row) :
  mem c (columns df) = true -> cell df c r = Ok (row_get r c).
Proof. unfold cell. now intros ->. Qed.

Lemma column_in (df : DataFrame) (c : string) :
  mem c (columns df) = true ->
  column df c = Ok (map (fun r => row_get r c) (rows df)).
Proof. unfold column. now intros ->. Qed.

Lemma found_filter (df : DataFrame) (key v : string) :
  found df key v = false -> filter (matches key v) (rows df) = [].
Proof.
  unfold found. induction (rows df) as [|r l IH]; simpl; [easy|].
  destruct (matches key v r); simpl; [discriminate|exact IH].
Qed.

Lemma filter_scan (df : DataFrame) (key v : string) (l : list row)
      (acc : DataFrame) :
  mem key (columns df) = true ->
  exists acc',
    foldM (fun acc r =>
             c <- cell df key r ;;
             if value_eqb (VStr v) c then Ok (append acc r) else Ok acc)
          l acc = Ok acc'
    /\ rows acc' = rows acc ++ filter (matches key v) l.
Proof.
  intros Hkey. revert acc. induction l as [|r l IH]; intros acc.
  - exists acc. simpl. now rewrite app_nil_r.
  - cbn [foldM filter]. rewrite cell_in by assumption. cbn [bind].
    change (value_eqb (VStr v) (row_get r key)) with (matches key v r).
    destruct (matches key v r); cbn [bind].
    + destruct (IH (append acc r)) as [acc' [Hrun Hrows]].
      exists acc'. split; [assumption|].
      rewrite Hrows. cbn [append rows]. now rewrite <- app_assoc.
    + apply IH.
Qed.

Lemma existsb_over_map {A B : Type} (f : B -> bool) (g : A -> B)
      (l : list A) :
  existsb f (map g l) = existsb (fun x => f (g x)) l.
Proof. induction l as [|x l IH]; simpl; [reflexivity | now rewrite IH]. Qed.

Lemma filter_value_spec (df : DataFrame) (key v : string) (acc : DataFrame) :
  mem key (columns df) = true ->
  exists acc',
    filter_value df key acc v
    = ((if found df key v then [] else [ValueNotFound v key]), Ok acc')
    /\ rows acc' = rows acc ++ filter (matches key v) (rows df).
Proof.
  intros Hkey. unfold filter_value.
  rewrite column_in by assumption. cbn [io_lift io_bind].
  rewrite existsb_over_map.
  change (existsb (fun r => value_eqb (VStr v) (row_get r key)) (rows df))
    with (found df key v).
  destruct (found df key v) eqn:Hf;
    cbn [negb io_bind io_print io_ret io_lift app].
  - destruct (filter_scan df key v (rows df) acc Hkey) as [acc' [-> Hrows]].
    now exists acc'.
  - exists acc. split; [reflexivity|].
    now rewrite found_filter, app_nil_r.
Qed.

Lemma io_fold_filter_value (df : DataFrame) (key : string)
      (values : list string) (acc : DataFrame) :
  mem key (columns df) = true ->
  exists out,
    io_fold (filter_value df key) values acc
    = (map (fun v => ValueNotFound v key)
           (filter (fun v => negb (found df key v)) values), Ok out)
    /\ rows out
       = rows acc
         ++ flat_map (fun v => filter (matches key v) (rows df)) values.
Proof.
  intros Hkey. revert acc. induction values as [|v values IH]; intros acc.
  - exists acc. simpl. now rewrite app_nil_r.
  - cbn [io_fold flat_map filter].
    destruct (filter_value_spec df key v acc Hkey) as [acc1 [-> Hrows1]].
    destruct (IH acc1) as [out [Hrun Hrows]].
    exists out. unfold io_bind. rewrite Hrun. split.
    + destruct (found df key v); reflexivity.
    + rewrite Hrows, Hrows1. now rewrite <- app_assoc.
Qed.

Lemma filter_disjoint_app {A : Type} (p q : A -> bool) (l : list A) :
  (forall x, In x l -> p x = true -> q x = false) ->
  Permutation (filter p l ++ filter q l) (filter (fun x => p x || q x) l).
Proof.
  induction l as [|x l IH]; intros Hdis; simpl; [constructor|].
  assert (IH' := IH (fun y Hy => Hdis y (or_intror Hy))).
  destruct (p x) eqn:Hp; simpl.
  - rewrite (Hdis x (or_introl eq_refl) Hp). now constructor.
  - destruct (q x).
    + symmetry. apply Permutation_cons_app. now symmetry.
    + assumption.
Qed.

Lemma flat_map_filter_perm (key : string) (values : list string)
      (l : list row) :
  NoDup values ->
  Permutation (flat_map (fun v => filter (matches key v) l) values)
              (filter (fun r => existsb (fun v => matches key v r) values) l).
Proof.
  induction values as [|v values IH]; intros Hnd; simpl.
  - induction l; simpl; auto.
  - inversion Hnd as [|? ? Hnin Hnd']; subst.
    rewrite (IH Hnd'). apply filter_disjoint_app.
    intros r _ Hm. apply not_true_is_false. intros Hex.
    apply existsb_exists in Hex. destruct Hex as [w [Hw Hmw]].
    unfold matches in *. apply value_eqb_str in Hm, Hmw.
    rewrite Hm in Hmw. injection Hmw as ->. contradiction.
Qed.

(** C9, as amended: on a table that passes the header check, with an
    allowed key that is a column, [df_filtered] never raises.  It scans the
    table once for each element of [values], in the order of the list, and
    returns the matching rows of each scan in table order; a value listed
    twice yields its rows twice.  So a row is returned exactly when it is a
    row of the table whose key cell is one of the values, and exactly once
    when the values are distinct.  One notice is printed for each listed
    value that the column lacks, and adding such a value anywhere in the
    list leaves the returned rows as they are. *)
Theorem df_filtered_scans_per_value (df : DataFrame) (key : string)
        (values : list string) (k : kind) :
  classify (columns df) = Ok k ->
  mem key (filter_options k) = true ->
  mem key (columns df) = true ->
  exists out,
    df_filtered df key values
    = (map (fun v => ValueNotFound v key)
           (filter (fun v => negb (found df key v)) values), Ok out)
    /\ rows out = flat_map (fun v => filter (matches key v) (rows df)) values
    /\ (forall r, In r (rows out)
                  <-> In r (rows df)
                      /\ exists v, In v values /\ row_get r key = VStr v)
    /\ (NoDup values ->
        Permutation (rows out)
          (filter (fun r => existsb (fun v => matches key v r) values)
                  (rows df)))
    /\ (forall v values1 values2,
          values = values1 ++ values2 ->
          found df key v = false ->
          exists out',
            snd (df_filtered df key (values1 ++ v :: values2)) = Ok out'
            /\ rows out' = rows out
            /\ In (ValueNotFound v key)
                  (fst (df_filtered df key (values1 ++ v :: values2)))).
Proof.
  intros Hk Hopt Hkey.
  assert (Hrun : forall vs, exists out,
             df_filtered df key vs
             = (map (fun v => ValueNotFound v key)
                    (filter (fun v => negb (found df key v)) vs), Ok out)
             /\ rows out
                = flat_map (fun v => filter (matches key v) (rows df)) vs).
  { intros vs. unfold df_filtered. rewrite Hk. cbn [io_lift io_bind].
    rewrite Hopt, Hkey. cbn [negb].
    destruct (io_fold_filter_value df key vs
                {| columns := columns df; rows := [] |} Hkey)
      as [out [-> Hrows]].
    exists out. split; [reflexivity | exact Hrows]. }
  destruct (Hrun values) as [out [Hout Hrows]].
  exists out. split; [exact Hout|]. split; [exact Hrows|]. split; [|split].
  - intros r. rewrite Hrows, in_flat_map. split.
    + intros [v [Hv Hr]]. apply filter_In in Hr. destruct Hr as [Hr Hm].
      split; [assumption|]. exists v. split; [assumption|].
      now apply value_eqb_str.
    + intros [Hr [v [Hv Hcell]]]. exists v. split; [assumption|].
      apply filter_In. split; [assumption|]. now apply value_eqb_str.
  - intros Hnd. rewrite Hrows. now apply flat_map_filter_perm.
  - intros v values1 values2 Hsplit Habs.
    destruct (Hrun (values1 ++ v :: values2)) as [out' [Hout' Hrows']].
    exists out'. rewrite Hout'. cbn [fst snd]. split; [reflexivity|]. split.
    + rewrite Hrows', Hrows, Hsplit, !flat_map_app. cbn [flat_map].
      now rewrite (found_filter df key v Habs).
    + apply (in_map (fun w => ValueNotFound w key)). apply filter_In. split.
      * apply in_or_app. right. now left.
      * now rewrite Habs.
Qed.

(** ** Scalar aggregation: C10, C3 and C2 *)

Lemma scalars_has_required (cols : list string) (c : string) :
  classify cols = Ok Scalars ->
  In c required_header_scalars -> mem c cols = true.
Proof.
  rewrite classify_eq. cbv zeta.
  destruct (list_eqb _ required_header_scalars) eqn:Hs.
  - intros _ Hc. apply list_eqb_eq in Hs. rewrite <- Hs in Hc.
    apply filter_In in Hc. now apply mem_true_iff.
  - destruct (list_eqb _ required_header_timeseries); discriminate.
Qed.

Lemma timeseries_has_required (cols : list string) (c : string) :
  classify cols = Ok TimeSeries ->
  In c required_header_timeseries -> mem c cols = true.
Proof.
  rewrite classify_eq. cbv zeta.
  destruct (list_eqb _ required_header_scalars) eqn:Hs; [discriminate|].
  destruct (list_eqb _ required_header_timeseries) eqn:Ht; [|discriminate].
  intros _ Hc. apply list_eqb_eq in Ht. rewrite <- Ht in Hc.
  apply filter_In in Hc. now apply mem_true_iff.
Qed.

Lemma new_scalar_row_type (key : string) (scenario key_item : value)
      (dict_key : string) (dict_item : num) (r : row) :
  new_scalar_row key scenario key_item dict_key dict_item = Ok r ->
  row_get r "type" = VStr "All".
Proof.
  unfold new_scalar_row.
  destruct (String.eqb key "region");
    [|destruct (String.eqb key "carrier");
      [|destruct (String.eqb key "tech")]];
    cbn [bind]; intros Hr; try discriminate;
    injection Hr as <-; reflexivity.
Qed.

Lemma new_scalar_row_ok (key : string) (scenario key_item : value)
      (dict_key : string) (dict_item : num) :
  mem key (agg_options Scalars) = true ->
  exists r, new_scalar_row key scenario key_item dict_key dict_item = Ok r.
Proof.
  intros Hkey. apply mem_true_iff in Hkey. unfold new_scalar_row.
  destruct Hkey as [<-|[<-|[<-|[]]]]; cbn; eexists; reflexivity.
Qed.

(** C10: every row that the scalar aggregation emits has ["All"] in its
    [type] column, whatever the rows of the table hold there. *)
Theorem scalar_aggregation_type_All (df : DataFrame) (key : string)
        (out : DataFrame) :
  classify (columns df) = Ok Scalars ->
  df_agg df key = Ok out ->
  forall r, In r (rows out) -> row_get r "type" = VStr "All".
Proof.
  intros Hk Hagg.
  set (P := fun o : DataFrame =>
              forall r, In r (rows o) -> row_get r "type" = VStr "All").
  change (P out).
  unfold df_agg in Hagg. rewrite Hk in Hagg. cbn [bind] in Hagg.
  destruct (negb (mem key (agg_options Scalars))); [discriminate|].
  destruct (negb (mem key (columns df))); [discriminate|].
  destruct (column df key) as [keys|e]; [|discriminate].
  cbn [bind] in Hagg. unfold agg_scalars in Hagg.
  destruct (column df "scenario") as [scenarios|e]; [|discriminate].
  cbn [bind] in Hagg.
  revert Hagg. apply foldM_invariant; [|intros r []].
  intros o1 scenario o1' _ Ho1. apply foldM_invariant; [|exact Ho1].
  intros o2 key_item o2' _ Ho2.
  destruct (agg_scalar_group df key scenario key_item) as [d|e];
    [|discriminate].
  cbn [bind]. apply foldM_invariant; [|exact Ho2].
  intros o3 [dict_key dict_item] o3' _ Ho3 Hrow.
  destruct (new_scalar_row key scenario key_item dict_key dict_item)
    as [new_row|e] eqn:Hnew; [|discriminate].
  injection Hrow as <-. intros r Hr. cbn [append rows] in Hr.
  apply in_app_or in Hr. destruct Hr as [Hr|[<-|[]]].
  - now apply Ho3.
  - eapply new_scalar_row_type; eassumption.
Qed.

(** *** The result dictionary *)

Lemma dict_has_set (d : results_dict) (k : string) (x : num) :
  dict_has (dict_set d k x) k = true.
Proof.
  unfold dict_has. induction d as [|[k' y] d IH]; simpl.
  - now rewrite String.eqb_refl.
  - destruct (String.eqb k' k) eqn:Hk; simpl.
    + apply String.eqb_eq in Hk. subst. now rewrite String.eqb_refl.
    + rewrite IH. apply orb_true_r.
Qed.

Lemma dict_get_has (d : results_dict) (k : string) :
  dict_has d k = true -> exists x, dict_get d k = Ok x.
Proof.
  unfold dict_has. induction d as [|[k' y] d IH]; simpl; [discriminate|].
  rewrite String.eqb_sym.
  destruct (String.eqb k' k); simpl; [now exists y | exact IH].
Qed.

Lemma dict_add_ok (df : DataFrame) (d : results_dict) (k : string) (r : row) :
  mem "var_value" (columns df) = true ->
  is_num (row_get r "var_value") = true ->
  dict_has d k = true ->
  exists d', dict_add df d k r = Ok d'.
Proof.
  intros Hcol Hnum Hhas. unfold dict_add.
  destruct (dict_get_has d k Hhas) as [x ->]. cbn [bind].
  rewrite cell_in by assumption. cbn [bind].
  destruct (row_get r "var_value"); try discriminate. cbn.
  eexists; reflexivity.
Qed.

Lemma dict_sub_ok (df : DataFrame) (d : results_dict) (k : string) (r : row) :
  mem "var_value" (columns df) = true ->
  is_num (row_get r "var_value") = true ->
  dict_has d k = true ->
  exists d', dict_sub df d k r = Ok d'.
Proof.
  intros Hcol Hnum Hhas. unfold dict_sub.
  destruct (dict_get_has d k Hhas) as [x ->]. cbn [bind].
  rewrite cell_in by assumption. cbn [bind].
  destruct (row_get r "var_value"); try discriminate. cbn.
  eexists; reflexivity.
Qed.

Lemma dict_ensure_has (d : results_dict) (k : string) :
  dict_has (if negb (dict_has d k) then dict_set d k nzero else d) k = true.
Proof.
  destruct (dict_has d k) eqn:Hd; cbn [negb];
    [assumption | apply dict_has_set].
Qed.

Lemma in_out_ok (df : DataFrame) (d : results_dict) (bucket var_name : string)
      (r : row) :
  mem "var_value" (columns df) = true ->
  is_num (row_get r "var_value") = true ->
  exists d', in_out df d bucket var_name r = Ok d'.
Proof.
  intros Hcol Hnum. unfold in_out.
  destruct (str_in "in" var_name);
    [|destruct (str_in "out" var_name)].
  - apply dict_add_ok; auto using dict_ensure_has.
  - apply dict_sub_ok; auto using dict_ensure_has.
  - eexists; reflexivity.
Qed.

(** *** C3: a name of no category *)

Lemma typed_scalar_row_cells (r : row) :
  typed_scalar_row r = true ->
  is_str (row_get r "scenario") = true /\
  is_str (row_get r "var_name") = true /\
  is_str (row_get r "carrier") = true /\
  is_str (row_get r "region") = true /\
  is_str (row_get r "tech") = true /\
  is_num (row_get r "var_value") = true.
Proof.
  unfold typed_scalar_row. rewrite !andb_true_iff. tauto.
Qed.

Lemma is_str_inv (v : value) : is_str v = true -> exists s, v = VStr s.
Proof. destruct v; try discriminate. now eexists. Qed.

Lemma typed_key_cell (r : row) (key : string) :
  typed_scalar_row r = true ->
  mem key (agg_options Scalars) = true ->
  exists s, row_get r key = VStr s.
Proof.
  intros Ht Hkey. apply typed_scalar_row_cells in Ht.
  apply mem_true_iff in Hkey. apply is_str_inv.
  destruct Hkey as [<-|[<-|[<-|[]]]]; tauto.
Qed.

(** What one row does to the dictionary of its group: a name of no category
    raises [UnknownVariable] with that name, a flow name with fewer than
    three segments raises [IndexError], and every other row is taken in. *)
Lemma agg_scalar_row_cases (df : DataFrame) (key : string) (d : results_dict)
      (r : row) :
  classify (columns df) = Ok Scalars ->
  typed_scalar_row r = true ->
  match agg_scalar_row df key d r with
  | Ok _ => known (var_name_of r) = true
            /\ flow_has_carrier (var_name_of r) = true
  | Err e =>
      (known (var_name_of r) = false /\ e = UnknownVariable (var_name_of r))
      \/ (flow_has_carrier (var_name_of r) = false /\ e = PyIndexError)
  end.
Proof.
  intros Hk Ht.
  assert (Hvalue : mem "var_value" (columns df) = true)
    by (apply (scalars_has_required _ Hk); simpl; tauto).
  assert (Hname : mem "var_name" (columns df) = true)
    by (apply (scalars_has_required _ Hk); simpl; tauto).
  assert (Hcarrier : mem "carrier" (columns df) = true)
    by (apply (scalars_has_required _ Hk); simpl; tauto).
  destruct (typed_scalar_row_cells r Ht)
    as [_ [Hvn [Hca [_ [_ Hnum]]]]].
  unfold agg_scalar_row, var_name_of, known, flow_has_carrier.
  rewrite cell_in by assumption. cbn [bind].
  destruct (is_str_inv _ Hvn) as [v ->]. cbn [as_str bind].
  destruct (str_in "capacity" v) eqn:Hcap; cbn [orb].
  { destruct (dict_add_ok df _ "capacity" r Hvalue Hnum
                (dict_ensure_has d "capacity")) as [d' ->]. auto. }
  destruct (str_in "flow" v) eqn:Hflow; cbn [orb negb].
  { destruct (nth_error (split "_" v) 2) as [ec|] eqn:Hnth; cbn [bind].
    - assert (Hlen : (3 <=? length (split "_" v))%nat = true).
      { apply Nat.leb_le. apply nth_error_Some. congruence. }
      rewrite Hlen.
      destruct (negb (str_in "carrier" key) && negb (str_in "tech" key)).
      + destruct (in_out_ok df d ("flow_" ++ ec)%string v r Hvalue Hnum)
          as [d' ->]. auto.
      + rewrite cell_in by assumption. cbn [bind].
        destruct (is_str_inv _ Hca) as [ca ->]. cbn [as_str bind].
        destruct (in_out_ok df d ("flow_" ++ ec ++ "_" ++ ca)%string v r
                            Hvalue Hnum) as [d' ->]. auto.
    - right. split; [|reflexivity].
      apply Nat.leb_gt. apply nth_error_None in Hnth. lia. }
  destruct (str_in "costs" v) eqn:Hcosts; cbn [orb].
  { destruct (in_out_ok df d "costs" v r Hvalue Hnum) as [d' ->]. auto. }
  destruct (str_in "invest" v) eqn:Hinvest; cbn [orb].
  { destruct (in_out_ok df d "invest" v r Hvalue Hnum) as [d' ->]. auto. }
  destruct (str_in "losses" v) eqn:Hlosses; cbn [orb].
  { destruct (dict_add_ok df _ "losses" r Hvalue Hnum
                (dict_ensure_has d "losses")) as [d' ->]. auto. }
  left. auto.
Qed.

Lemma fromkeys_loop_in (x : value) (l seen : list value) :
  (forall y, value_eqb x y = true -> y = x) ->
  value_eqb x x = true ->
  In x seen \/ In x l ->
  In x (fold_left (fun seen x => if existsb (value_eqb x) seen then seen
                                 else seen ++ [x]) l seen).
Proof.
  intros Heq Hrefl. revert seen.
  induction l as [|y l IH]; intros seen Hin; simpl.
  - destruct Hin as [Hin|[]]. exact Hin.
  - apply IH. destruct Hin as [Hin|[->|Hin]].
    + left. destruct (existsb (value_eqb y) seen); [assumption|].
      apply in_or_app. now left.
    + left. destruct (existsb (value_eqb x) seen) eqn:Hex.
      * apply existsb_exists in Hex. destruct Hex as [z [Hz Hxz]].
        apply Heq in Hxz. now subst.
      * apply in_or_app. right. now left.
    + now right.
Qed.

(** A text cell of a column is one of the keys that [dict.fromkeys] keeps. *)
Lemma fromkeys_in_str (s : string) (l : list value) :
  In (VStr s) l -> In (VStr s) (fromkeys l).
Proof.
  intros Hin. unfold fromkeys. apply fromkeys_loop_in.
  - intros y Hy. now apply value_eqb_str in Hy.
  - now apply value_eqb_str.
  - now right.
Qed.

Lemma agg_scalar_group_loop (df : DataFrame) (key : string)
      (scenario key_item : value) (l : list row) (d : results_dict) :
  classify (columns df) = Ok Scalars ->
  mem key (columns df) = true ->
  (forall r, In r l -> In r (rows df) /\ typed_scalar_row r = true) ->
  match foldM (fun d r =>
                 s <- cell df "scenario" r ;;
                 k <- cell df key r ;;
                 if value_eqb s scenario && value_eqb k key_item
                 then agg_scalar_row df key d r
                 else Ok d) l d with
  | Ok _ => forall r, In r l ->
                      value_eqb (row_get r "scenario") scenario
                      && value_eqb (row_get r key) key_item = true ->
                      known (var_name_of r) = true
  | Err e => agg_failure df e
  end.
Proof.
  intros Hk Hkey.
  assert (Hscen : mem "scenario" (columns df) = true)
    by (apply (scalars_has_required _ Hk); simpl; tauto).
  revert d. induction l as [|r l IH]; intros d Hl; cbn [foldM].
  - intros r [].
  - destruct (Hl r (or_introl eq_refl)) as [Hin Ht].
    assert (Hl' : forall r0, In r0 l ->
                             In r0 (rows df) /\ typed_scalar_row r0 = true)
      by (intros r0 Hr0; apply Hl; now right).
    rewrite !cell_in by assumption. cbn [bind].
    destruct (value_eqb (row_get r "scenario") scenario
              && value_eqb (row_get r key) key_item) eqn:Hm.
    + assert (Hrow := agg_scalar_row_cases df key d r Hk Ht).
      destruct (agg_scalar_row df key d r) as [d'|e]; cbn [bind].
      * specialize (IH d' Hl'). destruct (foldM _ l d'); [|exact IH].
        intros r0 [<-|Hr0] Hm0; [tauto | now apply IH].
      * destruct Hrow as [[Hun ->]|[Hfl ->]]; [left|right];
          exists r; auto.
    + cbn [bind]. specialize (IH d Hl'). destruct (foldM _ l d); [|exact IH].
      intros r0 [<-|Hr0] Hm0; [congruence | now apply IH].
Qed.

Lemma append_rows_ok (key : string) (scenario key_item : value)
      (d : results_dict) (out : DataFrame) :
  mem key (agg_options Scalars) = true ->
  exists out',
    foldM (fun out (entry : string * num) =>
             let (dict_key, dict_item) := entry in
             new_row <- new_scalar_row key scenario key_item
                                       dict_key dict_item ;;
             Ok (append out new_row))
          d out = Ok out'.
Proof.
  intros Hkey. revert out.
  induction d as [|[dict_key dict_item] d IH]; intros out; cbn [foldM].
  - now exists out.
  - destruct (new_scalar_row_ok key scenario key_item dict_key dict_item
                                Hkey) as [new_row ->].
    cbn [bind]. apply IH.
Qed.

(** C3, as amended: on a scalar table with typed cells that has a row whose
    [var_name] contains none of the five category words, [df_agg] with an
    allowed key never returns a table.  It raises [UnknownVariable] with the
    [var_name] of such a row; only when the table also has a flow row whose
    [var_name] has fewer than three segments can the exception be the
    [IndexError] of that row instead. *)
Theorem unknown_var_name_fails (df : DataFrame) (key : string) :
  classify (columns df) = Ok Scalars ->
  mem key (agg_options Scalars) = true ->
  forallb typed_scalar_row (rows df) = true ->
  existsb (fun r => negb (known (var_name_of r))) (rows df) = true ->
  exists e,
    df_agg df key = Err e
    /\ agg_failure df e
    /\ (forallb (fun r => flow_has_carrier (var_name_of r)) (rows df) = true ->
        exists r, In r (rows df) /\ known (var_name_of r) = false
                  /\ e = UnknownVariable (var_name_of r)).
Proof.
  intros Hk Hopt Htyped Hbad.
  assert (Hkey : mem key (columns df) = true).
  { apply (scalars_has_required _ Hk). apply mem_true_iff in Hopt.
    simpl in *. tauto. }
  assert (Hscen : mem "scenario" (columns df) = true)
    by (apply (scalars_has_required _ Hk); simpl; tauto).
  rewrite forallb_forall in Htyped.
  apply existsb_exists in Hbad. destruct Hbad as [r0 [Hr0 Hun0]].
  apply negb_true_iff in Hun0.
  destruct (typed_scalar_row_cells r0 (Htyped r0 Hr0)) as [Hs0 _].
  destruct (is_str_inv _ Hs0) as [s0 Hs0'].
  destruct (typed_key_cell r0 key (Htyped r0 Hr0) Hopt) as [k0 Hk0].
  assert (Hgroup : forall scenario key_item,
             match agg_scalar_group df key scenario key_item with
             | Ok _ => forall r, In r (rows df) ->
                         value_eqb (row_get r "scenario") scenario
                         && value_eqb (row_get r key) key_item = true ->
                         known (var_name_of r) = true
             | Err e => agg_failure df e
             end).
  { intros scenario key_item. apply agg_scalar_group_loop; auto. }
  assert (Hrun : exists e, df_agg df key = Err e /\ agg_failure df e).
  { unfold df_agg. rewrite Hk. cbn [bind]. rewrite Hopt, Hkey. cbn [negb].
    rewrite (column_in df key Hkey). cbn [bind]. unfold agg_scalars.
    rewrite (column_in df "scenario" Hscen). cbn [bind].
    apply foldM_raises.
    - intros out scenario e _ Hrun. revert Hrun.
      generalize out. clear out.
      induction (fromkeys (map (fun r => row_get r key) (rows df)))
        as [|key_item l IH]; intros out; cbn [foldM]; [discriminate|].
      specialize (Hgroup scenario key_item).
      destruct (agg_scalar_group df key scenario key_item) as [d|e'];
        cbn [bind].
      + destruct (append_rows_ok key scenario key_item d out Hopt)
          as [out' ->]. cbn [bind]. apply IH.
      + intros Heq. injection Heq as <-. exact Hgroup.
    - exists (VStr s0). split.
      + apply fromkeys_in_str. rewrite <- Hs0'.
        now apply (in_map (fun r => row_get r "scenario")).
      + intros out.
        assert (Hkeys : exists e,
                   foldM (fun out key_item =>
                      d <- agg_scalar_group df key (VStr s0) key_item ;;
                      foldM (fun out (entry : string * num) =>
                               let (dict_key, dict_item) := entry in
                               new_row <- new_scalar_row key (VStr s0) key_item
                                                         dict_key dict_item ;;
                               Ok (append out new_row))
                            d out)
                     (fromkeys (map (fun r => row_get r key) (rows df))) out
                   = Err e /\ True).
        { apply foldM_raises; [trivial|].
          exists (VStr k0). split.
          - apply fromkeys_in_str. rewrite <- Hk0.
            now apply (in_map (fun r => row_get r key)).
          - intros out1. specialize (Hgroup (VStr s0) (VStr k0)).
            destruct (agg_scalar_group df key (VStr s0) (VStr k0)) as [d|e].
            + specialize (Hgroup r0 Hr0). rewrite Hs0', Hk0 in Hgroup.
              cbn [value_eqb] in Hgroup. rewrite !String.eqb_refl in Hgroup.
              specialize (Hgroup eq_refl). congruence.
            + now exists e. }
        destruct Hkeys as [e [He _]]. now exists e. }
  destruct Hrun as [e [He Hfail]]. exists e. split; [exact He|].
  split; [exact Hfail|]. intros Hflow. rewrite forallb_forall in Hflow.
  destruct Hfail as [Hfail|[r [Hr [Hfl _]]]]; [exact Hfail|].
  rewrite (Hflow r Hr) in Hfl. discriminate.
Qed.

(** *** C2: the sign of a value *)

(** ["in"] is a part of ["invest"]: a name that contains ["invest"] contains
    ["in"]. *)
Lemma invest_contains_in (var_name : string) :
  str_in "invest" var_name = true -> str_in "in" var_name = true.
Proof.
  induction var_name as [|c v IH]; cbn [str_in].
  - discriminate.
  - destruct (String.prefix "invest" (String c v)) eqn:Hp.
    + intros _. apply prefix_correct in Hp.
      destruct v as [|c' v]; [discriminate|].
      cbn in Hp. injection Hp as -> -> _.
      assert (Hin : String.prefix "in" (String "i" (String "n" v)) = true)
        by (destruct v; reflexivity).
      now rewrite Hin.
    + intros Hin. rewrite (IH Hin).
      now destruct (String.prefix "in" (String c v)).
Qed.

(** The [elif "out"] branch of an invest row is never taken: the value of
    every invest row is added. *)
Lemma invest_row_is_added (df : DataFrame) (key : string) (d : results_dict)
      (r : row) (var_name : string) :
  mem "var_name" (columns df) = true ->
  row_get r "var_name" = VStr var_name ->
  str_in "capacity" var_name = false ->
  str_in "flow" var_name = false ->
  str_in "costs" var_name = false ->
  str_in "invest" var_name = true ->
  agg_scalar_row df key d r
  = dict_add df (if negb (dict_has d "invest")
                 then dict_set d "invest" nzero else d) "invest" r.
Proof.
  intros Hcol Hname Hcap Hflow Hcosts Hinvest. unfold agg_scalar_row.
  rewrite cell_in by assumption. rewrite Hname. cbn [bind as_str].
  rewrite Hcap, Hflow, Hcosts, Hinvest. unfold in_out.
  now rewrite (invest_contains_in _ Hinvest).
Qed.

(** ** C7: time series aggregation *)

Lemma fromkeys_loop_incl (x : value) (l seen : list value) :
  In x (fold_left (fun seen x => if existsb (value_eqb x) seen then seen
                                 else seen ++ [x]) l seen) ->
  In x seen \/ In x l.
Proof.
  revert seen. induction l as [|y l IH]; intros seen; simpl; [tauto|].
  intros Hin. apply IH in Hin. destruct Hin as [Hin|Hin]; [|tauto].
  destruct (existsb (value_eqb y) seen); [tauto|].
  apply in_app_or in Hin. destruct Hin as [Hin|[<-|[]]]; tauto.
Qed.

Lemma fromkeys_incl (x : value) (l : list value) :
  In x (fromkeys l) -> In x l.
Proof.
  intros Hin. apply fromkeys_loop_incl in Hin. now destruct Hin.
Qed.

Lemma fromkeys_loop_NoDup (l seen : list value) :
  (forall x, In x l -> is_str x = true) ->
  NoDup seen ->
  NoDup (fold_left (fun seen x => if existsb (value_eqb x) seen then seen
                                  else seen ++ [x]) l seen).
Proof.
  revert seen. induction l as [|y l IH]; intros seen Hstr Hnd; simpl.
  - exact Hnd.
  - apply IH; [intros x Hx; apply Hstr; now right|].
    destruct (existsb (value_eqb y) seen) eqn:Hex; [exact Hnd|].
    apply NoDup_app; [exact Hnd | repeat constructor; intros [] |].
    intros x Hx [->|[]].
    destruct (is_str_inv x (Hstr x (or_introl eq_refl))) as [s ->].
    assert (Hex' : existsb (value_eqb (VStr s)) seen = true).
    { apply existsb_exists. exists (VStr s). split; [exact Hx|].
      now apply value_eqb_str. }
    congruence.
Qed.

(** The keys of a text column are pairwise distinct. *)
Lemma fromkeys_NoDup (l : list value) :
  (forall x, In x l -> is_str x = true) -> NoDup (fromkeys l).
Proof.
  intros Hstr. apply fromkeys_loop_NoDup; [exact Hstr | constructor].
Qed.

Lemma add_series_length (a b : list num) :
  length a = length b -> length (add_series a b) = length a.
Proof.
  intros Hlen. unfold add_series.
  rewrite length_map, length_combine. lia.
Qed.

Lemma np_add_same_length (a b : list num) :
  length a = length b -> np_add a b = Ok (add_series a b).
Proof.
  intros Hlen. unfold np_add. rewrite Hlen, Nat.eqb_refl. reflexivity.
Qed.

Lemma typed_series_row_cells (n : nat) (r : row) :
  typed_series_row n r = true ->
  is_str (row_get r "region") = true
  /\ row_get r "series" = VList (series_of r)
  /\ length (series_of r) = n.
Proof.
  unfold typed_series_row, series_of. rewrite andb_true_iff.
  intros [Hs Hl]. split; [exact Hs|].
  destruct (row_get r "series"); try discriminate.
  split; [reflexivity | now apply Nat.eqb_eq].
Qed.

(** The dictionary that the row loop has built when it has seen the rows
    [l], from the dictionary [d]. *)
Lemma agg_series_group_loop (df : DataFrame) (key : string)
      (key_item : value) (n : nat) (s0 : list num) (l : list row)
      (d : option (list num)) :
  mem key (columns df) = true ->
  mem "series" (columns df) = true ->
  cell0 df "series" = Ok (VList s0) ->
  length s0 = n ->
  (forall r, In r l -> typed_series_row n r = true) ->
  length (match d with Some s => s | None => repeat nzero n end) = n ->
  foldM (fun d r =>
           k <- cell df key r ;;
           if value_eqb k key_item then
             acc <- match d with
                    | Some s => Ok s
                    | None =>
                        c0 <- cell0 df "series" ;;
                        s0 <- as_list c0 ;;
                        Ok (repeat nzero (length s0))
                    end ;;
             c <- cell df "series" r ;;
             s <- as_list c ;;
             sum <- np_add acc s ;;
             Ok (Some sum)
           else Ok d)
        l d
  = Ok (if existsb (fun r => value_eqb (row_get r key) key_item) l
        then Some (fold_left add_series
                     (map series_of
                        (filter (fun r => value_eqb (row_get r key) key_item)
                                l))
                     (match d with Some s => s | None => repeat nzero n end))
        else d).
Proof.
  intros Hkey Hser Hfirst Hs0. revert d.
  induction l as [|r l IH]; intros d Hl Hd; cbn [foldM existsb filter].
  - reflexivity.
  - rewrite (cell_in df key r Hkey). cbn [bind].
    destruct (typed_series_row_cells n r (Hl r (or_introl eq_refl)))
      as [_ [Hcell Hlen]].
    assert (Hl' : forall r0, In r0 l -> typed_series_row n r0 = true)
      by (intros r0 Hr0; apply Hl; now right).
    destruct (value_eqb (row_get r key) key_item) eqn:Hm; cbn [orb].
    + assert (Hacc : match d with
                     | Some s => Ok s
                     | None => c0 <- cell0 df "series" ;;
                               s1 <- as_list c0 ;;
                               Ok (repeat nzero (length s1))
                     end
                     = Ok (match d with
                           | Some s => s
                           | None => repeat nzero n
                           end)).
      { destruct d; [reflexivity|]. rewrite Hfirst. cbn. now rewrite Hs0. }
      rewrite Hacc. cbn [bind].
      rewrite (cell_in df "series" r Hser), Hcell. cbn [bind as_list].
      rewrite np_add_same_length by congruence. cbn [bind].
      rewrite IH; [|exact Hl'|cbn; rewrite add_series_length; congruence].
      cbn [map fold_left].
      destruct (existsb _ l) eqn:Hex; [reflexivity|].
      replace (filter (fun r0 => value_eqb (row_get r0 key) key_item) l)
        with (@nil row); [reflexivity|].
      symmetry. clear - Hex. induction l as [|r0 l IH]; [reflexivity|].
      cbn in *. apply orb_false_iff in Hex. destruct Hex as [-> Hex].
      now apply IH.
    + cbn [bind]. now apply IH.
Qed.
Lemma agg_timeseries_loop (df : DataFrame) (key : string) (n : nat)
      (r1 : row) (rest : list row) (kl : list value) (out : DataFrame) :
  rows df = r1 :: rest ->
  mem key (columns df) = true ->
  mem "series" (columns df) = true ->
  mem "timeindex_start" (columns df) = true ->
  mem "timeindex_stop" (columns df) = true ->
  mem "timeindex_resolution" (columns df) = true ->
  (forall r, In r (rows df) -> typed_series_row n r = true) ->
  (forall k, In k kl ->
             existsb (fun r => value_eqb (row_get r key) k) (rows df) = true) ->
  exists out',
    agg_timeseries df key kl out = Ok out'
    /\ rows out' = rows out ++ map (aggregated_series_row df key n) kl.
Proof.
  intros Hrows Hkey Hser Hstart Hstop Hres Htyped. unfold agg_timeseries.
  assert (Hcell0 : forall c, mem c (columns df) = true ->
                             cell0 df c = Ok (first_cell df c)).
  { intros c Hc. unfold cell0, first_cell. rewrite Hrows.
    now apply cell_in. }
  destruct (typed_series_row_cells n r1) as [_ [Hcell1 Hlen1]].
  { apply Htyped. rewrite Hrows. now left. }
  assert (Hfirst : cell0 df "series" = Ok (VList (series_of r1))).
  { rewrite (Hcell0 _ Hser). unfold first_cell. rewrite Hrows.
    now rewrite Hcell1. }
  match goal with |- context [foldM ?f] => set (body := f) end.
  assert (Hbody : forall o k,
             existsb (fun r => value_eqb (row_get r key) k) (rows df) = true ->
             body o k = Ok (append o (aggregated_series_row df key n k))).
  { intros o k Hex. unfold body, agg_series_group.
    rewrite (@agg_series_group_loop df key k n (series_of r1) (rows df)
               None Hkey Hser Hfirst Hlen1 Htyped (repeat_length nzero n)).
    rewrite Hex. cbn [bind]. rewrite !Hcell0 by assumption. reflexivity. }
  clearbody body. revert out.
  induction kl as [|k kl IH]; intros out Hex; cbn [foldM map].
  - exists out. now rewrite app_nil_r.
  - rewrite Hbody by (apply Hex; now left). cbn [bind].
    destruct (IH (append out (aggregated_series_row df key n k)))
      as [out' [Hrun Hout']]; [intros k' Hk'; apply Hex; now right|].
    exists out'. split; [exact Hrun|].
    rewrite Hout'. cbn [append rows]. now rewrite <- app_assoc.
Qed.

(** C7, as amended: on a time series table whose regions are text and whose
    series all have [n] numbers, [df_agg] with the key ["region"] returns
    one row for each distinct region, in the order of first occurrence.  The
    row has that region, [var_name] ["Aggregated by region"], [var_unit]
    ["-"], as [series] the sum, position by position and in table order, of
    the series of the rows of that region, and the three time fields of
    the first row of the table (not of the first row of the group). *)
Theorem timeseries_aggregation_by_region (df : DataFrame) (n : nat) :
  classify (columns df) = Ok TimeSeries ->
  forallb (typed_series_row n) (rows df) = true ->
  exists out,
    df_agg df "region" = Ok out
    /\ rows out
       = map (aggregated_series_row df "region" n)
             (fromkeys (map (fun r => row_get r "region") (rows df)))
    /\ NoDup (map (fun r => row_get r "region") (rows out)).
Proof.
  intros Hk Htyped. rewrite forallb_forall in Htyped.
  assert (Hcol : forall c, In c required_header_timeseries ->
                           mem c (columns df) = true)
    by (intros c; apply (timeseries_has_required _ Hk)).
  assert (Hregion : forall x,
             In x (map (fun r => row_get r "region") (rows df)) ->
             is_str x = true).
  { intros x Hx. apply in_map_iff in Hx. destruct Hx as [r [<- Hr]].
    now apply (typed_series_row_cells n r (Htyped r Hr)). }
  assert (Hrun : exists out,
             df_agg df "region" = Ok out
             /\ rows out
                = map (aggregated_series_row df "region" n)
                    (fromkeys (map (fun r => row_get r "region") (rows df)))).
  { unfold df_agg. rewrite Hk. cbn [bind].
    change (mem "region" (agg_options TimeSeries)) with true.
    rewrite (Hcol "region") by (simpl; tauto). cbn [negb].
    rewrite column_in by (apply Hcol; simpl; tauto). cbn [bind].
    destruct (rows df) as [|r1 rest] eqn:Hrows.
    - eexists. split; reflexivity.
    - rewrite <- Hrows in Htyped, Hregion |- *.
      destruct (@agg_timeseries_loop df "region" n r1 rest
                  (fromkeys (map (fun r => row_get r "region") (rows df)))
                  {| columns := columns df; rows := [] |} Hrows)
        as [out [Hrun Hout]];
        try (apply Hcol; simpl; tauto).
      + intros r Hr. now apply Htyped.
      + intros k Hk'. apply fromkeys_incl in Hk'.
        destruct (is_str_inv k (Hregion k Hk')) as [s ->].
        apply in_map_iff in Hk'. destruct Hk' as [r [Hcell Hr]].
        apply existsb_exists. exists r. split; [exact Hr|].
        rewrite Hcell. now apply value_eqb_str.
      + exists out. split; [exact Hrun | exact Hout]. }
  destruct Hrun as [out [Hrun Hout]]. exists out.
  split; [exact Hrun|]. split; [exact Hout|].
  rewrite Hout, map_map. cbn [aggregated_series_row row_get String.eqb].
  rewrite map_id. now apply fromkeys_NoDup.
Qed.

(** ** C4: the shared time fields *)

Lemma freq_eqb_eq (f g : Freq) : freq_eqb f g = true <-> f = g.
Proof.
  destruct f as [a|a], g as [b|b]; cbn; try (split; congruence).
  - rewrite Z.eqb_eq. split; congruence.
  - rewrite String.eqb_eq. split; congruence.
Qed.

Lemma value_eqb_plain (a b : value) :
  plain a = true -> (value_eqb a b = true <-> a = b).
Proof.
  destruct a; try discriminate; intros _; destruct b; cbn;
    try (split; congruence).
  - rewrite String.eqb_eq. split; congruence.
  - rewrite Z.eqb_eq. split; congruence.
  - rewrite Z.eqb_eq. split; congruence.
  - rewrite freq_eqb_eq. split; congruence.
Qed.

(** The comparison of a column with a plain cell: [None] is equal to
    nothing, and any other plain cell is compared with each cell. *)
Lemma array_eq_plain (col : list value) (v : value) :
  plain v = true ->
  array_eq col v
  = Ok (if is_none v then map (fun _ => false) col
        else map (fun c => value_eqb c v) col).
Proof. destruct v; try discriminate; reflexivity. Qed.

Lemma forallb_id_map {A : Type} (f : A -> bool) (l : list A) :
  forallb (fun b : bool => b) (map f l) = forallb f l.
Proof. induction l as [|x l IH]; cbn; [reflexivity | now rewrite IH]. Qed.

(** What [check_consistency_timeindex] answers for a field of a table that
    has rows: the field's own name in the exception, and nothing of the
    other columns.  A field that is [None] in all rows is reported as
    inconsistent, because [None] is not equal to itself in the comparison
    of line 757. *)
Lemma check_consistency_cases (df : DataFrame) (index name : string) :
  field_name index = Some name ->
  mem index (columns df) = true ->
  rows df <> [] ->
  plain_column df index ->
  (differs df index ->
   check_consistency_timeindex df index
   = Err (InconsistentTimeIndex name index))
  /\ (forall v, constant df index v ->
                check_consistency_timeindex df index
                = if is_none v then Err (InconsistentTimeIndex name index)
                  else Ok v).
Proof.
  intros Hname Hcol Hrows Hplain. unfold check_consistency_timeindex.
  rewrite (column_in df index Hcol). cbn [bind].
  unfold plain_column, differs, constant in *.
  destruct (rows df) as [|r0 rest]; [congruence|]. clear Hrows.
  cbn [map bind]. rewrite Hname.
  set (first := row_get r0 index).
  assert (Hfirst : plain first = true) by (apply Hplain; now left).
  rewrite array_eq_plain by exact Hfirst. cbn [bind].
  destruct (is_none first) eqn:Hnone.
  { cbn [map forallb andb]. split; [reflexivity|].
    intros v Hconst. rewrite <- (Hconst r0 (or_introl eq_refl)).
    fold first. now rewrite Hnone. }
  rewrite forallb_id_map.
  change (first :: map (fun r => row_get r index) rest)
    with (map (fun r => row_get r index) (r0 :: rest)).
  assert (Hr0 : In r0 (r0 :: rest)) by now left.
  generalize dependent (r0 :: rest). intros l Hplain Hr0. split.
  - intros [r1 [r2 [H1 [H2 Hdiff]]]].
    destruct (forallb _ _) eqn:Hall; [|reflexivity].
    rewrite forallb_forall in Hall. exfalso. apply Hdiff.
    assert (Heq : forall r, In r l -> row_get r index = first).
    { intros r Hin. apply (value_eqb_plain _ first (Hplain r Hin)).
      apply Hall. now apply (in_map (fun r => row_get r index)). }
    now rewrite (Heq r1 H1), (Heq r2 H2).
  - intros v Hconst.
    assert (Hall : forallb (fun v0 => value_eqb v0 first)
                           (map (fun r => row_get r index) l) = true).
    { apply forallb_forall. intros x Hx. apply in_map_iff in Hx.
      destruct Hx as [r [<- Hin]].
      apply (value_eqb_plain _ first (Hplain r Hin)).
      unfold first. now rewrite (Hconst r Hin), (Hconst r0 Hr0). }
    rewrite Hall. unfold first. rewrite (Hconst r0 Hr0).
    unfold first in Hnone. rewrite (Hconst r0 Hr0) in Hnone.
    now rewrite Hnone.
Qed.

(** The branch of lines 759-763 is never taken: whatever the table and the
    column, [check_consistency_timeindex] does not raise
    [MissingTimeField]. *)
Lemma missing_time_field_is_dead (df : DataFrame) (index : string)
      (e : error) :
  check_consistency_timeindex df index = Err e ->
  match e with MissingTimeField _ _ => False | _ => True end.
Proof.
  unfold check_consistency_timeindex.
  destruct (column df index) as [col|e0] eqn:Hcol; cbn [bind].
  2:{ unfold column in Hcol. destruct (mem index (columns df));
        [discriminate|].
      injection Hcol as <-. intros He. injection He as <-. exact I. }
  destruct col as [|first col]; cbn [bind];
    [intros He; injection He as <-; exact I|].
  destruct (array_eq (first :: col) first) as [equal|e0] eqn:Heq;
    cbn [bind].
  - destruct (forallb (fun b : bool => b) equal) eqn:Hall.
    + destruct first; cbn [is_none]; try discriminate.
      cbn in Heq. injection Heq as <-. discriminate.
    + destruct (field_name index); intros He; injection He as <-; exact I.
  - intros He. injection He as <-.
    destruct first; cbn in Heq; try discriminate.
    + destruct (Nat.eqb _ _); [discriminate|]. injection Heq as <-. exact I.
    + injection Heq as <-. exact I.
Qed.

(** C4 (the code departs from the specification): a table whose
    [timeindex_start] is missing in all rows does not fail with
    [MissingTimeField].  [unstack_timeseries] checks
    [timeindex_resolution], then [timeindex_start], then [timeindex_stop],
    each on its own column, and stops at the first check that fails; on a
    table that has rows, two distinct values of a field raise
    [InconsistentTimeIndex] with the name of that field, and so does a
    field that is [None] in all rows, because [None] is not equal to
    itself in the comparison of line 757: the branch of lines 759-763,
    which raises [MissingTimeField], is never reached
    ([missing_time_field_is_dead]). *)
Theorem time_fields_checked_in_order (df : DataFrame) :
  rows df <> [] ->
  mem "timeindex_resolution" (columns df) = true ->
  mem "timeindex_start" (columns df) = true ->
  mem "timeindex_stop" (columns df) = true ->
  plain_column df "timeindex_resolution" ->
  plain_column df "timeindex_start" ->
  plain_column df "timeindex_stop" ->
  (differs df "timeindex_resolution" ->
   unstack_timeseries df
   = ([], Err (InconsistentTimeIndex "frequency" "timeindex_resolution")))
  /\ (constant df "timeindex_resolution" VNone ->
      unstack_timeseries df
      = ([], Err (InconsistentTimeIndex "frequency"
                                        "timeindex_resolution")))
  /\ (forall f, constant df "timeindex_resolution" f -> f <> VNone ->
        (differs df "timeindex_start" ->
         unstack_timeseries df
         = ([], Err (InconsistentTimeIndex "start date" "timeindex_start")))
        /\ (constant df "timeindex_start" VNone ->
            unstack_timeseries df
            = ([], Err (InconsistentTimeIndex "start date"
                                              "timeindex_start")))
        /\ (forall a, constant df "timeindex_start" a -> a <> VNone ->
              (differs df "timeindex_stop" ->
               unstack_timeseries df
               = ([], Err (InconsistentTimeIndex "end date"
                                                 "timeindex_stop")))
              /\ (constant df "timeindex_stop" VNone ->
                  unstack_timeseries df
                  = ([], Err (InconsistentTimeIndex "end date"
                                                    "timeindex_stop"))))).
Proof.
  intros Hrows Hcr Hca Hco Hpr Hpa Hpo.
  destruct (@check_consistency_cases df "timeindex_resolution" "frequency"
              eq_refl Hcr Hrows Hpr) as [Hr1 Hr2].
  destruct (@check_consistency_cases df "timeindex_start" "start date"
              eq_refl Hca Hrows Hpa) as [Ha1 Ha2].
  destruct (@check_consistency_cases df "timeindex_stop" "end date"
              eq_refl Hco Hrows Hpo) as [Ho1 Ho2].
  assert (Hnone : forall v : value, v <> VNone -> is_none v = false)
    by (intros [] Hv; try reflexivity; congruence).
  unfold unstack_timeseries. split; [|split].
  - intros Hd. now rewrite (Hr1 Hd).
  - intros Hc. now rewrite (Hr2 _ Hc).
  - intros f Hf Hfn. rewrite (Hr2 _ Hf), (Hnone _ Hfn).
    cbn [io_lift io_bind]. split; [|split].
    + intros Hd. now rewrite (Ha1 Hd).
    + intros Hc. now rewrite (Ha2 _ Hc).
    + intros a Ha Han. rewrite (Ha2 _ Ha), (Hnone _ Han).
      cbn [io_lift io_bind]. split.
      * intros Hd. now rewrite (Ho1 Hd).
      * intros Hc. now rewrite (Ho2 _ Hc).
Qed.

(** ** Regular time indexes *)

Lemma arithmetic_cons (t0 d : Z) (n : nat) :
  arithmetic t0 d (S n) = t0 :: arithmetic (t0 + d) d n.
Proof.
  unfold arithmetic. cbn [seq map]. f_equal; [lia|].
  rewrite <- seq_shift, map_map. apply map_ext. intros i. lia.
Qed.

Lemma arithmetic_length (t0 d : Z) (n : nat) :
  length (arithmetic t0 d n) = n.
Proof. unfold arithmetic. now rewrite length_map, length_seq. Qed.

Lemma arithmetic_steps (t0 d : Z) (n : nat) :
  forallb (fun p => snd p - fst p =? d)
          (combine (arithmetic t0 d n) (tl (arithmetic t0 d n))) = true.
Proof.
  revert t0. induction n as [|n IH]; intros t0; [reflexivity|].
  rewrite arithmetic_cons. cbn [tl].
  destruct n as [|n]; [reflexivity|].
  specialize (IH (t0 + d)). rewrite arithmetic_cons in IH |- *.
  cbn [combine forallb fst snd tl] in IH |- *. rewrite IH.
  replace (t0 + d - t0) with d by lia. now rewrite Z.eqb_refl.
Qed.

(** [pd.infer_freq] finds the step of three or more equally spaced
    timestamps. *)
Lemma infer_freq_arithmetic (t0 d : Z) (n : nat) :
  (3 <= n)%nat -> d <> 0 -> infer_freq (arithmetic t0 d n) = Ok (Some d).
Proof.
  intros Hn Hd. assert (Hsteps := arithmetic_steps t0 d n).
  destruct n as [|[|[|n]]]; try lia.
  rewrite !arithmetic_cons in Hsteps |- *. unfold infer_freq.
  replace (t0 + d - t0) with d by lia.
  destruct (d =? 0) eqn:Hz; [apply Z.eqb_eq in Hz; contradiction|].
  now rewrite Hsteps.
Qed.

Lemma steps_arithmetic (t0 d : Z) (l : list Z) :
  forallb (fun p => snd p - fst p =? d) (combine (t0 :: l) l) = true ->
  t0 :: l = arithmetic t0 d (S (length l)).
Proof.
  revert t0. induction l as [|t1 l IH]; intros t0 Hall.
  - now rewrite arithmetic_cons.
  - cbn [combine forallb fst snd] in Hall.
    apply andb_true_iff in Hall. destruct Hall as [Hd Hall].
    apply Z.eqb_eq in Hd. rewrite arithmetic_cons. f_equal.
    replace (t0 + d) with t1 by lia. now apply IH.
Qed.

(** And it finds a step only there. *)
Lemma infer_freq_Some (values : list Z) (d : Z) :
  infer_freq values = Ok (Some d) ->
  d <> 0 /\ exists t0, values = arithmetic t0 d (length values).
Proof.
  unfold infer_freq. destruct values as [|t0 [|t1 [|t2 l]]]; try discriminate.
  destruct (t1 - t0 =? 0) eqn:Hz; [discriminate|].
  destruct (forallb _ _) eqn:Hall.
  2:{ destruct (strictly_monotonic _); [|discriminate].
      destruct (infer_calendar _); discriminate. }
  intros Heq. injection Heq as <-. apply Z.eqb_neq in Hz.
  split; [exact Hz|]. exists t0.
  now apply (steps_arithmetic t0 (t1 - t0) (t1 :: t2 :: l)).
Qed.

Lemma date_range_arithmetic (a b f : Z) :
  date_range a b f = arithmetic a f (length (date_range a b f)).
Proof.
  unfold date_range, fixed_range.
  destruct (0 <? f); [destruct (a <=? b)|
                      destruct (f <? 0); [destruct (b <=? a)|]];
    try reflexivity;
    now rewrite length_map, length_seq.
Qed.

Lemma date_range_step (a b f : Z) :
  date_range a b f <> [] -> f <> 0.
Proof.
  unfold date_range, fixed_range. intros Hne ->. now apply Hne.
Qed.

Lemma arithmetic_last (t0 d : Z) (n : nat) (x : Z) :
  last (arithmetic t0 d (S n)) x = t0 + Z.of_nat n * d.
Proof.
  revert t0. induction n as [|n IH]; intros t0.
  - cbn. lia.
  - rewrite arithmetic_cons.
    change (last (t0 :: arithmetic (t0 + d) d (S n)) x)
      with (match arithmetic (t0 + d) d (S n) with
            | [] => t0
            | _ :: _ => last (arithmetic (t0 + d) d (S n)) x
            end).
    rewrite IH. rewrite arithmetic_cons. lia.
Qed.

Lemma arithmetic_min (t0 d : Z) (n : nat) :
  0 < d -> list_min (arithmetic t0 d (S n)) = t0.
Proof.
  intros Hd. rewrite arithmetic_cons. cbn [list_min].
  assert (Hfold : forall m t x, x <= t ->
                    fold_left Z.min (arithmetic t d m) x = x).
  { induction m as [|m IH]; intros t x Hx; [reflexivity|].
    rewrite arithmetic_cons. cbn [fold_left].
    rewrite Z.min_l by lia. apply IH. lia. }
  apply Hfold. lia.
Qed.

Lemma arithmetic_max (t0 d : Z) (n : nat) :
  0 < d -> list_max (arithmetic t0 d (S n)) = t0 + Z.of_nat n * d.
Proof.
  intros Hd. rewrite arithmetic_cons. cbn [list_max].
  revert t0. induction n as [|n IH]; intros t0; [cbn; lia|].
  rewrite arithmetic_cons. cbn [fold_left].
  rewrite Z.max_r by lia. rewrite IH. lia.
Qed.

Lemma date_range_of_arithmetic (t0 d : Z) (n : nat) :
  0 < d ->
  date_range t0 (t0 + Z.of_nat n * d) d = arithmetic t0 d (S n).
Proof.
  intros Hd. unfold date_range, fixed_range.
  destruct (0 <? d) eqn:Hpos; [|apply Z.ltb_ge in Hpos; lia].
  destruct (t0 <=? t0 + Z.of_nat n * d) eqn:Hle;
    [|apply Z.leb_gt in Hle; nia].
  replace (t0 + Z.of_nat n * d - t0) with (Z.of_nat n * d) by lia.
  rewrite Z.div_mul by lia. now rewrite Nat2Z.id.
Qed.

Lemma arithmetic_NoDup (t0 d : Z) (n : nat) :
  d <> 0 -> NoDup (arithmetic t0 d n).
Proof.
  intros Hd. unfold arithmetic. apply Finite.Injective_map_NoDup.
  - intros i j Hij. nia.
  - apply seq_NoDup.
Qed.

Lemma position_nth (l : list Z) (i : nat) :
  NoDup l -> (i < length l)%nat -> position (nth i l 0) l = Some i.
Proof.
  revert i. induction l as [|x l IH]; intros i Hnd Hi; [cbn in Hi; lia|].
  inversion Hnd as [|? ? Hnin Hnd']; subst.
  destruct i as [|i]; cbn [nth position].
  - now rewrite Z.eqb_refl.
  - cbn [length] in Hi.
    destruct (x =? nth i l 0) eqn:Hx.
    + apply Z.eqb_eq in Hx. exfalso. apply Hnin. rewrite Hx.
      apply nth_In. lia.
    + rewrite IH by (assumption || lia). reflexivity.
Qed.

(** Putting a column on the index it already has changes nothing. *)
Lemma reindex_same (values : list Z) (vals : list num) :
  NoDup values -> length vals = length values ->
  map (fun t => match position t values with
                | Some i => nth i vals nnan
                | None => nnan
                end) values = vals.
Proof.
  intros Hnd Hlen.
  set (g := fun t : Z => match position t values with
                         | Some i => nth i vals nnan
                         | None => nnan
                         end).
  apply (nth_ext _ _ (g 0) nnan); [now rewrite length_map|].
  intros i Hi. rewrite length_map in Hi.
  rewrite map_nth. unfold g. now rewrite position_nth.
Qed.

(** [asfreq] with the step of the index leaves an ascending regular table
    as it is, and records the step. *)
Lemma asfreq_regular (t0 d : Z) (n : nat) (cols : list (string * list num)) :
  0 < d ->
  (forall col, In col cols -> length (snd col) = S n) ->
  asfreq (arithmetic t0 d (S n)) cols d
  = {| windex := DatetimeIndex (arithmetic t0 d (S n)) (Some d);
       wcolumns := cols |}.
Proof.
  intros Hd Hlen. unfold asfreq.
  rewrite arithmetic_min, arithmetic_max by assumption.
  rewrite date_range_of_arithmetic by assumption. f_equal.
  rewrite <- (map_id cols) at 2. apply map_ext_in.
  intros [name vals] Hcol. cbn [fst snd]. f_equal.
  apply reindex_same.
  - apply arithmetic_NoDup. lia.
  - rewrite arithmetic_length. exact (Hlen _ Hcol).
Qed.

(** ** C5: stack_timeseries *)

(** A loop raises only what one of its iterations raises. *)
Lemma foldM_error {A B : Type} (E : error -> Prop) (f : A -> B -> result A)
      (l : list B) (a : A) (e : error) :
  (forall a x e, f a x = Err e -> E e) -> foldM f l a = Err e -> E e.
Proof.
  intros Hstep. revert a. induction l as [|x l IH]; intros a; cbn [foldM].
  - discriminate.
  - destruct (f a x) as [a'|e'] eqn:Hf; cbn [bind].
    + apply IH.
    + intros Heq. injection Heq as <-. exact (Hstep a x e' Hf).
Qed.

Lemma io_bind_lift_ok {A B : Type} (a : A) (k : A -> io B) :
  io_bind (io_lift (Ok a)) k = k a.
Proof. unfold io_bind, io_lift. now destruct (k a). Qed.

Lemma io_bind_ret {A B : Type} (a : A) (k : A -> io B) :
  io_bind (io_ret a) k = k a.
Proof. unfold io_bind, io_ret. now destruct (k a). Qed.

Lemma filter_name_unique (cols : list (string * list num)) (name : string)
      (vals : list num) :
  NoDup (map fst cols) -> In (name, vals) cols ->
  filter (fun col => String.eqb (fst col) name) cols = [(name, vals)].
Proof.
  induction cols as [|[c v] cols IH]; intros Hnd Hin; [contradiction|].
  cbn [map fst] in Hnd. inversion Hnd as [|? ? Hnin Hnd']; subst.
  cbn [filter fst]. destruct Hin as [Heq|Hin].
  - injection Heq as -> ->. rewrite String.eqb_refl. f_equal.
    clear IH Hnd Hnd'. induction cols as [|[c v] cols IH]; [reflexivity|].
    cbn [filter fst]. cbn [map fst] in Hnin.
    destruct (String.eqb c name) eqn:Hc.
    + apply String.eqb_eq in Hc. subst. exfalso. apply Hnin. now left.
    + apply IH. intros Hin. apply Hnin. now right.
  - destruct (String.eqb c name) eqn:Hc.
    + apply String.eqb_eq in Hc. subst. exfalso. apply Hnin.
      now apply (in_map fst _ (name, vals)).
    + now apply IH.
Qed.

(** With distinct column names, the values read for a name are those of
    its column. *)
Lemma column_values_unique (n : nat) (cols : list (string * list num))
      (name : string) (vals : list num) :
  NoDup (map fst cols) -> In (name, vals) cols ->
  column_values n cols name = Ok (VList vals).
Proof.
  intros Hnd Hin. unfold column_values.
  now rewrite (@filter_name_unique cols name vals Hnd Hin).
Qed.

Lemma stack_loop (n : nat) (all cols : list (string * list num))
      (start stop : Z) (resolution : value) (acc : DataFrame) :
  NoDup (map fst all) -> incl cols all ->
  columns acc = df_stacked_cols ->
  exists out,
    foldM (fun df_stacked column =>
             series <- column_values n all column ;;
             Ok (append df_stacked
                   [("var_name", VStr column);
                    ("timeindex_start", VTime start);
                    ("timeindex_stop", VTime stop);
                    ("timeindex_resolution", resolution);
                    ("series", series)]))
          (map fst cols) acc = Ok out
    /\ columns out = df_stacked_cols
    /\ rows out
       = rows acc
         ++ map (fun col => [("var_name", VStr (fst col));
                             ("timeindex_start", VTime start);
                             ("timeindex_stop", VTime stop);
                             ("timeindex_resolution", resolution);
                             ("series", VList (snd col))]) cols.
Proof.
  intros Hnd. revert acc.
  induction cols as [|[name vals] cols IH]; intros acc Hincl Hcols.
  - exists acc. cbn. now rewrite app_nil_r.
  - cbn [map fst foldM].
    rewrite (@column_values_unique n all name vals Hnd)
      by (apply Hincl; now left).
    cbn [bind].
    destruct (IH (append acc [("var_name", VStr name);
                              ("timeindex_start", VTime start);
                              ("timeindex_stop", VTime stop);
                              ("timeindex_resolution", resolution);
                              ("series", VList vals)]))
      as [out [Hrun [Hc Hr]]].
    + intros col Hcol. apply Hincl. now right.
    + cbn [append columns]. rewrite Hcols. reflexivity.
    + exists out. split; [exact Hrun|]. split; [exact Hc|].
      rewrite Hr. cbn [append rows snd]. now rewrite <- app_assoc.
Qed.

(** The stacked table of a wide table on three or more equally spaced
    timestamps, with distinct column names. *)
Lemma stack_regular (w : Wide) (t0 d : Z) (n : nat) (freq : option Freq) :
  windex w = DatetimeIndex (arithmetic t0 d (S n)) freq ->
  (2 <= n)%nat -> d <> 0 ->
  freq = Some d \/ (freq = None /\ 0 < d) ->
  NoDup (map fst (wcolumns w)) ->
  (forall col, In col (wcolumns w) -> length (snd col) = S n) ->
  stack_timeseries w
  = (match freq with Some _ => [] | None => [FrequencyInferred d] end,
     Ok {| columns := df_stacked_cols;
           rows := map (fun col => stacked_row (fst col) t0
                                     (t0 + Z.of_nat n * d) d (snd col))
                       (wcolumns w) |}).
Proof.
  intros Hidx Hn Hd Hfreq Hnd Hlen. unfold stack_timeseries.
  rewrite Hidx. rewrite infer_freq_arithmetic by (assumption || lia).
  rewrite io_bind_lift_ok. cbv beta iota.
  match goal with |- io_bind _ ?k = _ => set (K := k) end.
  assert (Hrun : K {| windex := DatetimeIndex (arithmetic t0 d (S n)) (Some d);
                      wcolumns := wcolumns w |}
                 = ([], Ok {| columns := df_stacked_cols;
                              rows := map (fun col =>
                                             stacked_row (fst col) t0
                                               (t0 + Z.of_nat n * d) d
                                               (snd col))
                                          (wcolumns w) |})).
  { unfold K. cbn [windex wcolumns].
    rewrite arithmetic_cons at 1. rewrite io_bind_lift_ok. cbv beta zeta.
    rewrite (arithmetic_last t0 d n t0).
    destruct (@stack_loop (length (arithmetic t0 d (S n))) (wcolumns w)
                (wcolumns w) t0 (t0 + Z.of_nat n * d) (VFreq d)
                {| columns := df_stacked_cols; rows := [] |} Hnd
                (incl_refl _) eq_refl) as [out [Hrun [Hc Hr]]].
    rewrite Hrun. unfold io_lift. do 2 f_equal.
    destruct out as [oc orows]. cbn [columns rows app] in Hc, Hr.
    now rewrite Hc, Hr. }
  clearbody K.
  destruct Hfreq as [->|[-> Hpos]].
  - rewrite io_bind_ret. rewrite <- Hrun. f_equal.
    destruct w as [wi wc]. cbn [windex wcolumns] in *. now rewrite Hidx.
  - rewrite asfreq_regular by assumption.
    unfold io_bind at 2, io_print, io_ret. cbn [app].
    unfold io_bind. now rewrite Hrun.
Qed.

(** The loop of [stack_timeseries] raises nothing but the [KeyError] of a
    column. *)
Lemma stack_loop_error (n : nat) (cols : list (string * list num))
      (start stop : Z) (resolution : value) (names : list string)
      (acc : DataFrame) (e : error) :
  foldM (fun df_stacked column =>
           series <- column_values n cols column ;;
           Ok (append df_stacked
                 [("var_name", VStr column);
                  ("timeindex_start", VTime start);
                  ("timeindex_stop", VTime stop);
                  ("timeindex_resolution", resolution);
                  ("series", series)]))
        names acc = Err e ->
  exists k, e = PyKeyError k.
Proof.
  apply (foldM_error (fun e => exists k, e = PyKeyError k)).
  intros a x e0. unfold column_values.
  destruct (filter _ cols) as [|col [|col' sub]]; cbn [bind];
    try discriminate.
  intros Heq. injection Heq as <-. now eexists.
Qed.

(** Once a frequency is inferred, [stack_timeseries] raises nothing of its
    own: what is left is the [IndexError] of an empty index and the
    [KeyError] of a column. *)
Lemma stack_after_inference (w : Wide) (values : list Z)
      (freq : option Freq) (f : Freq) (e : error) :
  windex w = DatetimeIndex values freq ->
  infer_freq values = Ok (Some f) ->
  snd (stack_timeseries w) = Err e ->
  e = PyIndexError \/ exists k, e = PyKeyError k.
Proof.
  intros Hidx Hinf. unfold stack_timeseries. rewrite Hidx, Hinf.
  rewrite io_bind_lift_ok. cbv beta iota.
  destruct freq as [g|].
  - rewrite io_bind_ret. rewrite Hidx.
    destruct values as [|t values]; [discriminate|].
    rewrite io_bind_lift_ok. cbv beta zeta. unfold io_lift. cbn [snd].
    intros Hrun. right. exact (stack_loop_error _ _ _ _ _ _ _ Hrun).
  - unfold io_bind at 2, io_print, io_ret. cbn [app].
    unfold asfreq. cbn [windex wcolumns].
    destruct (date_range _ _ _) as [|t l].
    + unfold io_bind, io_lift. cbn. intros He. injection He as <-.
      now left.
    + unfold io_bind at 1. cbv beta iota. cbn [windex wcolumns].
      rewrite io_bind_lift_ok. cbv beta zeta.
      unfold io_lift. cbn [snd].
      intros Hrun. right. exact (stack_loop_error _ _ _ _ _ _ _ Hrun).
Qed.

Lemma infer_freq_error (values : list Z) (e : error) :
  infer_freq values = Err e -> e = PyValueError /\ (length values < 3)%nat.
Proof.
  unfold infer_freq.
  destruct values as [|t0 [|t1 [|t2 l]]];
    try (intros He; injection He as <-; split; [reflexivity | cbn; lia]).
  destruct (t1 - t0 =? 0); [discriminate|].
  destruct (forallb _ _); [discriminate|].
  destruct (strictly_monotonic _); discriminate.
Qed.

Lemma forallb_impl {A : Type} (p q : A -> bool) (l : list A) :
  (forall x, p x = true -> q x = true) ->
  forallb p l = true -> forallb q l = true.
Proof.
  intros Hpq. rewrite !forallb_forall. auto.
Qed.

(** Equally spaced timestamps with a step are strictly monotonic. *)
Lemma steps_monotonic (values : list Z) (d : Z) :
  d <> 0 ->
  forallb (fun p => snd p - fst p =? d) (combine values (tl values)) = true ->
  strictly_monotonic values = true.
Proof.
  intros Hd Hsteps. unfold strictly_monotonic. apply orb_true_iff.
  destruct (Z_lt_ge_dec 0 d) as [Hpos|Hneg]; [left|right];
    revert Hsteps; apply forallb_impl; intros [a b]; cbn [fst snd];
    rewrite Z.eqb_eq, Z.ltb_lt; lia.
Qed.

(** What [pd.infer_freq] answers for three or more timestamps that are not
    equally spaced. *)
Lemma infer_freq_irregular (values : list Z) :
  (3 <= length values)%nat ->
  (forall t0 d, d <> 0 -> values <> arithmetic t0 d (length values)) ->
  infer_freq values
  = Ok (if strictly_monotonic values
        then option_map Calendar (infer_calendar values)
        else None).
Proof.
  intros Hlen Hirr. unfold infer_freq.
  destruct values as [|t0 [|t1 [|t2 l]]]; cbn [length] in Hlen; try lia.
  destruct (t1 - t0 =? 0) eqn:Hz.
  - apply Z.eqb_eq in Hz.
    replace (strictly_monotonic (t0 :: t1 :: t2 :: l)) with false;
      [reflexivity|].
    symmetry. unfold strictly_monotonic. cbn [tl combine forallb fst snd].
    replace (t0 <? t1) with false by (symmetry; apply Z.ltb_ge; lia).
    replace (t1 <? t0) with false by (symmetry; apply Z.ltb_ge; lia).
    reflexivity.
  - destruct (forallb _ _) eqn:Hall.
    + exfalso. apply Z.eqb_neq in Hz.
      apply (Hirr t0 (t1 - t0) Hz).
      now apply (steps_arithmetic t0 (t1 - t0) (t1 :: t2 :: l)).
    + now destruct (strictly_monotonic _).
Qed.

(** C5, as amended: [stack_timeseries] raises [NotTimeIndexed] exactly for
    a row index that is no [DatetimeIndex]: only the type of the index is
    checked.  For a [DatetimeIndex] of fewer than three timestamps it
    raises [ValueError]; for one of three or more it raises
    [NoFixedFrequency] exactly when [pd.infer_freq] finds no frequency:
    always when the timestamps are not strictly monotonic (out of order,
    or one timestamp twice), and, when they are strictly monotonic and not
    equally spaced, exactly when pandas finds no calendar rule in them
    (month starts have one and are stacked).  On three or more ascending,
    equally spaced timestamps and columns of distinct names it returns one
    row for each column, in column order: [var_name] the column name,
    [timeindex_start] and [timeindex_stop] the first and the last
    timestamp, [timeindex_resolution] the frequency, [series] the values of
    the column. *)
Theorem stack_timeseries_rows (w : Wide) :
  (forall labels, windex w = OtherIndex labels ->
                  stack_timeseries w = ([], Err NotTimeIndexed))
  /\ (forall values freq,
        windex w = DatetimeIndex values freq ->
        snd (stack_timeseries w) <> Err NotTimeIndexed
        /\ ((length values < 3)%nat ->
            stack_timeseries w = ([], Err PyValueError))
        /\ ((3 <= length values)%nat ->
            strictly_monotonic values = false ->
            stack_timeseries w = ([], Err NoFixedFrequency))
        /\ ((3 <= length values)%nat ->
            strictly_monotonic values = true ->
            (forall t0 d, d <> 0 ->
                          values <> arithmetic t0 d (length values)) ->
            (snd (stack_timeseries w) = Err NoFixedFrequency
             <-> infer_calendar values = None)))
  /\ (forall t0 d n freq,
        windex w = DatetimeIndex (arithmetic t0 d (S n)) freq ->
        (2 <= n)%nat -> 0 < d ->
        freq = None \/ freq = Some d ->
        NoDup (map fst (wcolumns w)) ->
        (forall col, In col (wcolumns w) -> length (snd col) = S n) ->
        stack_timeseries w
        = (match freq with Some _ => [] | None => [FrequencyInferred d] end,
           Ok {| columns := df_stacked_cols;
                 rows := map (fun col => stacked_row (fst col) t0
                                           (t0 + Z.of_nat n * d) d (snd col))
                             (wcolumns w) |})).
Proof.
  split; [|split].
  - intros labels Hidx. unfold stack_timeseries. now rewrite Hidx.
  - intros values freq Hidx. split; [|split; [|split]].
    + destruct (infer_freq values) as [[f|]|e] eqn:Hinf.
      * intros Hrun.
        destruct (stack_after_inference _ Hidx Hinf Hrun) as [He|[k He]];
          discriminate.
      * unfold stack_timeseries. rewrite Hidx, Hinf. discriminate.
      * unfold stack_timeseries. rewrite Hidx, Hinf.
        destruct (infer_freq_error _ Hinf) as [-> _]. discriminate.
    + intros Hlen. unfold stack_timeseries. rewrite Hidx.
      destruct values as [|t0 [|t1 [|t2 l]]]; try reflexivity.
      cbn [length] in Hlen. lia.
    + intros Hlen Hmono. unfold stack_timeseries. rewrite Hidx.
      destruct (infer_freq values) as [[f|]|e] eqn:Hinf.
      * exfalso. unfold infer_freq in Hinf.
        destruct values as [|t0 [|t1 [|t2 l]]]; try discriminate.
        destruct (t1 - t0 =? 0) eqn:Hz; [discriminate|].
        destruct (forallb _ _) eqn:Hall.
        -- apply Z.eqb_neq in Hz.
           rewrite (steps_monotonic _ Hz Hall) in Hmono. discriminate.
        -- rewrite Hmono in Hinf. discriminate.
      * reflexivity.
      * destruct (infer_freq_error _ Hinf) as [_ Hshort]. lia.
    + intros Hlen Hmono Hirr.
      assert (Hinf := @infer_freq_irregular values Hlen Hirr).
      rewrite Hmono in Hinf.
      destruct (infer_calendar values) as [label|] eqn:Hcal;
        cbn [option_map] in Hinf.
      * split; [|discriminate]. intros Hrun.
        destruct (stack_after_inference _ Hidx Hinf Hrun) as [He|[k He]];
          discriminate.
      * split; [reflexivity|]. intros _.
        unfold stack_timeseries. now rewrite Hidx, Hinf.
  - intros t0 d n freq Hidx Hn Hd Hfreq Hnd Hlen.
    apply stack_regular; try assumption; [lia|].
    destruct Hfreq as [->| ->]; [right|left]; auto.
Qed.

(** ** C1: unstack, then stack *)

Lemma typed_stacked_row_cells (n : nat) (r : row) :
  typed_stacked_row n r = true ->
  row_get r "var_name" = VStr (var_name_of r)
  /\ row_get r "series" = VList (series_of r)
  /\ length (series_of r) = n.
Proof.
  unfold typed_stacked_row, var_name_of, series_of. rewrite andb_true_iff.
  intros [Hs Hl]. destruct (is_str_inv _ Hs) as [s ->].
  split; [reflexivity|].
  destruct (row_get r "series"); try discriminate.
  split; [reflexivity | now apply Nat.eqb_eq].
Qed.

Lemma mapM_pure {A B : Type} (f : A -> result B) (g : A -> B) (l : list A) :
  (forall x, In x l -> f x = Ok (g x)) -> mapM f l = Ok (map g l).
Proof.
  induction l as [|x l IH]; intros Hf; cbn [mapM map]; [reflexivity|].
  rewrite (Hf x (or_introl eq_refl)). cbn [bind].
  rewrite IH by (intros y Hy; apply Hf; now right). reflexivity.
Qed.

Lemma combine_map_pair {A B C : Type} (f : A -> B) (g : A -> C)
      (l : list A) :
  combine (map f l) (map g l) = map (fun x => (f x, g x)) l.
Proof. induction l as [|x l IH]; cbn; [reflexivity | now rewrite IH]. Qed.

(** The wide table of a stacked table with typed rows, one start, one stop
    and one frequency, and series as long as the index built from them. *)
Lemma unstack_typed (df : DataFrame) (a b f : Z) :
  rows df <> [] ->
  (forall c, In c df_stacked_cols -> mem c (columns df) = true) ->
  constant df "timeindex_start" (VTime a) ->
  constant df "timeindex_stop" (VTime b) ->
  constant df "timeindex_resolution" (VFreq f) ->
  forallb (typed_stacked_row (length (date_range a b f))) (rows df) = true ->
  snd (unstack_timeseries df)
  = Ok {| windex := DatetimeIndex (date_range a b f) (Some f);
          wcolumns := map (fun r => (var_name_of r, series_of r))
                          (rows df) |}.
Proof.
  intros Hrows Hcols Hstart Hstop Hres Htyped.
  rewrite forallb_forall in Htyped.
  assert (Hplain : forall c v, plain v = true -> constant df c v ->
                               plain_column df c).
  { intros c v Hv Hc r Hr. now rewrite (Hc r Hr). }
  assert (Hcheck : forall index name v,
             field_name index = Some name -> In index df_stacked_cols ->
             plain v = true -> is_none v = false -> constant df index v ->
             check_consistency_timeindex df index = Ok v).
  { intros index name v Hname Hin Hpl Hnn Hconst.
    destruct (check_consistency_cases Hname
                (Hcols index Hin) Hrows (Hplain index v Hpl Hconst))
      as [_ Hc].
    rewrite (Hc v Hconst). now rewrite Hnn. }
  unfold unstack_timeseries.
  rewrite (Hcheck "timeindex_resolution" "frequency" (VFreq f));
    try reflexivity; [|simpl; tauto|assumption].
  rewrite io_bind_lift_ok.
  rewrite (Hcheck "timeindex_start" "start date" (VTime a));
    try reflexivity; [|simpl; tauto|assumption].
  rewrite io_bind_lift_ok.
  rewrite (Hcheck "timeindex_stop" "end date" (VTime b));
    try reflexivity; [|simpl; tauto|assumption].
  rewrite io_bind_lift_ok.
  rewrite (mapM_pure _ series_of).
  2:{ intros r Hr. rewrite cell_in by (apply Hcols; simpl; tauto).
      cbn [bind].
      destruct (typed_stacked_row_cells _ r (Htyped r Hr)) as [_ [-> _]].
      reflexivity. }
  rewrite (mapM_pure _ var_name_of).
  2:{ intros r Hr. rewrite cell_in by (apply Hcols; simpl; tauto).
      cbn [bind].
      destruct (typed_stacked_row_cells _ r (Htyped r Hr)) as [-> _].
      reflexivity. }
  cbn [bind as_time as_freq]. unfold wide_of_series.
  assert (Hlen : forallb (fun s => Nat.eqb (length s)
                                           (length (date_range a b f)))
                         (map series_of (rows df)) = true).
  { apply forallb_forall. intros s Hs. apply in_map_iff in Hs.
    destruct Hs as [r [<- Hr]]. apply Nat.eqb_eq.
    now apply (typed_stacked_row_cells _ r (Htyped r Hr)). }
  rewrite Hlen, combine_map_pair.
  destruct (io_fold _ _ _) as [out [[]|e]] eqn:Hprint.
  - reflexivity.
  - exfalso. revert Hprint. cbn [io_fold].
    destruct (mem "source" (columns df)), (mem "comment" (columns df));
      cbn; discriminate.
Qed.

(** C1, as amended: a stacked table that has rows, typed cells and distinct
    variable names, whose rows share one start, one stop and one
    resolution, and whose series all have the length of the time index that
    these three span, three timestamps or more: [unstack_timeseries] and
    then [stack_timeseries] both succeed and give back the series, the
    variable names in their order and the start. *)
Theorem stack_unstack_round_trip (df : DataFrame) (a b f : Z) :
  rows df <> [] ->
  (forall c, In c df_stacked_cols -> mem c (columns df) = true) ->
  constant df "timeindex_start" (VTime a) ->
  constant df "timeindex_stop" (VTime b) ->
  constant df "timeindex_resolution" (VFreq f) ->
  (3 <= length (date_range a b f))%nat ->
  forallb (typed_stacked_row (length (date_range a b f))) (rows df) = true ->
  NoDup (map var_name_of (rows df)) ->
  exists out,
    snd (round_trip df) = Ok out
    /\ map (fun r => row_get r "series") (rows out)
       = map (fun r => row_get r "series") (rows df)
    /\ map (fun r => row_get r "var_name") (rows out)
       = map (fun r => row_get r "var_name") (rows df)
    /\ map (fun r => row_get r "timeindex_start") (rows out)
       = map (fun r => row_get r "timeindex_start") (rows df).
Proof.
  intros Hrows Hcols Hstart Hstop Hres Hlen Htyped Hnd.
  assert (Hun := unstack_typed Hrows Hcols Hstart Hstop Hres Htyped).
  assert (Hf : f <> 0).
  { apply (date_range_step a b). intros Hnil. rewrite Hnil in Hlen.
    cbn in Hlen. lia. }
  rewrite forallb_forall in Htyped.
  set (w := {| windex := DatetimeIndex (date_range a b f) (Some f);
               wcolumns := map (fun r => (var_name_of r, series_of r))
                               (rows df) |}) in *.
  destruct (length (date_range a b f)) as [|n] eqn:Hn; [lia|].
  assert (Hstack := @stack_regular w a f n (Some f)).
  rewrite <- Hn, <- date_range_arithmetic in Hstack.
  specialize (Hstack eq_refl ltac:(lia) Hf (or_introl eq_refl)).
  cbn [w wcolumns] in Hstack. rewrite map_map in Hstack. cbn [fst] in Hstack.
  specialize (Hstack Hnd).
  assert (Hlens : forall col,
             In col (map (fun r => (var_name_of r, series_of r)) (rows df)) ->
             length (snd col) = length (date_range a b f)).
  { intros col Hcol. apply in_map_iff in Hcol. destruct Hcol as [r [<- Hr]].
    cbn [snd]. rewrite Hn.
    now apply (typed_stacked_row_cells _ r (Htyped r Hr)). }
  specialize (Hstack Hlens).
  eexists. split; [|split; [|split]].
  - unfold round_trip, io_bind.
    destruct (unstack_timeseries df) as [out1 [w1|e]];
      cbn [snd] in Hun; [|discriminate].
    injection Hun as ->. fold w. rewrite Hstack. reflexivity.
  - cbn [rows]. rewrite !map_map. apply map_ext_in. intros r Hr.
    cbn [fst snd stacked_row row_get String.eqb Ascii.eqb Bool.eqb].
    now destruct (typed_stacked_row_cells _ r (Htyped r Hr)) as [_ [-> _]].
  - cbn [rows]. rewrite !map_map. apply map_ext_in. intros r Hr.
    cbn [fst snd stacked_row row_get String.eqb Ascii.eqb Bool.eqb].
    now destruct (typed_stacked_row_cells _ r (Htyped r Hr)) as [-> _].
  - cbn [rows]. rewrite !map_map. apply map_ext_in. intros r Hr.
    cbn [fst snd stacked_row row_get String.eqb Ascii.eqb Bool.eqb].
    now rewrite (Hstart r Hr).
Qed.

(** ** C8: the region of a loaded time series *)

Lemma row_get_set (r : row) (c c' : string) (v : value) :
  row_get (row_set r c v) c'
  = if String.eqb c c' then v else row_get r c'.
Proof.
  induction r as [|[k w] r IH]; cbn [row_set row_get].
  - destruct (String.eqb c c'); reflexivity.
  - destruct (String.eqb k c) eqn:Hkc; cbn [row_get].
    + apply String.eqb_eq in Hkc. subst k.
      destruct (String.eqb c c'); reflexivity.
    + rewrite IH. destruct (String.eqb k c') eqn:Hkc'; [|reflexivity].
      apply String.eqb_eq in Hkc'. subst k. now rewrite String.eqb_sym, Hkc.
Qed.

Lemma set_column_col (df : DataFrame) (c c' : string) (vals : list value) :
  length vals = length (rows df) ->
  col_of (set_column df c vals) c'
  = if String.eqb c c' then vals else col_of df c'.
Proof.
  unfold col_of, set_column. cbn [rows]. rewrite map_map.
  generalize (rows df). intros l. revert vals.
  induction l as [|r l IH]; intros [|v vals] Hlen; try discriminate.
  - now destruct (String.eqb c c').
  - cbn [combine map fst snd]. rewrite row_get_set.
    injection Hlen as Hlen. rewrite (IH vals Hlen).
    now destruct (String.eqb c c').
Qed.

Lemma set_column_length (df : DataFrame) (c : string) (vals : list value) :
  length vals = length (rows df) ->
  length (rows (set_column df c vals)) = length (rows df).
Proof.
  intros Hlen. unfold set_column. cbn [rows].
  rewrite length_map, length_combine. lia.
Qed.

Lemma row_get_select (r : row) (header : list string) (c : string) :
  mem c header = true ->
  row_get (map (fun c0 => (c0, row_get r c0)) header) c = row_get r c.
Proof.
  induction header as [|h header IH]; [discriminate|].
  cbn [mem existsb map row_get]. rewrite String.eqb_sym.
  destruct (String.eqb h c) eqn:Hh.
  - apply String.eqb_eq in Hh. now subst.
  - cbn [orb]. exact IH.
Qed.

Lemma mapM_over_column {B : Type} (f : value -> result B) (df : DataFrame)
      (c : string) :
  mem c (columns df) = true ->
  mapM (fun r => v <- cell df c r ;; f v) (rows df) = mapM f (col_of df c).
Proof.
  intros Hc. unfold col_of. induction (rows df) as [|r l IH]; [reflexivity|].
  cbn [mapM map]. rewrite cell_in by assumption. cbn [bind].
  now rewrite IH.
Qed.

Lemma forallb_over_map {A B : Type} (f : B -> bool) (g : A -> B)
      (l : list A) :
  forallb f (map g l) = forallb (fun x => f (g x)) l.
Proof. induction l as [|x l IH]; simpl; [reflexivity | now rewrite IH]. Qed.

Lemma region_of_code (var_name : string) :
  region_of var_name
  = if has_region var_name then Ok (region_code var_name)
    else Err MissingRegion.
Proof.
  unfold region_of, has_region, region_code.
  destruct (str_in "BE" var_name), (str_in "BB" var_name); reflexivity.
Qed.

Lemma derive_regions (l : list value) :
  (forall v, In v l -> is_str v = true) ->
  mapM (fun v => var_name <- as_str v ;;
                 reg <- region_of var_name ;;
                 Ok (VStr reg : value)) l
  = if forallb (fun v => has_region (text_of v)) l
    then Ok (map (fun v => VStr (region_code (text_of v))) l)
    else Err MissingRegion.
Proof.
  induction l as [|v l IH]; intros Hstr; [reflexivity|].
  cbn [mapM forallb map].
  destruct (is_str_inv v (Hstr v (or_introl eq_refl))) as [s ->].
  cbn [as_str bind text_of]. rewrite region_of_code.
  destruct (has_region s); cbn [bind andb]; [|reflexivity].
  rewrite IH by (intros w Hw; apply Hstr; now right).
  now destruct (forallb _ l).
Qed.

(** A frame without a column [from] has not the layout of a results
    file. *)
Lemma results_format_no_from (df : DataFrame) :
  ~ In "from" (columns df) -> results_format (head3 df) = Ok false.
Proof.
  intros Hfrom. apply mem_false_iff in Hfrom. unfold results_format.
  cbn [head3 columns]. now rewrite Hfrom.
Qed.

Lemma load_timeseries_eq (file : DataFrame) :
  load_timeseries file
  = (results <~ io_lift (results_format (head3 file)) ;;
     df <~ (if results
            then
              df_columns <~ io_lift (merged_header (head3 file)) ;;
              io_lift (rename_columns df_columns (read_csv_skiprows file))
            else io_ret (head3 file)) ;;
     df1 <~ (if negb (existsb
                        (fun item => mem item required_header_timeseries)
                        (columns df))
             then
               wide <~ io_lift (wide_frame df) ;;
               stack_timeseries wide
             else
               match filter (fun required =>
                               negb (mem required (columns file))
                               && negb (str_in "region" required))
                            required_header_timeseries with
               | [] => io_ret file
               | missing_required =>
                   io_raise (MissingRequiredColumns missing_required)
               end) ;;
     complete_timeseries header_timeseries optional_header_timeseries
                         required_header_timeseries df1).
Proof.
  unfold load_timeseries. rewrite get_header_timeseries.
  rewrite io_bind_lift_ok. cbv beta iota zeta.
  destruct (filter _ required_header_timeseries); reflexivity.
Qed.

Lemma missing_required_eq (df_header : list string) :
  filter (fun required => negb (mem required df_header)
                          && negb (str_in "region" required))
         required_header_timeseries
  = filter (fun c => negb (mem c df_header)) df_stacked_cols.
Proof.
  unfold required_header_timeseries, df_stacked_cols. cbn [filter].
  change (str_in "region" "region") with true.
  change (str_in "region" "var_name") with false.
  change (str_in "region" "timeindex_start") with false.
  change (str_in "region" "timeindex_stop") with false.
  change (str_in "region" "timeindex_resolution") with false.
  change (str_in "region" "series") with false.
  cbn [negb]. now rewrite andb_false_r, !andb_true_r.
Qed.

Lemma filter_none (l cols : list string) :
  (forall c, In c l -> In c cols) ->
  filter (fun c => negb (mem c cols)) l = [].
Proof.
  induction l as [|h l IH]; intros Hl; [reflexivity|]. cbn [filter].
  assert (Hh : mem h cols = true) by (apply mem_true_iff, Hl; now left).
  rewrite Hh. cbn [negb]. apply IH. intros c Hc. apply Hl. now right.
Qed.

Lemma stacked_flag (cols : list string) (c : string) :
  In c cols -> In c required_header_timeseries ->
  existsb (fun item => mem item required_header_timeseries) cols = true.
Proof.
  intros Hc Hreq. apply existsb_exists. exists c.
  split; [assumption | now apply mem_true_iff].
Qed.

(** A frame that has not the layout of a results file and has the
    required columns, [region] apart, is taken whole and as it is to the
    second half. *)
Lemma load_timeseries_stacked (df : DataFrame) :
  results_format (head3 df) = Ok false ->
  (forall c, In c df_stacked_cols -> In c (columns df)) ->
  load_timeseries df
  = complete_timeseries header_timeseries optional_header_timeseries
                        required_header_timeseries df.
Proof.
  intros Hplain Hall. rewrite load_timeseries_eq, Hplain.
  rewrite io_bind_lift_ok. cbv beta iota. rewrite io_bind_ret.
  cbn [head3 columns].
  rewrite (@stacked_flag (columns df) "var_name")
    by (try apply Hall; cbn; tauto).
  cbn [negb]. rewrite missing_required_eq, filter_none by assumption.
  now rewrite io_bind_ret.
Qed.

(** C8, as amended: when the columns of the stacked frame are exactly the
    required ones without [region], in the order of the header, and the
    names are text, [load_timeseries] derives the region of each row from
    its [var_name]: ["BE_BB"] when both codes occur in it, the code that
    occurs when only one does; and it raises [MissingRegion] as soon as a
    name has neither. *)
Theorem load_timeseries_derives_region (df : DataFrame) :
  columns df = df_stacked_cols ->
  (forall r, In r (rows df) -> is_str (row_get r "var_name") = true) ->
  (forallb (fun r => has_region (var_name_of r)) (rows df) = true ->
   exists out,
     load_timeseries df = ([], Ok out)
     /\ columns out = header_timeseries
     /\ col_of out "region"
        = map (fun r => VStr (region_code (var_name_of r))) (rows df)
     /\ col_of out "var_name" = col_of df "var_name"
     /\ col_of out "series" = col_of df "series")
  /\ (forallb (fun r => has_region (var_name_of r)) (rows df) = false ->
      load_timeseries df = ([], Err MissingRegion)).
Proof.
  intros Hcols Hstr.
  set (ids := map (fun i => @VInt num (Z.of_nat i))
                  (seq 0 (length (rows df)))).
  assert (Hids : length ids = length (rows df))
    by (unfold ids; now rewrite length_map, length_seq).
  set (df1 := set_column df "id_ts" ids).
  assert (Hcols1 : columns df1 = df_stacked_cols ++ ["id_ts"])
    by (unfold df1, set_column; cbn [columns]; now rewrite Hcols).
  assert (Hnames1 : col_of df1 "var_name" = col_of df "var_name")
    by (unfold df1; now rewrite set_column_col).
  assert (Hforall : forallb (fun v => has_region (text_of v))
                            (col_of df "var_name")
                    = forallb (fun r => has_region (var_name_of r))
                              (rows df)).
  { unfold col_of. now rewrite forallb_over_map. }
  assert (Hregions :
            mapM (fun r => c <- cell df1 "var_name" r ;;
                           var_name <- as_str c ;;
                           reg <- region_of var_name ;;
                           Ok (VStr reg : value)) (rows df1)
            = if forallb (fun r => has_region (var_name_of r)) (rows df)
              then Ok (map (fun r => VStr (region_code (var_name_of r)))
                           (rows df))
              else Err MissingRegion).
  { rewrite (mapM_over_column
               (fun c => var_name <- as_str c ;;
                         reg <- region_of var_name ;;
                         Ok (VStr reg : value)) df1 "var_name")
      by now rewrite Hcols1.
    rewrite Hnames1, derive_regions, Hforall.
    - destruct (forallb _ (rows df)); [|reflexivity].
      unfold col_of. now rewrite map_map.
    - intros v Hv. unfold col_of in Hv. apply in_map_iff in Hv.
      destruct Hv as [r [<- Hr]]. now apply Hstr. }
  assert (Hload :
            load_timeseries df
            = (df2 <~ (region <~ io_lift
                         (mapM (fun r => c <- cell df1 "var_name" r ;;
                                         var_name <- as_str c ;;
                                         reg <- region_of var_name ;;
                                         Ok (VStr reg : value))
                               (rows df1)) ;;
                       io_ret (set_column df1 "region" region)) ;;
               io_lift
                 (select
                    (fold_left
                       (fun df optional =>
                          if negb (mem optional (columns df))
                          then set_column df optional
                                 (map (fun _ => VNum nnan) (rows df))
                          else df)
                       ["var_unit"; "source"; "comment"] df2)
                    header_timeseries))).
  { rewrite load_timeseries_stacked;
      [|apply results_format_no_from; rewrite Hcols; cbn;
        intuition discriminate
       |now rewrite Hcols].
    unfold complete_timeseries.
    change (list_remove "region" required_header_timeseries)
      with (Ok df_stacked_cols).
    rewrite io_bind_lift_ok. cbv beta. rewrite Hcols.
    change ((list_eqb df_stacked_cols required_header_timeseries
             || list_eqb df_stacked_cols df_stacked_cols)
            && negb (list_eqb df_stacked_cols header_timeseries))
      with true.
    cbv iota.
    change (negb (mem (hd "" optional_header_timeseries) df_stacked_cols))
      with true.
    cbv iota.
    change (hd "" optional_header_timeseries) with "id_ts".
    fold ids. fold df1. rewrite Hcols1.
    change (negb (mem (hd "" required_header_timeseries)
                      (df_stacked_cols ++ ["id_ts"]))) with true.
    cbv iota.
    change (hd "" required_header_timeseries) with "region".
    change (tl optional_header_timeseries)
      with ["var_unit"; "source"; "comment"].
    match goal with
    | |- io_bind (io_bind ?m _) _ = _ => destruct m as [out [df2|e]]
    end; unfold io_bind, io_ret, io_lift; rewrite ?app_nil_r; reflexivity. }
  rewrite Hload, Hregions. split; intros Hreg; rewrite Hreg.
  - rewrite io_bind_lift_ok, io_bind_ret.
    set (regions := map (fun r => VStr (region_code (var_name_of r)))
                        (rows df)).
    assert (Hlen1 : length (rows df1) = length (rows df))
      by (unfold df1; now apply set_column_length).
    assert (Hregs : length regions = length (rows df1))
      by (unfold regions; now rewrite length_map).
    set (df2 := set_column df1 "region" regions).
    assert (Hcols2 : columns df2 = df_stacked_cols ++ ["id_ts"; "region"])
      by (unfold df2, set_column; cbn [columns]; now rewrite Hcols1).
    cbn [fold_left]. rewrite Hcols2.
    change (negb (mem "var_unit" (df_stacked_cols ++ ["id_ts"; "region"])))
      with true. cbv iota.
    set (df3 := set_column df2 "var_unit" _).
    assert (Hcols3 : columns df3
                     = df_stacked_cols ++ ["id_ts"; "region"; "var_unit"])
      by (unfold df3, set_column; cbn [columns]; now rewrite Hcols2).
    rewrite Hcols3.
    change (negb (mem "source"
                      (df_stacked_cols ++ ["id_ts"; "region"; "var_unit"])))
      with true. cbv iota.
    set (df4 := set_column df3 "source" _).
    assert (Hcols4 : columns df4
                     = df_stacked_cols
                       ++ ["id_ts"; "region"; "var_unit"; "source"])
      by (unfold df4, set_column; cbn [columns]; now rewrite Hcols3).
    rewrite Hcols4.
    change (negb (mem "comment"
                      (df_stacked_cols
                       ++ ["id_ts"; "region"; "var_unit"; "source"])))
      with true. cbv iota.
    set (df5 := set_column df4 "comment" _).
    assert (Hcols5 : columns df5
                     = df_stacked_cols
                       ++ ["id_ts"; "region"; "var_unit"; "source";
                           "comment"])
      by (unfold df5, set_column; cbn [columns]; now rewrite Hcols4).
    unfold select. rewrite Hcols5.
    change (filter _ header_timeseries) with (@nil string).
    eexists. split; [reflexivity|]. split; [reflexivity|].
    assert (Hcol5 : forall c,
               mem c header_timeseries = true ->
               col_of {| columns := header_timeseries;
                         rows := map (fun r =>
                                        map (fun c0 => (c0, row_get r c0))
                                            header_timeseries)
                                     (rows df5) |} c
               = col_of df5 c).
    { intros c Hc. unfold col_of. cbn [rows]. rewrite map_map.
      apply map_ext. intros r. now apply row_get_select. }
    assert (Hlen2 : length (rows df2) = length (rows df))
      by (unfold df2; rewrite set_column_length; assumption).
    assert (Hlen3 : length (rows df3) = length (rows df))
      by (unfold df3; rewrite set_column_length;
          [assumption | now rewrite length_map]).
    assert (Hlen4 : length (rows df4) = length (rows df))
      by (unfold df4; rewrite set_column_length;
          [assumption | now rewrite length_map]).
    assert (Hthrough : forall c,
               String.eqb "comment" c = false ->
               String.eqb "source" c = false ->
               String.eqb "var_unit" c = false ->
               col_of df5 c = col_of df2 c).
    { intros c H5 H4 H3. unfold df5, df4, df3.
      rewrite !set_column_col by (now rewrite length_map).
      now rewrite H5, H4, H3. }
    split; [|split].
    + rewrite Hcol5 by reflexivity. rewrite Hthrough by reflexivity.
      unfold df2. now rewrite set_column_col.
    + rewrite Hcol5 by reflexivity. rewrite Hthrough by reflexivity.
      unfold df2. rewrite set_column_col by assumption. exact Hnames1.
    + rewrite Hcol5 by reflexivity. rewrite Hthrough by reflexivity.
      unfold df2, df1. now rewrite !set_column_col by assumption.
  - reflexivity.
Qed.

(** * Further properties *)

(** ** load_scalars *)

Lemma set_column_columns (df : DataFrame) (c : string) (vals : list value)
      (c' : string) :
  In c' (columns (set_column df c vals)) <-> In c' (columns df) \/ c' = c.
Proof.
  unfold set_column. cbn [columns].
  destruct (mem c (columns df)) eqn:Hc.
  - apply mem_true_iff in Hc. split; [tauto|]. intros [Hin| ->]; assumption.
  - rewrite in_app_iff. cbn [In]. split.
    + intros [Hin|[<-|[]]]; tauto.
    + intros [Hin| ->]; tauto.
Qed.

Lemma ids_length (n : nat) : length (@ids num n) = n.
Proof. unfold ids. now rewrite length_map, length_seq. Qed.

Lemma nans_map (l : list row) :
  map (fun _ : row => @VNum num nnan) l = nans (length l).
Proof. unfold nans. induction l; cbn; congruence. Qed.

(** What the loop over the optional columns leaves: the columns that the
    frame had are as they were, and each optional column that it lacked is
    there, with ids for the first optional name and NaN for the others. *)
Lemma add_optionals_spec (filename : string) (df_header oh : list string)
      (opts : list string) (out : list load_notice) (df : DataFrame) :
  NoDup opts ->
  let added c := In c opts /\ mem c df_header = false in
  let st := fold_left (add_optional filename df_header oh) opts (out, df) in
  length (rows (snd st)) = length (rows df)
  /\ (forall c, In c (columns (snd st)) <-> In c (columns df) \/ added c)
  /\ (forall c, ~ added c -> col_of (snd st) c = col_of df c)
  /\ (forall c, added c ->
                col_of (snd st) c
                = if String.eqb c (hd "" oh) then ids (length (rows df))
                  else nans (length (rows df)))
  /\ fst st
     = out ++ map (OptionalColumnAdded filename)
                  (filter (fun c => negb (mem c df_header)
                                    && negb (String.eqb c (hd "" oh))) opts).
Proof.
  intros Hnd. cbv zeta. revert out df.
  induction opts as [|o opts IH]; intros out df.
  - cbn. rewrite app_nil_r. repeat split; tauto.
  - inversion Hnd as [|? ? Hnin Hnd']; subst.
    cbn [fold_left].
    set (vals := if String.eqb o (hd "" oh)
                 then @ids num (length (rows df))
                 else nans (length (rows df))).
    assert (Hvals : length vals = length (rows df)).
    { unfold vals. destruct (String.eqb o (hd "" oh));
        [apply ids_length | apply repeat_length]. }
    assert (Hstate :
              add_optional filename df_header oh (out, df) o
              = if mem o df_header then (out, df)
                else (out ++ (if String.eqb o (hd "" oh) then []
                              else [OptionalColumnAdded filename o]),
                      set_column df o vals)).
    { unfold add_optional, vals. destruct (mem o df_header); [reflexivity|].
      cbn [negb]. destruct (String.eqb o (hd "" oh)).
      - now rewrite app_nil_r.
      - now rewrite nans_map. }
    rewrite Hstate. clear Hstate.
    destruct (mem o df_header) eqn:Ho.
    + destruct (IH Hnd' out df) as [Hlen [Hcols [Hkeep [Hadd Hout]]]].
      split; [exact Hlen|]. split; [|split; [|split]].
      * intros c. rewrite Hcols. cbn [In]. split.
        -- intros [Hc|[Hc Hm]]; [tauto | right; tauto].
        -- intros [Hc|[[<-|Hc] Hm]]; [tauto | congruence | right; tauto].
      * intros c Hc. apply Hkeep. intros [Hin Hm]. apply Hc. cbn [In]. tauto.
      * intros c [[<-|Hc] Hm]; [congruence|]. apply Hadd. tauto.
      * rewrite Hout. cbn [filter]. now rewrite Ho.
    +
      destruct (IH Hnd' (out ++ (if String.eqb o (hd "" oh) then []
                                 else [OptionalColumnAdded filename o]))
                   (set_column df o vals))
        as [Hlen [Hcols [Hkeep [Hadd Hout]]]].
      rewrite set_column_length in Hlen, Hadd by assumption.
      split; [exact Hlen|]. split; [|split; [|split]].
      * intros c. rewrite Hcols, set_column_columns. cbn [In]. split.
        -- intros [[Hc| ->]|[Hc Hm]]; tauto.
        -- intros [Hc|[[<-|Hc] Hm]]; tauto.
      * intros c Hc. rewrite Hkeep.
        -- rewrite set_column_col by assumption.
           destruct (String.eqb o c) eqn:Hoc; [|reflexivity].
           apply String.eqb_eq in Hoc. subst c. exfalso. apply Hc.
           cbn [In]. tauto.
        -- intros [Hin Hm]. apply Hc. cbn [In]. tauto.
      * intros c [[<-|Hc] Hm].
        -- rewrite Hkeep by tauto. rewrite set_column_col by assumption.
           now rewrite String.eqb_refl.
        -- apply Hadd. tauto.
      * rewrite Hout. cbn [filter]. rewrite Ho. cbn [negb andb].
        destruct (String.eqb o (hd "" oh)); cbn [negb map];
          now rewrite <- app_assoc.
Qed.

Lemma select_all (df : DataFrame) (header : list string) :
  (forall c, In c header -> In c (columns df)) ->
  select df header
  = Ok {| columns := header;
          rows := map (fun r => map (fun c => (c, row_get r c)) header)
                      (rows df) |}.
Proof.
  intros Hall. unfold select.
  replace (filter (fun c => negb (mem c (columns df))) header)
    with (@nil string); [reflexivity|].
  symmetry. induction header as [|h header IH]; [reflexivity|].
  cbn [filter].
  assert (Hh : mem h (columns df) = true)
    by (apply mem_true_iff, Hall; now left).
  rewrite Hh. cbn [negb]. apply IH. intros c Hc. apply Hall. now right.
Qed.

Lemma select_col (df : DataFrame) (header : list string) (c : string) :
  In c header ->
  col_of {| columns := header;
            rows := map (fun r => map (fun c0 => (c0, row_get r c0)) header)
                        (rows df) |} c
  = col_of df c.
Proof.
  intros Hc. unfold col_of. cbn [rows]. rewrite map_map.
  apply map_ext. intros r. apply row_get_select. now apply mem_true_iff.
Qed.

Lemma select_twice (header : list string) (l : list row) :
  map (fun r => map (fun c => (c, row_get r c)) header)
      (map (fun r => map (fun c => (c, row_get r c)) header) l)
  = map (fun r : row => map (fun c => (c, row_get r c)) header) l.
Proof.
  rewrite map_map. apply map_ext. intros r. apply map_ext_in. intros c Hc.
  f_equal. apply row_get_select. now apply mem_true_iff.
Qed.

Lemma load_scalars_unfold (filename : string) (df : DataFrame) :
  load_scalars filename df
  = match filter (fun c => negb (mem c (columns df)))
                 required_header_scalars with
    | _ :: _ =>
        ([], Err (MissingRequiredColumns
                    (filter (fun c => negb (mem c (columns df)))
                            required_header_scalars)))
    | [] =>
        (fst (fold_left (add_optional filename (columns df)
                                      optional_header_scalars)
                        optional_header_scalars ([], df)),
         select (snd (fold_left (add_optional filename (columns df)
                                              optional_header_scalars)
                                optional_header_scalars ([], df)))
                header_scalars)
    end.
Proof.
  unfold load_scalars. rewrite get_header_scalars.
  destruct (filter _ required_header_scalars); [|reflexivity].
  now destruct (fold_left _ _ _).
Qed.

(** X1: [load_scalars] raises when the frame lacks a required column; the
    exception lists the required columns that are missing, all of them and
    no others, and nothing is printed. *)
Theorem load_scalars_missing_required (filename : string) (df : DataFrame) :
  (exists c, In c required_header_scalars /\ ~ In c (columns df)) ->
  exists missing,
    load_scalars filename df = ([], Err (MissingRequiredColumns missing))
    /\ forall c, In c missing
                 <-> In c required_header_scalars /\ ~ In c (columns df).
Proof.
  intros [c0 [Hreq Hnin]]. rewrite load_scalars_unfold.
  assert (Hmem : forall c,
             In c (filter (fun c => negb (mem c (columns df)))
                          required_header_scalars)
             <-> In c required_header_scalars /\ ~ In c (columns df)).
  { intros c. rewrite filter_In, negb_true_iff, mem_false_iff. tauto. }
  destruct (filter _ required_header_scalars) as [|m missing] eqn:Hf.
  - exfalso. apply (proj2 (Hmem c0)). tauto.
  - eexists. split; [reflexivity | exact Hmem].
Qed.

(** X2: when the frame has every required column, [load_scalars] returns a
    table with the header of scalars as its columns, in the order of the
    header and whatever the order and the further columns of the frame; it
    has the rows of the frame, and the cells of every header column that
    the frame had.  A missing [id_scal] is filled with 0, 1, 2, ... in row
    order; each other missing optional column is filled with NaN, and a
    notice is printed for it and for nothing else. *)
Theorem load_scalars_canonical (filename : string) (df : DataFrame) :
  (forall c, In c required_header_scalars -> In c (columns df)) ->
  exists out,
    load_scalars filename df
    = (map (OptionalColumnAdded filename)
           (filter (fun c => negb (mem c (columns df)))
                   ["var_unit"; "reference"; "comment"]),
       Ok out)
    /\ columns out = header_scalars
    /\ (forall r, In r (rows out) -> map fst r = header_scalars)
    /\ length (rows out) = length (rows df)
    /\ (forall c, In c header_scalars -> In c (columns df) ->
                  col_of out c = col_of df c)
    /\ (~ In "id_scal" (columns df) ->
        col_of out "id_scal" = ids (length (rows df)))
    /\ (forall c, In c ["var_unit"; "reference"; "comment"] ->
                  ~ In c (columns df) ->
                  col_of out c = nans (length (rows df))).
Proof.
  intros Hreq. rewrite load_scalars_unfold.
  assert (Hnone : filter (fun c => negb (mem c (columns df)))
                         required_header_scalars = []).
  { assert (Hall : forall l, (forall c, In c l -> In c (columns df)) ->
                             filter (fun c => negb (mem c (columns df))) l
                             = []).
    { induction l as [|h l IH]; intros Hl; [reflexivity|]. cbn [filter].
      assert (Hh : mem h (columns df) = true)
        by (apply mem_true_iff, Hl; now left).
      rewrite Hh. cbn [negb]. apply IH. intros c Hc. apply Hl. now right. }
    now apply Hall. }
  rewrite Hnone.
  assert (Hnd : NoDup optional_header_scalars).
  { repeat constructor; simpl; intuition discriminate. }
  destruct (add_optionals_spec filename (columns df) optional_header_scalars
              [] df Hnd) as [Hlen [Hcols [Hkeep [Hadd Hout]]]].
  set (st := fold_left (add_optional filename (columns df)
                                     optional_header_scalars)
                       optional_header_scalars ([], df)) in *.
  rewrite select_all.
  2:{ intros c Hc. apply Hcols.
      destruct (mem c (columns df)) eqn:Hm.
      - left. now apply mem_true_iff.
      - right. split; [|reflexivity].
        apply mem_false_iff in Hm.
        cbn in Hc. cbn.
        repeat (destruct Hc as [<-|Hc];
                [try tauto; exfalso; apply Hm, Hreq; cbn; tauto|]).
        contradiction. }
  eexists. split.
  { apply f_equal2; [|reflexivity].
    rewrite Hout. cbn [app filter optional_header_scalars hd].
    change (String.eqb "id_scal" "id_scal") with true.
    change (String.eqb "var_unit" "id_scal") with false.
    change (String.eqb "reference" "id_scal") with false.
    change (String.eqb "comment" "id_scal") with false.
    now rewrite !andb_false_r, !andb_true_r. }
  split; [reflexivity|split; [|split; [|split; [|split]]]].
  - cbn [rows]. intros r Hr. apply in_map_iff in Hr.
    destruct Hr as [r0 [<- _]]. rewrite map_map. cbn [fst]. apply map_id.
  - cbn [rows]. now rewrite length_map.
  - intros c Hc Hin. rewrite select_col by assumption. apply Hkeep.
    intros [_ Hm]. apply mem_false_iff in Hm. contradiction.
  - intros Hid. rewrite select_col by (cbn; tauto).
    rewrite Hadd; [reflexivity|]. split; [cbn; tauto|].
    now apply mem_false_iff.
  - intros c Hc Hnin.
    rewrite select_col
      by (cbn in Hc |- *; destruct Hc as [<-|[<-|[<-|[]]]]; tauto).
    rewrite Hadd.
    + cbn in Hc. destruct Hc as [<-|[<-|[<-|[]]]]; reflexivity.
    + split; [cbn in Hc |- *; tauto | now apply mem_false_iff].
Qed.

(** X3: loading is idempotent: the table that [load_scalars] returns is
    loaded as it is, and nothing is printed. *)
Theorem load_scalars_idempotent (filename filename' : string)
        (df out : DataFrame) :
  snd (load_scalars filename df) = Ok out ->
  load_scalars filename' out = ([], Ok out).
Proof.
  rewrite load_scalars_unfold.
  destruct (filter _ required_header_scalars); [|discriminate].
  cbn [snd]. unfold select at 1.
  destruct (filter _ header_scalars); [|discriminate].
  intros Hout. injection Hout as <-.
  rewrite load_scalars_unfold. cbn [columns].
  change (filter _ required_header_scalars) with (@nil string).
  cbn [fold_left optional_header_scalars]. unfold add_optional. cbn [columns].
  change (mem "id_scal" header_scalars) with true.
  change (mem "var_unit" header_scalars) with true.
  change (mem "reference" header_scalars) with true.
  change (mem "comment" header_scalars) with true.
  cbn [negb fst snd]. rewrite select_all by (cbn [columns]; tauto).
  do 2 f_equal. cbn [rows]. f_equal.
  exact (select_twice header_scalars _).
Qed.

(** ** load_timeseries *)

(** The loop of [stack_timeseries]: it keeps the columns and appends one
    row for each name. *)
Lemma stack_loop_inv (n : nat) (all : list (string * list num))
      (start stop : Z) (resolution : value) (names : list string)
      (acc s : DataFrame) :
  foldM (fun df_stacked column =>
           series <- column_values n all column ;;
           Ok (append df_stacked
                 [("var_name", VStr column);
                  ("timeindex_start", VTime start);
                  ("timeindex_stop", VTime stop);
                  ("timeindex_resolution", resolution);
                  ("series", series)]))
        names acc = Ok s ->
  columns acc = df_stacked_cols ->
  columns s = df_stacked_cols
  /\ exists series,
       length series = length names
       /\ rows s
          = rows acc
            ++ map (fun p : string * value =>
                      [("var_name", VStr (fst p));
                       ("timeindex_start", VTime start);
                       ("timeindex_stop", VTime stop);
                       ("timeindex_resolution", resolution);
                       ("series", snd p)])
                   (combine names series).
Proof.
  revert acc. induction names as [|name names IH]; intros acc Hrun Hcols.
  - cbn in Hrun. injection Hrun as <-. split; [assumption|].
    exists []. cbn. now rewrite app_nil_r.
  - cbn [foldM] in Hrun.
    destruct (column_values n all name) as [ser|e]; [|discriminate].
    cbn [bind] in Hrun. apply IH in Hrun.
    + destruct Hrun as [Hc [series [Hlen Hrows]]]. split; [exact Hc|].
      exists (ser :: series). split; [cbn; congruence|].
      rewrite Hrows. cbn [append rows combine map fst snd].
      now rewrite <- app_assoc.
    + cbn [append columns]. rewrite Hcols. reflexivity.
Qed.

(** What [stack_timeseries] returns, whenever it returns: the stacked
    columns, and one row for each column of the wide table, all with the
    same start, stop and resolution. *)
Lemma stack_timeseries_inv (w : Wide) (out : list notice) (s : DataFrame) :
  stack_timeseries w = (out, Ok s) ->
  columns s = df_stacked_cols
  /\ exists start stop f series,
       length series = length (wcolumns w)
       /\ rows s
          = map (fun p : string * value =>
                   [("var_name", VStr (fst p));
                    ("timeindex_start", VTime start);
                    ("timeindex_stop", VTime stop);
                    ("timeindex_resolution", VFreq f);
                    ("series", snd p)])
                (combine (map fst (wcolumns w)) series).
Proof.
  unfold stack_timeseries.
  destruct (windex w) as [values freqstr|labels] eqn:Hindex;
    [|discriminate].
  destruct (infer_freq values) as [[d|]|e]; try discriminate.
  rewrite io_bind_lift_ok.
  destruct freqstr as [f|].
  - rewrite io_bind_ret, Hindex.
    destruct values as [|t values']; [discriminate|].
    rewrite io_bind_lift_ok. unfold io_lift. intros Hrun.
    injection Hrun as _ Hrun. apply stack_loop_inv in Hrun; [|reflexivity].
    destruct Hrun as [Hc [series [Hlen Hrows]]]. split; [exact Hc|].
    exists t, (last (t :: values') t), f, series.
    rewrite length_map in Hlen. now split.
  - unfold io_print, io_ret, io_bind at 2. cbn [app].
    unfold asfreq at 1. cbn [windex].
    destruct (date_range _ _ d) as [|t values'] eqn:Hrange.
    + cbn. discriminate.
    + unfold io_bind, io_lift. cbn [windex wcolumns app]. intros Hrun.
      injection Hrun as _ Hrun. apply stack_loop_inv in Hrun; [|reflexivity].
      destruct Hrun as [Hc [series [Hlen Hrows]]]. split; [exact Hc|].
      exists t, (last (t :: values') t), d, series.
      rewrite length_map in Hlen. now split.
Qed.

(** The loop over the further optional columns: each one that the frame
    lacks is added as a column of NaN, and nothing else changes. *)
Lemma fill_missing_spec (opts : list string) (df : DataFrame) :
  let out :=
    fold_left (fun df optional =>
                 if negb (mem optional (columns df))
                 then set_column df optional
                        (map (fun _ => VNum nnan) (rows df))
                 else df) opts df in
  length (rows out) = length (rows df)
  /\ (forall c, In c (columns out) <-> In c (columns df) \/ In c opts)
  /\ (forall c, In c (columns df) \/ ~ In c opts ->
                col_of out c = col_of df c)
  /\ (forall c, In c opts -> ~ In c (columns df) ->
                col_of out c = nans (length (rows df))).
Proof.
  cbv zeta. revert df. induction opts as [|o opts IH]; intros df.
  - cbn. repeat split; tauto.
  - cbn [fold_left]. destruct (mem o (columns df)) eqn:Ho; cbn [negb].
    + apply mem_true_iff in Ho.
      destruct (IH df) as [Hlen [Hcols [Hkeep Hadd]]].
      split; [exact Hlen|]. split; [|split].
      * intros c. rewrite Hcols. cbn [In]. split.
        -- tauto.
        -- intros [Hc|[<-|Hc]]; tauto.
      * intros c Hc. cbn [In] in Hc. apply Hkeep. tauto.
      * intros c [<-|Hc] Hnin; [contradiction|]. now apply Hadd.
    + apply mem_false_iff in Ho. rewrite nans_map.
      assert (Hvals : length (nans (length (rows df)) : list value)
                      = length (rows df)) by apply repeat_length.
      destruct (IH (set_column df o (nans (length (rows df)))))
        as [Hlen [Hcols [Hkeep Hadd]]].
      rewrite set_column_length in Hlen, Hadd by assumption.
      split; [exact Hlen|]. split; [|split].
      * intros c. rewrite Hcols, set_column_columns. cbn [In]. split.
        -- intros [[Hc| ->]|Hc]; tauto.
        -- intros [Hc|[<-|Hc]]; tauto.
      * intros c Hc. cbn [In] in Hc. rewrite Hkeep.
        -- rewrite set_column_col by assumption.
           destruct (String.eqb o c) eqn:Hoc; [|reflexivity].
           apply String.eqb_eq in Hoc. subst c. tauto.
        -- rewrite set_column_columns.
           destruct Hc as [Hc|Hc]; [left; now left | right; tauto].
      * intros c Hc Hnin. destruct (String.eqb o c) eqn:Hoc.
        -- apply String.eqb_eq in Hoc. subst c. rewrite Hkeep.
           ++ rewrite set_column_col by assumption.
              now rewrite String.eqb_refl.
           ++ left. apply set_column_columns. now right.
        -- apply String.eqb_neq in Hoc. destruct Hc as [Hc|Hc]; [tauto|].
           apply Hadd; [assumption|]. rewrite set_column_columns.
           intros [Hin| ->]; tauto.
Qed.

Lemma select_missing (df : DataFrame) (header : list string) :
  (exists c, In c header /\ ~ In c (columns df)) ->
  exists c, select df header = Err (PyKeyError c)
            /\ In c header /\ ~ In c (columns df).
Proof.
  intros [c0 [Hc0 Hnin]]. unfold select.
  assert (Hmem : forall c,
             In c (filter (fun c => negb (mem c (columns df))) header)
             <-> In c header /\ ~ In c (columns df)).
  { intros c. rewrite filter_In, negb_true_iff, mem_false_iff. tauto. }
  destruct (filter _ header) as [|c rest].
  - exfalso. apply (proj2 (Hmem c0)). tauto.
  - exists c. split; [reflexivity|]. apply Hmem. now left.
Qed.

Lemma unstacked_flag (cols : list string) :
  (forall c, In c cols -> ~ In c required_header_timeseries) ->
  existsb (fun item => mem item required_header_timeseries) cols = false.
Proof.
  intros Hnone. induction cols as [|c cols IH]; [reflexivity|].
  cbn [existsb].
  assert (Hc : mem c required_header_timeseries = false)
    by (apply mem_false_iff, Hnone; now left).
  rewrite Hc. apply IH. intros c' Hc'. apply Hnone. now right.
Qed.

Lemma head3_twice (df : DataFrame) : head3 (head3 df) = head3 df.
Proof.
  unfold head3. cbn [columns rows]. now rewrite firstn_firstn.
Qed.

(** What [load_timeseries] does with a file that has not the layout of a
    results file and none of the required columns. *)
Lemma load_timeseries_wide (df : DataFrame) :
  results_format (head3 df) = Ok false ->
  (forall c, In c (columns df) -> ~ In c required_header_timeseries) ->
  load_timeseries df
  = (wide <~ io_lift (wide_frame (head3 df)) ;;
     stacked <~ stack_timeseries wide ;;
     load_timeseries stacked).
Proof.
  intros Hplain Hnone. rewrite load_timeseries_eq, Hplain.
  rewrite io_bind_lift_ok. cbv beta iota. rewrite io_bind_ret.
  cbn [head3 columns]. rewrite unstacked_flag by assumption. cbn [negb].
  fold (head3 df).
  destruct (wide_frame (head3 df)) as [wide|e]; [|reflexivity].
  rewrite !io_bind_lift_ok.
  destruct (stack_timeseries wide) as [out [s|e]] eqn:Hstack;
    [|reflexivity].
  apply stack_timeseries_inv in Hstack. destruct Hstack as [Hcols _].
  unfold io_bind. rewrite load_timeseries_stacked; [reflexivity| |].
  - apply results_format_no_from. rewrite Hcols. cbn.
    intuition discriminate.
  - now rewrite Hcols.
Qed.

(** X4: a file that has not the layout of a results file and none of the
    required columns is taken for a wide table, of which only the first
    three rows are loaded, those that [pd.read_csv(path, nrows=3)] read on
    line 170: their first column becomes the time index, the wide table
    is stacked, and the stacked table is treated as the frame of a stacked
    file is.  The rows after the third have no effect. *)
Theorem load_timeseries_stacks_first (df : DataFrame) :
  results_format (head3 df) = Ok false ->
  (forall c, In c (columns df) -> ~ In c required_header_timeseries) ->
  load_timeseries df
  = (wide <~ io_lift (wide_frame (head3 df)) ;;
     stacked <~ stack_timeseries wide ;;
     load_timeseries stacked)
  /\ load_timeseries df = load_timeseries (head3 df).
Proof.
  intros Hplain Hnone.
  assert (Hrun := load_timeseries_wide df Hplain Hnone).
  split; [exact Hrun|]. rewrite Hrun. symmetry.
  rewrite <- (head3_twice df) at 2. apply load_timeseries_wide.
  - now rewrite head3_twice.
  - exact Hnone.
Qed.

(** X5: a frame that has not the layout of a results file, has some
    required column and lacks another, [region] apart, is rejected: the
    exception lists the required columns that are missing, without
    [region], and nothing is printed. *)
Theorem load_timeseries_missing_required (df : DataFrame) :
  results_format (head3 df) = Ok false ->
  (exists c, In c (columns df) /\ In c required_header_timeseries) ->
  (exists c, In c required_header_timeseries /\ c <> "region"
             /\ ~ In c (columns df)) ->
  exists missing,
    load_timeseries df = ([], Err (MissingRequiredColumns missing))
    /\ forall c, In c missing
                 <-> In c required_header_timeseries /\ c <> "region"
                     /\ ~ In c (columns df).
Proof.
  intros Hplain [c1 [Hc1 Hreq1]] [c0 [Hreq [Hreg Hnin]]].
  rewrite load_timeseries_eq, Hplain.
  rewrite io_bind_lift_ok. cbv beta iota. rewrite io_bind_ret.
  cbn [head3 columns]. rewrite (@stacked_flag _ _ Hc1 Hreq1). cbn [negb].
  rewrite missing_required_eq.
  assert (Hmem : forall c,
             In c (filter (fun c => negb (mem c (columns df)))
                          df_stacked_cols)
             <-> In c required_header_timeseries /\ c <> "region"
                 /\ ~ In c (columns df)).
  { intros c. rewrite filter_In, negb_true_iff, mem_false_iff.
    cbn [In df_stacked_cols required_header_timeseries]. split.
    - intros [[<-|[<-|[<-|[<-|[<-|[]]]]]] Hc];
        (split; [tauto | split; [discriminate | assumption]]).
    - intros [[<-|Hc] [Hr Hn]]; [congruence | tauto]. }
  destruct (filter _ df_stacked_cols) as [|m missing] eqn:Hf.
  - exfalso. apply (proj2 (Hmem c0)). tauto.
  - eexists. split; [reflexivity | exact Hmem].
Qed.

(** X6: columns are added only to a frame whose columns are exactly the
    required ones, with or without [region], in the order of the header.
    Any other frame that has the required columns, and not the layout of
    a results file, is returned as it is, in the order of the header, when
    it has every column of the header; when it lacks one, be it optional,
    [load_timeseries] fails with the [KeyError] of a column that it
    lacks. *)
Theorem load_timeseries_no_partial_completion (df : DataFrame) :
  results_format (head3 df) = Ok false ->
  (forall c, In c df_stacked_cols -> In c (columns df)) ->
  columns df <> required_header_timeseries ->
  columns df <> df_stacked_cols ->
  ((forall c, In c header_timeseries -> In c (columns df)) ->
   exists out,
     load_timeseries df = ([], Ok out)
     /\ columns out = header_timeseries
     /\ length (rows out) = length (rows df)
     /\ forall c, In c header_timeseries -> col_of out c = col_of df c)
  /\ ((exists c, In c header_timeseries /\ ~ In c (columns df)) ->
      exists c,
        load_timeseries df = ([], Err (PyKeyError c))
        /\ In c header_timeseries /\ ~ In c (columns df)).
Proof.
  intros Hplain Hall Hreq Hwithout.
  rewrite load_timeseries_stacked by assumption.
  unfold complete_timeseries.
  change (list_remove "region" required_header_timeseries)
    with (Ok df_stacked_cols).
  rewrite io_bind_lift_ok. cbv beta.
  apply list_eqb_neq in Hreq, Hwithout. rewrite Hreq, Hwithout.
  cbn [orb andb]. rewrite io_bind_ret. split.
  - intros Hheader. rewrite select_all by assumption.
    eexists. split; [reflexivity|]. split; [reflexivity|].
    split; [cbn [rows]; now rewrite length_map|].
    intros c Hc. now apply select_col.
  - intros Hmissing. destruct (@select_missing _ _ Hmissing) as [c [Hsel Hc]].
    exists c. unfold io_lift. now rewrite Hsel.
Qed.

(** X7: a frame whose columns are exactly the required ones, [region]
    among them, is completed: the result has the columns of the header and
    the rows of the frame, with the cells of the required columns as they
    were ([region] is not derived anew); [id_ts] numbers the rows from 0
    and the other optional columns hold NaN.  Nothing is printed. *)
Theorem load_timeseries_required_header (df : DataFrame) :
  columns df = required_header_timeseries ->
  exists out,
    load_timeseries df = ([], Ok out)
    /\ columns out = header_timeseries
    /\ length (rows out) = length (rows df)
    /\ (forall c, In c required_header_timeseries ->
                  col_of out c = col_of df c)
    /\ col_of out "id_ts" = ids (length (rows df))
    /\ (forall c, In c ["var_unit"; "source"; "comment"] ->
                  col_of out c = nans (length (rows df))).
Proof.
  intros Hcols.
  rewrite load_timeseries_stacked;
    [|apply results_format_no_from; rewrite Hcols; cbn;
      intuition discriminate
     |rewrite Hcols; cbn; tauto].
  unfold complete_timeseries.
  change (list_remove "region" required_header_timeseries)
    with (Ok df_stacked_cols).
  rewrite io_bind_lift_ok. cbv beta. rewrite Hcols.
  change ((list_eqb required_header_timeseries required_header_timeseries
           || list_eqb required_header_timeseries df_stacked_cols)
          && negb (list_eqb required_header_timeseries header_timeseries))
    with true.
  cbv iota.
  change (negb (mem (hd "" optional_header_timeseries)
                    required_header_timeseries)) with true.
  cbv iota.
  change (hd "" optional_header_timeseries) with "id_ts".
  change (map (fun i => VInt (Z.of_nat i)) (seq 0 (length (rows df))))
    with (@ids num (length (rows df))).
  set (df1 := set_column df "id_ts" (ids (length (rows df)))).
  assert (Hcols1 : columns df1 = required_header_timeseries ++ ["id_ts"])
    by (unfold df1, set_column; cbn [columns]; now rewrite Hcols).
  assert (Hlen1 : length (rows df1) = length (rows df))
    by (unfold df1; apply set_column_length, ids_length).
  rewrite Hcols1.
  change (negb (mem (hd "" required_header_timeseries)
                    (required_header_timeseries ++ ["id_ts"]))) with false.
  cbv iota. rewrite !io_bind_ret.
  change (tl optional_header_timeseries)
    with ["var_unit"; "source"; "comment"].
  destruct (fill_missing_spec ["var_unit"; "source"; "comment"] df1)
    as [Hlen [Hcolumns [Hkeep Hadd]]].
  set (df2 := fold_left _ ["var_unit"; "source"; "comment"] df1) in *.
  rewrite select_all.
  2:{ intros c Hc. apply Hcolumns. rewrite Hcols1.
      cbn in Hc |- *. tauto. }
  eexists. split; [reflexivity|]. split; [reflexivity|].
  split; [cbn [rows]; rewrite length_map; congruence|].
  split; [|split].
  - intros c Hc. rewrite select_col by (cbn in Hc |- *; tauto).
    rewrite Hkeep by (left; rewrite Hcols1; apply in_or_app; now left).
    unfold df1. rewrite set_column_col by apply ids_length.
    destruct (String.eqb "id_ts" c) eqn:Hid; [|reflexivity].
    apply String.eqb_eq in Hid. subst c. cbn in Hc.
    exfalso. intuition discriminate.
  - rewrite select_col by (cbn; tauto).
    rewrite Hkeep by (left; rewrite Hcols1; cbn; tauto).
    unfold df1. rewrite set_column_col by apply ids_length.
    reflexivity.
  - intros c Hc. rewrite select_col by (cbn in Hc |- *; tauto).
    rewrite Hadd, Hlen1; [reflexivity | assumption|].
    rewrite Hcols1. cbn in Hc |- *. intuition (subst; discriminate).
Qed.

(** ** df_filtered *)

(** A key that the header check allows is a column of the frame: the
    options are required columns of the schema. *)
Lemma option_is_column (cols : list string) (k : kind) (key : string) :
  classify cols = Ok k ->
  mem key (filter_options k) = true \/ mem key (agg_options k) = true ->
  mem key cols = true.
Proof.
  intros Hk Hopt. destruct k.
  - apply (scalars_has_required _ Hk).
    destruct Hopt as [Hopt|Hopt]; apply mem_true_iff in Hopt;
      cbn in Hopt |- *; tauto.
  - apply (timeseries_has_required _ Hk).
    destruct Hopt as [Hopt|Hopt]; apply mem_true_iff in Hopt;
      cbn in Hopt |- *; tauto.
Qed.

Lemma classify_cases (cols : list string) :
  (exists k, classify cols = Ok k)
  \/ classify cols = Err (UnrecognizedSchema header_timeseries header_scalars).
Proof.
  rewrite classify_eq. cbv zeta.
  destruct (list_eqb _ required_header_scalars); [left; now eexists|].
  destruct (list_eqb _ required_header_timeseries); [left; now eexists|].
  now right.
Qed.

(** X8: [df_filtered] raises in two cases only: the header of the frame is
    that of neither schema, or the key is no filter option of its schema.
    Nothing is printed before it raises, and the third check, that the key
    is a column of the frame, never fires. *)
Theorem df_filtered_errors (df : DataFrame) (key : string)
        (values : list string) (e : error) :
  snd (df_filtered df key values) = Err e ->
  fst (df_filtered df key values) = []
  /\ (e = UnrecognizedSchema header_timeseries header_scalars
      \/ exists k, classify (columns df) = Ok k
                   /\ mem key (filter_options k) = false
                   /\ e = InvalidFilterKey key (filter_options k)).
Proof.
  unfold df_filtered.
  destruct (classify_cases (columns df)) as [[k Hk]|Hk]; rewrite Hk.
  - rewrite io_bind_lift_ok.
    destruct (mem key (filter_options k)) eqn:Hopt; cbn [negb].
    + rewrite (@option_is_column _ _ _ Hk (or_introl Hopt)). cbn [negb].
      destruct (io_fold_filter_value df key values
                  {| columns := columns df; rows := [] |}
                  (@option_is_column _ _ _ Hk (or_introl Hopt)))
        as [out [-> _]].
      discriminate.
    + cbn. intros He. injection He as <-. split; [reflexivity|].
      right. exists k. now repeat split.
  - cbn. intros He. injection He as <-. split; [reflexivity|]. now left.
Qed.

Lemma append_known_row (acc : DataFrame) (r : row) :
  (forall c, In c (map fst r) -> In c (columns acc)) ->
  columns (append acc r) = columns acc.
Proof.
  intros Hr. unfold append. cbn [columns].
  now rewrite filter_none, app_nil_r.
Qed.

Lemma filter_value_columns (df : DataFrame) (key v : string)
      (acc acc' : DataFrame) (out : list notice) :
  well_formed df -> columns acc = columns df ->
  filter_value df key acc v = (out, Ok acc') ->
  columns acc' = columns df.
Proof.
  intros Hwf Hacc. unfold filter_value.
  destruct (column df key) as [col|e]; [|discriminate].
  rewrite io_bind_lift_ok.
  destruct (negb (existsb (value_eqb (VStr v)) col)).
  - cbn. intros Hrun. now injection Hrun as _ <-.
  - unfold io_lift. intros Hrun. injection Hrun as _ Hrun.
    revert Hrun.
    apply (foldM_invariant (fun a => columns a = columns df)); [|exact Hacc].
    intros a r a' Hr Ha.
    destruct (cell df key r) as [c|e]; [|discriminate]. cbn [bind].
    match goal with
    | |- (if ?b then _ else _) = _ -> _ => destruct b
    end; intros Hstep; injection Hstep as <-; [|exact Ha].
    rewrite append_known_row; [exact Ha|].
    intros c0 Hc0. rewrite Ha. now apply (Hwf r).
Qed.

Lemma io_fold_filter_columns (df : DataFrame) (key : string)
      (values : list string) (acc acc' : DataFrame) (out : list notice) :
  well_formed df -> columns acc = columns df ->
  io_fold (filter_value df key) values acc = (out, Ok acc') ->
  columns acc' = columns df.
Proof.
  intros Hwf. revert acc out.
  induction values as [|v values IH]; intros acc out Hacc.
  - cbn. intros Hrun. now injection Hrun as _ <-.
  - cbn [io_fold].
    destruct (filter_value df key acc v) as [out1 [acc1|e]] eqn:Hv;
      [|discriminate].
    unfold io_bind.
    destruct (io_fold (filter_value df key) values acc1)
      as [out2 [acc2|e]] eqn:Hrest; [|discriminate].
    intros Hrun. injection Hrun as _ <-.
    apply (IH acc1 out2); [|exact Hrest].
    eapply filter_value_columns; eassumption.
Qed.

Lemma matches_unique (key v w : string) (r : row) :
  matches key v r = true -> matches key w r = true -> v = w.
Proof.
  unfold matches. intros Hv Hw. apply value_eqb_str in Hv, Hw.
  congruence.
Qed.

Lemma filter_distinct_values (key v w : string) (l : list row) :
  v <> w -> filter (matches key v) (filter (matches key w) l) = [].
Proof.
  intros Hvw. induction l as [|r l IHl]; [reflexivity|]. cbn [filter].
  destruct (matches key w r) eqn:Hw; [|exact IHl]. cbn [filter].
  destruct (matches key v r) eqn:Hv; [|exact IHl].
  exfalso. apply Hvw. exact (matches_unique _ _ _ _ Hv Hw).
Qed.

Lemma filter_other_value (key v : string) (values : list string)
      (l : list row) :
  ~ In v values ->
  filter (matches key v)
         (flat_map (fun w => filter (matches key w) l) values) = [].
Proof.
  intros Hnin. induction values as [|w values IH]; [reflexivity|].
  cbn [flat_map]. rewrite filter_app, IH by (cbn in Hnin; tauto).
  rewrite app_nil_r. apply filter_distinct_values.
  intros ->. apply Hnin. now left.
Qed.

Lemma filter_twice {A : Type} (p : A -> bool) (l : list A) :
  filter p (filter p l) = filter p l.
Proof.
  induction l as [|x l IH]; [reflexivity|]. cbn [filter].
  destruct (p x) eqn:Hp; [|exact IH]. cbn [filter]. now rewrite Hp, IH.
Qed.

(** Among the rows that the scans for distinct values return, the rows of
    a listed value are those of the table. *)
Lemma filter_listed_value (key v : string) (values : list string)
      (l : list row) :
  NoDup values -> In v values ->
  filter (matches key v)
         (flat_map (fun w => filter (matches key w) l) values)
  = filter (matches key v) l.
Proof.
  intros Hnd. induction Hnd as [|w values Hnin Hnd IH]; intros Hv.
  - contradiction.
  - cbn [flat_map]. rewrite filter_app. destruct Hv as [->|Hv].
    + now rewrite filter_twice, filter_other_value, app_nil_r.
    + rewrite IH by assumption.
      rewrite filter_distinct_values; [reflexivity|].
      intros ->. contradiction.
Qed.

Lemma existsb_filter {A : Type} (p : A -> bool) (l : list A) :
  existsb p l = negb (Nat.eqb (length (filter p l)) 0).
Proof.
  induction l as [|x l IH]; [reflexivity|]. cbn [existsb filter].
  destruct (p x); [reflexivity | exact IH].
Qed.

Lemma flat_map_ext_listed {A B : Type} (f g : A -> list B) (l : list A) :
  (forall x, In x l -> f x = g x) -> flat_map f l = flat_map g l.
Proof.
  induction l as [|x l IH]; intros Hfg; [reflexivity|]. cbn [flat_map].
  rewrite (Hfg x) by now left.
  rewrite IH; [reflexivity|]. intros y Hy. apply Hfg. now right.
Qed.

(** X9: filtering is idempotent.  When the values are distinct, filtering
    the table that [df_filtered] returned, by the same key and values,
    returns that table again, and prints the same notices again. *)
Theorem df_filtered_idempotent (df : DataFrame) (key : string)
        (values : list string) (notices : list notice) (out : DataFrame) :
  well_formed df -> NoDup values ->
  df_filtered df key values = (notices, Ok out) ->
  df_filtered out key values = (notices, Ok out).
Proof.
  intros Hwf Hnd. unfold df_filtered at 1.
  destruct (classify (columns df)) as [k|e] eqn:Hk; [|discriminate].
  rewrite io_bind_lift_ok.
  destruct (mem key (filter_options k)) eqn:Hopt; [|discriminate].
  assert (Hkey := @option_is_column _ _ _ Hk (or_introl Hopt)).
  rewrite Hkey. cbn [negb]. intros Hrun.
  assert (Hcols : columns out = columns df).
  { eapply io_fold_filter_columns; [exact Hwf | | exact Hrun]. reflexivity. }
  destruct (io_fold_filter_value df key values
              {| columns := columns df; rows := [] |} Hkey)
    as [out1 [Hrun1 Hrows1]].
  rewrite Hrun in Hrun1. injection Hrun1 as Hnotices <-.
  cbn [rows app] in Hrows1.
  unfold df_filtered. rewrite Hcols, Hk, io_bind_lift_ok, Hopt, Hkey.
  cbn [negb].
  assert (Hkey' : mem key (columns out) = true) by now rewrite Hcols.
  destruct (io_fold_filter_value out key values
              {| columns := columns df; rows := [] |} Hkey')
    as [out2 [Hrun2 Hrows2]].
  rewrite Hrun2. cbn [rows app] in Hrows2.
  assert (Hsame : forall v, In v values ->
                            filter (matches key v) (rows out)
                            = filter (matches key v) (rows df)).
  { intros v Hv. rewrite Hrows1. now apply filter_listed_value. }
  f_equal.
  - rewrite Hnotices. f_equal. apply filter_ext_in. intros v Hv.
    unfold found. now rewrite !existsb_filter, Hsame.
  - f_equal.
    assert (Hcols2 : columns out2 = columns out).
    { eapply io_fold_filter_columns; [| |exact Hrun2].
      - intros r Hr c Hc. rewrite Hcols. apply (Hwf r); [|exact Hc].
        rewrite Hrows1 in Hr. apply in_flat_map in Hr.
        destruct Hr as [v [_ Hr]]. now apply filter_In in Hr.
      - now rewrite Hcols. }
    assert (Hrows : rows out2 = rows out).
    { rewrite Hrows2.
      transitivity (flat_map (fun v => filter (matches key v) (rows df))
                             values);
        [now apply flat_map_ext_listed | now symmetry]. }
    destruct out2, out. cbn in *. congruence.
Qed.

(** ** df_agg *)

Lemma dict_get_error (d : results_dict) (k : string) (e : error) :
  dict_get d k = Err e -> e = PyKeyError k.
Proof.
  induction d as [|[k' x] d IH]; cbn [dict_get].
  - intros He. now injection He as <-.
  - destruct (String.eqb k' k); [discriminate | exact IH].
Qed.

Ltac raised :=
  repeat match goal with
         | |- context [bind ?m _] => destruct m eqn:?; cbn [bind]
         | |- (if ?b then _ else _) = _ -> _ => destruct b eqn:?
         | |- (let (_, _) := ?p in _) = _ -> _ => destruct p eqn:?
         | |- Ok _ = Err _ -> _ => discriminate
         | |- Err _ = Err _ -> _ =>
             let He := fresh "He" in intros He; injection He as <-
         end.

Lemma cell_error (df : DataFrame) (c : string) (r : row) (e : error) :
  cell df c r = Err e -> is_missing_column e = false.
Proof. unfold cell. raised. reflexivity. Qed.

Lemma column_error (df : DataFrame) (c : string) (e : error) :
  column df c = Err e -> is_missing_column e = false.
Proof. unfold column. raised. reflexivity. Qed.

Lemma dict_update_error (df : DataFrame) (d : results_dict) (k : string)
      (r : row) (e : error) :
  dict_add df d k r = Err e \/ dict_sub df d k r = Err e ->
  is_missing_column e = false.
Proof.
  unfold dict_add, dict_sub.
  intros [He|He]; revert He;
    (destruct (dict_get d k) as [x|e'] eqn:Hget; cbn [bind];
     [|intros He; injection He as <-;
       now rewrite (dict_get_error _ _ Hget)]);
    (destruct (cell df "var_value" r) as [c|e'] eqn:Hcell; cbn [bind];
     [|intros He; injection He as <-; exact (cell_error _ _ _ Hcell)]);
    destruct c; cbn; intros He; try discriminate;
    now injection He as <-.
Qed.

Lemma in_out_error (df : DataFrame) (d : results_dict)
      (bucket var_name : string) (r : row) (e : error) :
  in_out df d bucket var_name r = Err e -> is_missing_column e = false.
Proof.
  unfold in_out.
  destruct (str_in "in" var_name);
    [|destruct (str_in "out" var_name); [|discriminate]];
    intros He; eapply dict_update_error; eauto.
Qed.

Lemma agg_scalar_row_error (df : DataFrame) (key : string) (d : results_dict)
      (r : row) (e : error) :
  agg_scalar_row df key d r = Err e -> is_missing_column e = false.
Proof.
  unfold agg_scalar_row.
  destruct (cell df "var_name" r) as [c|e'] eqn:Hcell; cbn [bind];
    [|intros He; injection He as <-; exact (cell_error _ _ _ Hcell)].
  destruct (as_str c) as [var_name|e'] eqn:Hstr; cbn [bind];
    [|intros He; injection He as <-; destruct c; cbn in Hstr;
      try discriminate; now injection Hstr as <-].
  destruct (str_in "capacity" var_name).
  { intros He. eapply dict_update_error; eauto. }
  destruct (str_in "flow" var_name).
  { destruct (nth_error (split "_" var_name) 2); cbn [bind];
      [|intros He; now injection He as <-].
    destruct (negb (str_in "carrier" key) && negb (str_in "tech" key)).
    - apply in_out_error.
    - destruct (cell df "carrier" r) as [cc|e'] eqn:Hcc; cbn [bind];
        [|intros He; injection He as <-; exact (cell_error _ _ _ Hcc)].
      destruct (as_str cc) as [carrier|e'] eqn:Hcarrier; cbn [bind];
        [apply in_out_error|].
      intros He; injection He as <-; destruct cc; cbn in Hcarrier;
        try discriminate; now injection Hcarrier as <-. }
  destruct (str_in "costs" var_name); [apply in_out_error|].
  destruct (str_in "invest" var_name); [apply in_out_error|].
  destruct (str_in "losses" var_name).
  { intros He. eapply dict_update_error; eauto. }
  intros He. now injection He as <-.
Qed.

Lemma agg_scalars_error (df : DataFrame) (key : string)
      (key_list : list value) (acc : DataFrame) (e : error) :
  agg_scalars df key key_list acc = Err e -> is_missing_column e = false.
Proof.
  unfold agg_scalars.
  destruct (column df "scenario") as [scenarios|e'] eqn:Hcol; cbn [bind];
    [|intros He; injection He as <-; exact (column_error _ _ Hcol)].
  apply (foldM_error (fun e => is_missing_column e = false)).
  intros out scenario e1.
  apply (foldM_error (fun e => is_missing_column e = false)).
  intros out2 key_item e2.
  destruct (agg_scalar_group df key scenario key_item) as [d|e'] eqn:Hgroup;
    cbn [bind].
  - apply (foldM_error (fun e => is_missing_column e = false)).
    intros out3 [dict_key dict_item] e3. unfold new_scalar_row.
    destruct (String.eqb key "region"); [discriminate|].
    destruct (String.eqb key "carrier"); [discriminate|].
    destruct (String.eqb key "tech"); [discriminate|].
    cbn [bind]. intros He. now injection He as <-.
  - intros He. injection He as <-. revert Hgroup. unfold agg_scalar_group.
    apply (foldM_error (fun e => is_missing_column e = false)).
    intros d r e3.
    destruct (cell df "scenario" r) as [s|e4] eqn:Hs; cbn [bind];
      [|intros He; injection He as <-; exact (cell_error _ _ _ Hs)].
    destruct (cell df key r) as [c|e4] eqn:Hc; cbn [bind];
      [|intros He; injection He as <-; exact (cell_error _ _ _ Hc)].
    destruct (value_eqb s scenario && value_eqb c key_item);
      [apply agg_scalar_row_error | discriminate].
Qed.

Lemma cell0_error (df : DataFrame) (c : string) (e : error) :
  cell0 df c = Err e -> is_missing_column e = false.
Proof.
  unfold cell0. destruct (rows df); [|apply cell_error].
  destruct (mem c (columns df)); intros He; now injection He as <-.
Qed.

Lemma as_list_error (v : value) (e : error) :
  as_list v = Err e -> is_missing_column e = false.
Proof.
  destruct v; cbn; intros He; try discriminate; now injection He as <-.
Qed.

Lemma np_add_error (a b : list num) (e : error) :
  np_add a b = Err e -> is_missing_column e = false.
Proof.
  unfold np_add. destruct (Nat.eqb (length a) (length b)); [discriminate|].
  destruct a as [|x [|x' a]], b as [|y [|y' b]]; try discriminate;
    intros He; now injection He as <-.
Qed.

Lemma agg_timeseries_error (df : DataFrame) (key : string)
      (key_list : list value) (acc : DataFrame) (e : error) :
  agg_timeseries df key key_list acc = Err e -> is_missing_column e = false.
Proof.
  unfold agg_timeseries.
  apply (foldM_error (fun e => is_missing_column e = false)).
  intros out key_item e1.
  destruct (agg_series_group df key key_item) as [d|e'] eqn:Hgroup;
    cbn [bind].
  - destruct (cell0 df "timeindex_start") as [c1|e'] eqn:H1; cbn [bind];
      [|intros He; injection He as <-; exact (cell0_error _ _ H1)].
    destruct (cell0 df "timeindex_stop") as [c2|e'] eqn:H2; cbn [bind];
      [|intros He; injection He as <-; exact (cell0_error _ _ H2)].
    destruct (cell0 df "timeindex_resolution") as [c3|e'] eqn:H3;
      cbn [bind];
      [|intros He; injection He as <-; exact (cell0_error _ _ H3)].
    destruct d; cbn [bind]; [discriminate|].
    intros He. now injection He as <-.
  - intros He. injection He as <-. revert Hgroup. unfold agg_series_group.
    apply (foldM_error (fun e => is_missing_column e = false)).
    intros d r e3.
    destruct (cell df key r) as [c|e4] eqn:Hc; cbn [bind];
      [|intros He; injection He as <-; exact (cell_error _ _ _ Hc)].
    destruct (value_eqb c key_item); [|discriminate].
    assert (Hacc : forall sum0,
               (c1 <- cell df "series" r ;;
                s <- as_list c1 ;;
                sum <- np_add sum0 s ;; Ok (Some sum)) = Err e3 ->
               is_missing_column e3 = false).
    { intros sum0.
      destruct (cell df "series" r) as [c1|e4] eqn:Hs; cbn [bind];
        [|intros He; injection He as <-; exact (cell_error _ _ _ Hs)].
      destruct (as_list c1) as [s|e4] eqn:Hl; cbn [bind];
        [|intros He; injection He as <-; exact (as_list_error _ Hl)].
      destruct (np_add sum0 s) as [sum|e4] eqn:Hadd; cbn [bind];
        [discriminate|].
      intros He; injection He as <-; exact (np_add_error _ _ Hadd). }
    destruct d as [s0|]; cbn [bind]; [apply Hacc|].
    destruct (cell0 df "series") as [c0|e4] eqn:H0; cbn [bind];
      [|intros He; injection He as <-; exact (cell0_error _ _ H0)].
    destruct (as_list c0) as [s0|e4] eqn:Hl0; cbn [bind];
      [apply Hacc|].
    intros He; injection He as <-; exact (as_list_error _ Hl0).
Qed.

(** X10: [df_agg] never raises the exception of its third check, that the
    key is a column of the frame: a key that passes the second check is a
    required column of the schema, which the first check has found in the
    header, and nothing that the aggregation itself raises is that
    exception. *)
Theorem df_agg_key_is_column (df : DataFrame) (key : string) (e : error) :
  df_agg df key = Err e -> is_missing_column e = false.
Proof.
  unfold df_agg.
  destruct (classify_cases (columns df)) as [[k Hk]|Hk]; rewrite Hk;
    cbn [bind]; [|intros He; now injection He as <-].
  destruct (mem key (agg_options k)) eqn:Hopt; cbn [negb];
    [|intros He; now injection He as <-].
  rewrite (@option_is_column _ _ _ Hk (or_intror Hopt)). cbn [negb].
  destruct (column df key) as [keys|e'] eqn:Hcol; cbn [bind];
    [|intros He; injection He as <-; exact (column_error _ _ Hcol)].
  destruct k; [apply agg_scalars_error | apply agg_timeseries_error].
Qed.

(** *** The scalar aggregation as a function of the rows *)

Lemma dict_get_set_same (d : results_dict) (k : string) (x : num) :
  dict_get (dict_set d k x) k = Ok x.
Proof.
  induction d as [|[k' y] d IH]; cbn [dict_set dict_get].
  - now rewrite String.eqb_refl.
  - destruct (String.eqb k' k) eqn:Hk; cbn [dict_get]; now rewrite Hk.
Qed.

Lemma dict_get_set_other (d : results_dict) (k k' : string) (x : num) :
  k <> k' -> dict_get (dict_set d k x) k' = dict_get d k'.
Proof.
  intros Hne. induction d as [|[k0 y] d IH]; cbn [dict_set dict_get].
  - apply String.eqb_neq in Hne. now rewrite Hne.
  - destruct (String.eqb k0 k) eqn:Hk; cbn [dict_get].
    + apply String.eqb_eq in Hk. subst k0.
      apply String.eqb_neq in Hne. now rewrite Hne.
    + now rewrite IH.
Qed.

Lemma dict_set_set (d : results_dict) (k : string) (x y : num) :
  dict_set (dict_set d k x) k y = dict_set d k y.
Proof.
  induction d as [|[k' z] d IH]; cbn [dict_set].
  - now rewrite String.eqb_refl.
  - destruct (String.eqb k' k) eqn:Hk; cbn [dict_set]; rewrite Hk;
      [reflexivity | now rewrite IH].
Qed.

Lemma dict_set_same (d : results_dict) (k : string) (x : num) :
  dict_get d k = Ok x -> dict_set d k x = d.
Proof.
  induction d as [|[k' z] d IH]; cbn [dict_set dict_get]; [discriminate|].
  destruct (String.eqb k' k).
  - intros Hx. now injection Hx as ->.
  - intros Hx. now rewrite IH.
Qed.

Lemma dict_lookup_new (d : results_dict) (k : string) :
  dict_has d k = false -> dict_lookup d k = nzero.
Proof.
  unfold dict_has, dict_lookup.
  induction d as [|[k' z] d IH]; cbn [map fst mem existsb dict_get];
    [reflexivity|].
  rewrite (String.eqb_sym k k').
  destruct (String.eqb k' k); [discriminate|].
  exact IH.
Qed.

Lemma dict_set_keys (d : results_dict) (k : string) (x : num) :
  map fst (dict_set d k x)
  = if dict_has d k then map fst d else map fst d ++ [k].
Proof.
  unfold dict_has.
  induction d as [|[k' z] d IH]; cbn [dict_set map fst mem existsb app];
    [reflexivity|].
  rewrite (String.eqb_sym k k').
  destruct (String.eqb k' k); cbn [orb map fst].
  - reflexivity.
  - rewrite IH. unfold mem. now destruct (existsb _ (map fst d)).
Qed.

(** Creating the entry with zero when it is new is an update that changes
    no number. *)
Lemma dict_ensure (d : results_dict) (k : string) :
  (if negb (dict_has d k) then dict_set d k nzero else d)
  = dict_set d k (dict_lookup d k).
Proof.
  destruct (dict_has d k) eqn:Hhas; cbn [negb].
  - destruct (dict_get_has d k Hhas) as [x Hx].
    unfold dict_lookup. rewrite Hx. symmetry. now apply dict_set_same.
  - now rewrite dict_lookup_new.
Qed.

Lemma dict_add_update (df : DataFrame) (d : results_dict) (k : string)
      (r : row) :
  mem "var_value" (columns df) = true ->
  is_num (row_get r "var_value") = true ->
  dict_add df (dict_set d k (dict_lookup d k)) k r
  = Ok (dict_update d k (fun x => nadd x (value_of r))).
Proof.
  intros Hcol Hnum. unfold dict_add, dict_update.
  rewrite dict_get_set_same. cbn [bind].
  rewrite cell_in by assumption. cbn [bind]. unfold value_of.
  destruct (row_get r "var_value"); try discriminate. cbn [as_num bind].
  now rewrite dict_set_set.
Qed.

Lemma dict_sub_update (df : DataFrame) (d : results_dict) (k : string)
      (r : row) :
  mem "var_value" (columns df) = true ->
  is_num (row_get r "var_value") = true ->
  dict_sub df (dict_set d k (dict_lookup d k)) k r
  = Ok (dict_update d k (fun x => nsub x (value_of r))).
Proof.
  intros Hcol Hnum. unfold dict_sub, dict_update.
  rewrite dict_get_set_same. cbn [bind].
  rewrite cell_in by assumption. cbn [bind]. unfold value_of.
  destruct (row_get r "var_value"); try discriminate. cbn [as_num bind].
  now rewrite dict_set_set.
Qed.

Lemma in_out_update (df : DataFrame) (d : results_dict)
      (b var_name : string) (r : row) :
  mem "var_value" (columns df) = true ->
  is_num (row_get r "var_value") = true ->
  in_out df d b var_name r
  = Ok (dict_update d b
          (fun x => if str_in "in" var_name then nadd x (value_of r)
                    else if str_in "out" var_name then nsub x (value_of r)
                    else x)).
Proof.
  intros Hcol Hnum. unfold in_out. rewrite dict_ensure.
  destruct (str_in "in" var_name); [now apply dict_add_update|].
  destruct (str_in "out" var_name); [now apply dict_sub_update|].
  reflexivity.
Qed.

(** What a row that is taken in does to the dictionary of its group. *)
Lemma agg_scalar_row_update (df : DataFrame) (key : string)
      (d : results_dict) (r : row) :
  classify (columns df) = Ok Scalars ->
  typed_scalar_row r = true ->
  summable r = true ->
  agg_scalar_row df key d r
  = Ok (dict_update d (bucket key r) (contribution r)).
Proof.
  intros Hk Ht Hsum.
  assert (Hvalue : mem "var_value" (columns df) = true)
    by (apply (scalars_has_required _ Hk); simpl; tauto).
  assert (Hname : mem "var_name" (columns df) = true)
    by (apply (scalars_has_required _ Hk); simpl; tauto).
  assert (Hcarrier : mem "carrier" (columns df) = true)
    by (apply (scalars_has_required _ Hk); simpl; tauto).
  destruct (typed_scalar_row_cells r Ht)
    as [_ [Hvn [Hca [_ [_ Hnum]]]]].
  unfold summable in Hsum. apply andb_true_iff in Hsum.
  destruct Hsum as [Hknown Hflowok].
  unfold agg_scalar_row, bucket, contribution.
  unfold known, flow_has_carrier in Hknown, Hflowok.
  rewrite cell_in by assumption. cbn [bind].
  destruct (is_str_inv _ Hvn) as [v Hv].
  unfold var_name_of in *. rewrite Hv in *. cbn [as_str bind]. cbv zeta.
  destruct (str_in "capacity" v) eqn:Hcap.
  { rewrite dict_ensure. now apply dict_add_update. }
  destruct (str_in "flow" v) eqn:Hflow; cbn [orb negb] in *.
  { apply Nat.leb_le in Hflowok.
    rewrite (nth_error_nth' (split "_" v) ""%string) by lia. cbn [bind].
    destruct (negb (str_in "carrier" key) && negb (str_in "tech" key)).
    - now apply in_out_update.
    - rewrite cell_in by assumption. cbn [bind].
      destruct (is_str_inv _ Hca) as [ca ->]. cbn [as_str bind text_of].
      now apply in_out_update. }
  destruct (str_in "costs" v) eqn:Hcosts; cbn [orb] in *.
  { now apply in_out_update. }
  destruct (str_in "invest" v) eqn:Hinvest; cbn [orb] in *.
  { now apply in_out_update. }
  rewrite Hknown. rewrite dict_ensure. now apply dict_add_update.
Qed.

(** The row loop of one group is a fold of updates over the rows of the
    group. *)
Lemma agg_scalar_group_fold (df : DataFrame) (key : string)
      (scenario key_item : value) (l : list row) (d : results_dict) :
  classify (columns df) = Ok Scalars ->
  mem key (columns df) = true ->
  (forall r, In r l -> typed_scalar_row r = true /\ summable r = true) ->
  foldM (fun d r =>
           s <- cell df "scenario" r ;;
           k <- cell df key r ;;
           if value_eqb s scenario && value_eqb k key_item
           then agg_scalar_row df key d r
           else Ok d) l d
  = Ok (fold_left (fun d r => dict_update d (bucket key r) (contribution r))
                  (filter (in_group key scenario key_item) l) d).
Proof.
  intros Hk Hkey.
  assert (Hscen : mem "scenario" (columns df) = true)
    by (apply (scalars_has_required _ Hk); simpl; tauto).
  revert d. induction l as [|r l IH]; intros d Hl; [reflexivity|].
  cbn [foldM filter]. rewrite !cell_in by assumption. cbn [bind].
  fold (in_group key scenario key_item r).
  destruct (in_group key scenario key_item r).
  - destruct (Hl r (or_introl eq_refl)) as [Ht Hs].
    rewrite agg_scalar_row_update by assumption. cbn [bind fold_left].
    apply IH. intros r0 Hr0. apply Hl. now right.
  - cbn [bind]. apply IH. intros r0 Hr0. apply Hl. now right.
Qed.

Lemma dict_update_keys (d : results_dict) (k : string) (f : num -> num) :
  map fst (dict_update d k f)
  = if mem k (map fst d) then map fst d else map fst d ++ [k].
Proof. unfold dict_update. apply dict_set_keys. Qed.

Lemma dict_update_lookup (d : results_dict) (k b : string)
      (f : num -> num) :
  dict_lookup (dict_update d k f) b
  = if String.eqb k b then f (dict_lookup d k) else dict_lookup d b.
Proof.
  unfold dict_update, dict_lookup at 1.
  destruct (String.eqb k b) eqn:Hkb.
  - apply String.eqb_eq in Hkb. subst b. now rewrite dict_get_set_same.
  - apply String.eqb_neq in Hkb. now rewrite dict_get_set_other.
Qed.

Lemma update_fold_keys (key : string) (rs : list row) (d : results_dict) :
  map fst (fold_left (fun d r => dict_update d (bucket key r)
                                   (contribution r)) rs d)
  = fold_left (fun seen x => if mem x seen then seen else seen ++ [x])
              (map (bucket key) rs) (map fst d).
Proof.
  revert d. induction rs as [|r rs IH]; intros d; [reflexivity|].
  cbn [fold_left map]. now rewrite IH, dict_update_keys.
Qed.

Lemma update_fold_lookup (key : string) (rs : list row) (d : results_dict)
      (b : string) :
  dict_lookup (fold_left (fun d r => dict_update d (bucket key r)
                                       (contribution r)) rs d) b
  = fold_left (fun x r => contribution r x)
              (filter (fun r => String.eqb (bucket key r) b) rs)
              (dict_lookup d b).
Proof.
  revert d. induction rs as [|r rs IH]; intros d; [reflexivity|].
  cbn [fold_left filter]. rewrite IH, dict_update_lookup.
  destruct (String.eqb (bucket key r) b) eqn:Hb; [|reflexivity].
  apply String.eqb_eq in Hb. now subst b.
Qed.

Lemma distinct_loop_NoDup (l seen : list string) :
  NoDup seen ->
  NoDup (fold_left (fun seen x => if mem x seen then seen else seen ++ [x])
                   l seen).
Proof.
  revert seen. induction l as [|x l IH]; intros seen Hnd; [exact Hnd|].
  cbn [fold_left]. apply IH. destruct (mem x seen) eqn:Hx; [exact Hnd|].
  apply mem_false_iff in Hx. apply NoDup_app; [exact Hnd | | ].
  - repeat constructor. intros [].
  - intros y Hy [<-|[]]. contradiction.
Qed.

(** A dictionary with distinct keys lists, for each key in order, the
    number under the key. *)
Lemma dict_entries (d : results_dict) :
  NoDup (map fst d) ->
  d = map (fun b => (b, dict_lookup d b)) (map fst d).
Proof.
  induction d as [|[k x] d IH]; intros Hnd; [reflexivity|].
  cbn [map fst] in *. inversion Hnd as [|? ? Hnin Hnd']; subst.
  unfold dict_lookup at 1. cbn [dict_get]. rewrite String.eqb_refl.
  f_equal. rewrite IH at 1 by assumption. apply map_ext_in.
  intros b Hb. f_equal. unfold dict_lookup. cbn [dict_get].
  destruct (String.eqb k b) eqn:Hkb; [|reflexivity].
  apply String.eqb_eq in Hkb. now subst b.
Qed.

(** The dictionary of a group: its entries in the order of their first
    row, each with the contributions of its rows. *)
Lemma group_entries (key : string) (rs : list row) :
  fold_left (fun d r => dict_update d (bucket key r) (contribution r))
            rs ([] : results_dict)
  = map (fun b => (b, entry_total key rs b))
        (distinct (map (bucket key) rs)).
Proof.
  set (d := fold_left (fun d r => dict_update d (bucket key r)
                                   (contribution r)) rs []).
  assert (Hkeys : map fst d = distinct (map (bucket key) rs))
    by (unfold d; now rewrite update_fold_keys).
  assert (Hnd : NoDup (map fst d)).
  { rewrite Hkeys. apply distinct_loop_NoDup. constructor. }
  rewrite (dict_entries d Hnd), Hkeys. apply map_ext. intros b.
  f_equal. unfold d. now rewrite update_fold_lookup.
Qed.

Lemma new_scalar_row_eq (key : string) (scenario key_item : value)
      (dict_key : string) (dict_item : num) :
  mem key (agg_options Scalars) = true ->
  new_scalar_row key scenario key_item dict_key dict_item
  = Ok (aggregated_scalar_row key scenario key_item dict_key dict_item).
Proof.
  intros Hkey. apply mem_true_iff in Hkey.
  destruct Hkey as [<-|[<-|[<-|[]]]]; reflexivity.
Qed.

Lemma emit_entries (key : string) (scenario key_item : value)
      (d : results_dict) (out : DataFrame) :
  mem key (agg_options Scalars) = true ->
  exists out',
    foldM (fun out (entry : string * num) =>
             let (dict_key, dict_item) := entry in
             new_row <- new_scalar_row key scenario key_item
                                       dict_key dict_item ;;
             Ok (append out new_row))
          d out = Ok out'
    /\ rows out'
       = rows out
         ++ map (fun entry : string * num =>
                   aggregated_scalar_row key scenario key_item
                                         (fst entry) (snd entry)) d.
Proof.
  intros Hkey. revert out.
  induction d as [|[dict_key dict_item] d IH]; intros out; cbn [foldM].
  - exists out. cbn. now rewrite app_nil_r.
  - rewrite new_scalar_row_eq by assumption. cbn [bind].
    destruct (IH (append out
                    (aggregated_scalar_row key scenario key_item
                                           dict_key dict_item)))
      as [out' [Hrun Hrows]].
    exists out'. split; [exact Hrun|]. rewrite Hrows.
    cbn [append rows map fst snd]. now rewrite <- app_assoc.
Qed.

(** A loop whose iterations each append rows appends them all. *)
Lemma foldM_flat_map {B : Type} (f : DataFrame -> B -> result DataFrame)
      (g : B -> list row) (l : list B) :
  (forall out x, exists out', f out x = Ok out'
                              /\ rows out' = rows out ++ g x) ->
  forall out, exists out',
    foldM f l out = Ok out' /\ rows out' = rows out ++ flat_map g l.
Proof.
  intros Hstep. induction l as [|x l IH]; intros out; cbn [foldM flat_map].
  - exists out. now rewrite app_nil_r.
  - destruct (Hstep out x) as [out1 [-> Hrows1]]. cbn [bind].
    destruct (IH out1) as [out' [Hrun Hrows]].
    exists out'. split; [exact Hrun|].
    now rewrite Hrows, Hrows1, <- app_assoc.
Qed.

(** The loops of the scalar aggregation, from the empty table. *)
Lemma agg_scalars_runs (df : DataFrame) (key : string) :
  classify (columns df) = Ok Scalars ->
  mem key (agg_options Scalars) = true ->
  forallb typed_scalar_row (rows df) = true ->
  forallb summable (rows df) = true ->
  exists out,
    agg_scalars df key (fromkeys (col_of df key))
                {| columns := columns df; rows := [] |} = Ok out
    /\ rows out = aggregated_scalar_rows df key.
Proof.
  intros Hk Hopt Htyped Hsum.
  rewrite forallb_forall in Htyped, Hsum.
  assert (Hkey := @option_is_column _ _ _ Hk (or_intror Hopt)).
  assert (Hscen : mem "scenario" (columns df) = true)
    by (apply (scalars_has_required _ Hk); simpl; tauto).
  unfold agg_scalars.
  rewrite (column_in df "scenario" Hscen). cbn [bind].
  unfold aggregated_scalar_rows.
  change (map (fun r => row_get r "scenario") (rows df))
    with (col_of df "scenario").
  match goal with
  | |- exists out, foldM ?f ?l ?a = Ok out /\ rows out = flat_map ?g ?l =>
      destruct (@foldM_flat_map _ f g l) with (out := a)
      as [out [Hrun Hrows]]
  end.
  - intros out scenario. cbv beta. apply foldM_flat_map.
    intros out1 key_item. unfold agg_scalar_group.
    rewrite agg_scalar_group_fold by auto. cbn [bind].
    rewrite group_entries.
    destruct (emit_entries key scenario key_item
                (map (fun b => (b, entry_total key
                                     (filter (in_group key scenario key_item)
                                             (rows df)) b))
                     (distinct
                        (map (bucket key)
                             (filter (in_group key scenario key_item)
                                     (rows df))))) out1 Hopt)
      as [out' [Hrun Hrows]].
    exists out'. split; [exact Hrun|]. rewrite Hrows, map_map.
    reflexivity.
  - exists out. split; [exact Hrun|]. exact Hrows.
Qed.

Lemma foldM_ok_each {A B : Type} (f : A -> B -> result A) (l : list B)
      (a a' : A) :
  foldM f l a = Ok a' ->
  forall x, In x l -> exists a1 a2, f a1 x = Ok a2.
Proof.
  revert a. induction l as [|y l IH]; intros a Hrun x Hx; [contradiction|].
  cbn [foldM] in Hrun.
  destruct (f a y) as [a1|e] eqn:Hf; [|discriminate]. cbn [bind] in Hrun.
  destruct Hx as [->|Hx]; [now exists a, a1 | exact (IH a1 Hrun x Hx)].
Qed.

(** X11: the scalar aggregation as a function of the rows.  On a scalar
    table with typed cells whose names all have a category, and a third
    segment when they are flows, [df_agg] returns one row for each entry of
    each group: the scenarios in the order of their first occurrence, the
    key items in that order within a scenario, the entries in the order of
    their first row within a group.  The number of an entry is what the
    rows of the group that go to it contribute, in table order and from
    zero: capacities and losses are added, and a flow, a cost or an
    investment is added when ["in"] occurs in its name, else subtracted
    when ["out"] occurs in it. *)
Theorem scalar_aggregation_totals (df : DataFrame) (key : string) :
  classify (columns df) = Ok Scalars ->
  mem key (agg_options Scalars) = true ->
  forallb typed_scalar_row (rows df) = true ->
  forallb summable (rows df) = true ->
  exists out,
    df_agg df key = Ok out /\ rows out = aggregated_scalar_rows df key.
Proof.
  intros Hk Hopt Htyped Hsum.
  assert (Hkey := @option_is_column _ _ _ Hk (or_intror Hopt)).
  unfold df_agg. rewrite Hk. cbn [bind]. rewrite Hopt, Hkey. cbn [negb].
  rewrite (column_in df key Hkey). cbn [bind].
  change (map (fun r => row_get r key) (rows df)) with (col_of df key).
  now apply agg_scalars_runs.
Qed.

(** X12: on a scalar table with typed cells, [df_agg] with an allowed key
    returns a table exactly when the name of every row has one of the five
    categories and, when it is taken for a flow, a third segment: one row
    that has not makes the whole aggregation fail, whatever its group. *)
Theorem scalar_aggregation_succeeds_iff (df : DataFrame) (key : string) :
  classify (columns df) = Ok Scalars ->
  mem key (agg_options Scalars) = true ->
  forallb typed_scalar_row (rows df) = true ->
  (exists out, df_agg df key = Ok out)
  <-> forallb summable (rows df) = true.
Proof.
  intros Hk Hopt Htyped. split.
  - intros [out Hrun]. apply forallb_forall. intros r Hr.
    rewrite forallb_forall in Htyped.
    assert (Hkey := @option_is_column _ _ _ Hk (or_intror Hopt)).
    assert (Hscen : mem "scenario" (columns df) = true)
      by (apply (scalars_has_required _ Hk); simpl; tauto).
    destruct (typed_scalar_row_cells r (Htyped r Hr)) as [Hs _].
    destruct (is_str_inv _ Hs) as [s Hs'].
    destruct (typed_key_cell r key (Htyped r Hr) Hopt) as [k0 Hk0].
    unfold df_agg in Hrun. rewrite Hk in Hrun. cbn [bind] in Hrun.
    rewrite Hopt, Hkey in Hrun. cbn [negb] in Hrun.
    rewrite (column_in df key Hkey) in Hrun. cbn [bind] in Hrun.
    unfold agg_scalars in Hrun.
    rewrite (column_in df "scenario" Hscen) in Hrun. cbn [bind] in Hrun.
    destruct (foldM_ok_each _ _ _ Hrun (VStr s)) as [o1 [o2 Hscenario]].
    { apply fromkeys_in_str. rewrite <- Hs'.
      now apply (in_map (fun r => row_get r "scenario")). }
    destruct (foldM_ok_each _ _ _ Hscenario (VStr k0)) as [o3 [o4 Hitem]].
    { apply fromkeys_in_str. rewrite <- Hk0.
      now apply (in_map (fun r => row_get r key)). }
    destruct (agg_scalar_group df key (VStr s) (VStr k0)) as [d|e] eqn:Hgroup;
      [|discriminate].
    unfold agg_scalar_group in Hgroup.
    destruct (foldM_ok_each _ _ _ Hgroup r Hr) as [d1 [d2 Hrow]].
    rewrite !cell_in in Hrow by assumption. cbn [bind] in Hrow.
    rewrite Hs', Hk0 in Hrow. cbn [value_eqb] in Hrow.
    rewrite !String.eqb_refl in Hrow. cbn [andb] in Hrow.
    assert (Hcases := agg_scalar_row_cases df key d1 r Hk (Htyped r Hr)).
    rewrite Hrow in Hcases. unfold summable.
    destruct Hcases as [-> ->]. reflexivity.
  - intros Hsum.
    assert (Hkey := @option_is_column _ _ _ Hk (or_intror Hopt)).
    destruct (agg_scalars_runs df key Hk Hopt Htyped Hsum)
      as [out [Hrun _]].
    exists out. unfold df_agg. rewrite Hk. cbn [bind].
    rewrite Hopt, Hkey. cbn [negb].
    rewrite (column_in df key Hkey). cbn [bind]. exact Hrun.
Qed.

(** ** check_consistency_timeindex, stack_timeseries, unstack_timeseries *)

(** X13: what [check_consistency_timeindex] returns, for a column of the
    table that need not be one of the three time fields.  On a table
    without rows it fails with an [IndexError].  On a table with rows
    whose cells under the column are plain (text, ids, timestamps,
    frequencies or [None]) it returns [v] exactly when every row holds [v]
    under the column and [v] is not [None]; so it never returns [None].
    When the first cell is a list, as under [series], whose length is not
    the number of rows, the comparison itself fails with a [ValueError]. *)
Theorem check_consistency_timeindex_value (df : DataFrame) (index : string) :
  mem index (columns df) = true ->
  (rows df = [] -> check_consistency_timeindex df index = Err PyIndexError)
  /\ (rows df <> [] -> plain_column df index ->
      forall v, check_consistency_timeindex df index = Ok v
                <-> constant df index v /\ is_none v = false)
  /\ (forall r rest l,
        rows df = r :: rest -> row_get r index = VList l ->
        length l <> length (rows df) ->
        check_consistency_timeindex df index = Err PyValueError).
Proof.
  intros Hcol. unfold check_consistency_timeindex.
  rewrite (column_in df index Hcol). cbn [bind].
  unfold plain_column, constant in *. split; [|split].
  - intros ->. reflexivity.
  - intros Hrows Hplain.
    destruct (rows df) as [|r0 rest]; [congruence|]. clear Hrows.
    cbn [map bind]. set (first := row_get r0 index).
    assert (Hr0 : In r0 (r0 :: rest)) by now left.
    assert (Hfirst : plain first = true) by now apply Hplain.
    rewrite array_eq_plain by exact Hfirst. cbn [bind].
    destruct (is_none first) eqn:Hnone.
    { cbn [map forallb andb]. intros v. split.
      - destruct (field_name index); discriminate.
      - intros [Hv Hnn]. rewrite <- (Hv r0 Hr0) in Hnn. fold first in Hnn.
        congruence. }
    rewrite forallb_id_map.
    change (first :: map (fun r => row_get r index) rest)
      with (map (fun r => row_get r index) (r0 :: rest)).
    assert (Hall : forallb (fun v0 => value_eqb v0 first)
                           (map (fun r => row_get r index) (r0 :: rest))
                   = true
                   <-> forall r, In r (r0 :: rest) ->
                                 row_get r index = first).
    { rewrite forallb_forall. split.
      - intros Heq r Hr. apply (value_eqb_plain _ first (Hplain r Hr)).
        apply Heq. now apply (in_map (fun r => row_get r index)).
      - intros Heq x Hx. apply in_map_iff in Hx.
        destruct Hx as [r [<- Hr]].
        apply (value_eqb_plain _ first (Hplain r Hr)). now apply Heq. }
    intros v. destruct (forallb _ _) eqn:Hforall.
    + assert (Hconst := proj1 Hall eq_refl). split.
      * intros Hv. injection Hv as <-. now split.
      * intros [Hv _]. rewrite <- (Hv r0 Hr0). reflexivity.
    + split.
      * destruct (field_name index); discriminate.
      * intros [Hv _].
        assert (Hsame : forall r, In r (r0 :: rest) ->
                                  row_get r index = first)
          by (intros r Hr; unfold first;
              now rewrite (Hv r Hr), (Hv r0 Hr0)).
        apply Hall in Hsame. discriminate.
  - intros r rest l Hrows Hlist Hlen. rewrite Hrows in *.
    cbn [map bind]. rewrite Hlist. cbn [array_eq].
    cbn [length] in Hlen |- *. rewrite length_map.
    destruct (Nat.eqb (length l) (S (length rest))) eqn:Heq;
      [apply Nat.eqb_eq in Heq; congruence | reflexivity].
Qed.

(** The notices of [unstack_timeseries] when the three checks return. *)
Lemma unstack_prints (df : DataFrame) (f a b : value) :
  check_consistency_timeindex df "timeindex_resolution" = Ok f ->
  check_consistency_timeindex df "timeindex_start" = Ok a ->
  check_consistency_timeindex df "timeindex_stop" = Ok b ->
  fst (unstack_timeseries df)
  = (if mem "source" (columns df) then [RemarksLost "source"] else [])
    ++ (if mem "comment" (columns df) then [RemarksLost "comment"] else []).
Proof.
  intros Hf Ha Hb. unfold unstack_timeseries. rewrite Hf, Ha, Hb.
  rewrite !io_bind_lift_ok.
  match goal with |- context [io_lift ?R] => generalize R end.
  intros R. cbn [io_fold].
  destruct (mem "source" (columns df)), (mem "comment" (columns df));
    reflexivity.
Qed.

(** X14: [unstack_timeseries] prints its notices when the three checks have
    passed: one for [source] and one for [comment], in this order, for
    those of the two that are columns of the table, whether or not the wide
    table can then be built. *)
Theorem unstack_timeseries_notices (df : DataFrame) :
  (forall index, In index ["timeindex_resolution"; "timeindex_start";
                           "timeindex_stop"] ->
                 exists v, check_consistency_timeindex df index = Ok v) ->
  fst (unstack_timeseries df)
  = map RemarksLost (filter (fun c => mem c (columns df))
                            ["source"; "comment"]).
Proof.
  intros Hchecks.
  destruct (Hchecks "timeindex_resolution") as [f Hf]; [cbn; tauto|].
  destruct (Hchecks "timeindex_start") as [a Ha]; [cbn; tauto|].
  destruct (Hchecks "timeindex_stop") as [b Hb]; [cbn; tauto|].
  rewrite (unstack_prints df Hf Ha Hb). cbn [filter map].
  destruct (mem "source" (columns df)), (mem "comment" (columns df));
    reflexivity.
Qed.

Lemma map_fst_combine_same {A B : Type} (l : list A) (l' : list B) :
  length l' = length l -> map fst (combine l l') = l.
Proof.
  revert l'. induction l as [|x l IH]; intros [|y l'] Hlen;
    try discriminate; [reflexivity|].
  cbn. f_equal. apply IH. now injection Hlen.
Qed.

(** X15: whatever the wide table, the table that [stack_timeseries]
    returns has the five stacked columns and one row for each column of the
    wide table, in order and named after it; all rows hold the same start,
    the same stop and the same resolution, which is a frequency and never
    [None].  So the three checks of [unstack_timeseries] pass on it when it
    has a row. *)
Theorem stack_timeseries_shape (w : Wide) (out : list notice)
        (s : DataFrame) :
  stack_timeseries w = (out, Ok s) ->
  columns s = df_stacked_cols
  /\ col_of s "var_name" = map (fun col => VStr (fst col)) (wcolumns w)
  /\ exists start stop f,
       constant s "timeindex_start" (VTime start)
       /\ constant s "timeindex_stop" (VTime stop)
       /\ constant s "timeindex_resolution" (VFreq f)
       /\ (wcolumns w <> [] ->
           check_consistency_timeindex s "timeindex_resolution"
           = Ok (VFreq f)
           /\ check_consistency_timeindex s "timeindex_start"
              = Ok (VTime start)
           /\ check_consistency_timeindex s "timeindex_stop"
              = Ok (VTime stop)).
Proof.
  intros Hrun. apply stack_timeseries_inv in Hrun.
  destruct Hrun as [Hcols [start [stop [f [series [Hlen Hrows]]]]]].
  split; [exact Hcols|]. split.
  { unfold col_of. rewrite Hrows, map_map.
    transitivity (map (fun name => @VStr num name)
                      (map fst (combine (map fst (wcolumns w)) series))).
    - rewrite map_map. apply map_ext. intros p. reflexivity.
    - rewrite map_fst_combine_same by now rewrite length_map.
      now rewrite map_map. }
  exists start, stop, f.
  assert (Hrow : forall r, In r (rows s) ->
                           row_get r "timeindex_start" = VTime start
                           /\ row_get r "timeindex_stop" = VTime stop
                           /\ row_get r "timeindex_resolution" = VFreq f).
  { intros r Hr. rewrite Hrows in Hr. apply in_map_iff in Hr.
    destruct Hr as [p [<- _]]. repeat split. }
  assert (Hstart : constant s "timeindex_start" (VTime start))
    by (intros r Hr; now apply Hrow).
  assert (Hstop : constant s "timeindex_stop" (VTime stop))
    by (intros r Hr; now apply Hrow).
  assert (Hres : constant s "timeindex_resolution" (VFreq f))
    by (intros r Hr; now apply Hrow).
  repeat (split; [assumption|]).
  intros Hne.
  assert (Hrows' : rows s <> []).
  { rewrite Hrows. destruct (wcolumns w) as [|col cols]; [congruence|].
    destruct series as [|ser series]; discriminate. }
  assert (Hcheck : forall index name v,
             field_name index = Some name -> In index df_stacked_cols ->
             plain v = true -> is_none v = false -> constant s index v ->
             check_consistency_timeindex s index = Ok v).
  { intros index name v Hname Hin Hpl Hnn Hconst.
    assert (Hmem : mem index (columns s) = true)
      by (rewrite Hcols; now apply mem_true_iff).
    assert (Hplain : plain_column s index)
      by (intros r Hr; now rewrite (Hconst r Hr)).
    destruct (check_consistency_cases Hname Hmem Hrows' Hplain) as [_ Hc].
    rewrite (Hc v Hconst). now rewrite Hnn. }
  repeat split.
  - apply (Hcheck _ "frequency"); try reflexivity; [cbn; tauto | assumption].
  - apply (Hcheck _ "start date"); try reflexivity;
      [cbn; tauto | assumption].
  - apply (Hcheck _ "end date"); try reflexivity; [cbn; tauto | assumption].
Qed.

(** X16: stacking and then unstacking gives the wide table back.  On a
    wide table with a column or more, distinct column names and three or
    more ascending, equally spaced timestamps, [unstack_timeseries] of what
    [stack_timeseries] returns is the table itself, with the frequency
    recorded in its index; the only notice is that of the inferred
    frequency. *)
Theorem unstack_after_stack (w : Wide) (t0 d : Z) (n : nat)
        (freq : option Freq) :
  windex w = DatetimeIndex (arithmetic t0 d (S n)) freq ->
  (2 <= n)%nat -> 0 < d ->
  freq = None \/ freq = Some d ->
  NoDup (map fst (wcolumns w)) ->
  (forall col, In col (wcolumns w) -> length (snd col) = S n) ->
  wcolumns w <> [] ->
  (stacked <~ stack_timeseries w ;; unstack_timeseries stacked)
  = (match freq with Some _ => [] | None => [FrequencyInferred d] end,
     Ok {| windex := DatetimeIndex (arithmetic t0 d (S n)) (Some d);
           wcolumns := wcolumns w |}).
Proof.
  intros Hidx Hn Hd Hfreq Hnd Hlen Hne.
  rewrite (@stack_regular w t0 d n freq Hidx Hn) by (lia || tauto).
  set (s := {| columns := df_stacked_cols;
               rows := map (fun col => stacked_row (fst col) t0
                                         (t0 + Z.of_nat n * d) d (snd col))
                           (wcolumns w) |}).
  assert (Hrange : date_range t0 (t0 + Z.of_nat n * d) d
                   = arithmetic t0 d (S n))
    by now apply date_range_of_arithmetic.
  assert (Hrows : rows s <> []).
  { unfold s. cbn [rows]. destruct (wcolumns w); [congruence|discriminate]. }
  assert (Hconst : forall c v,
             (forall name vals,
                 row_get (stacked_row name t0 (t0 + Z.of_nat n * d) d vals) c
                 = v) ->
             constant s c v).
  { intros c v Hcell r Hr. unfold s in Hr. cbn [rows] in Hr.
    apply in_map_iff in Hr. destruct Hr as [col [<- _]]. apply Hcell. }
  assert (Hsnd : snd (unstack_timeseries s)
                 = Ok {| windex := DatetimeIndex (arithmetic t0 d (S n))
                                                 (Some d);
                         wcolumns := wcolumns w |}).
  { rewrite (@unstack_typed s t0 (t0 + Z.of_nat n * d) d); try assumption.
    - rewrite Hrange. do 2 f_equal. unfold s. cbn [rows].
      rewrite map_map. rewrite <- (map_id (wcolumns w)) at 2.
      apply map_ext. now intros [name vals].
    - intros c Hc. now apply mem_true_iff.
    - now apply Hconst.
    - now apply Hconst.
    - now apply Hconst.
    - rewrite Hrange. unfold arithmetic. rewrite length_map, length_seq.
      apply forallb_forall. intros r Hr. unfold s in Hr. cbn [rows] in Hr.
      apply in_map_iff in Hr. destruct Hr as [[name vals] [<- Hcol]].
      unfold typed_stacked_row. cbn. apply Nat.eqb_eq.
      exact (Hlen _ Hcol). }
  assert (Hfst : fst (unstack_timeseries s) = []).
  { assert (Hcheck : forall index name v,
               field_name index = Some name ->
               mem index (columns s) = true -> plain v = true ->
               is_none v = false -> constant s index v ->
               check_consistency_timeindex s index = Ok v).
    { intros index name v Hname Hmem Hpl Hnn Hc.
      assert (Hplain : plain_column s index)
        by (intros r Hr; now rewrite (Hc r Hr)).
      destruct (check_consistency_cases Hname Hmem Hrows Hplain)
        as [_ Hcase].
      rewrite (Hcase v Hc). now rewrite Hnn. }
    rewrite (@unstack_prints s (VFreq d) (VTime t0)
               (VTime (t0 + Z.of_nat n * d))); [reflexivity| | |].
    - apply (Hcheck _ "frequency"); try reflexivity. now apply Hconst.
    - apply (Hcheck _ "start date"); try reflexivity. now apply Hconst.
    - apply (Hcheck _ "end date"); try reflexivity. now apply Hconst. }
  unfold io_bind. destruct (unstack_timeseries s) as [notices r].
  cbn [fst snd] in Hfst, Hsnd. subst notices r. now rewrite app_nil_r.
Qed.

(** ** get_optional_required_header *)

(** X17: [get_optional_required_header] knows two kinds of table and
    raises for any other name.  When it returns, the header lists each
    column once, every optional column is in the header, and the required
    header is the header without the optional columns, in the order of the
    header. *)
Theorem required_header_is_rest (data_type : string) :
  (data_type <> "scalars" /\ data_type <> "timeseries" ->
   get_optional_required_header data_type
   = Err (InvalidSchemaKind data_type))
  /\ forall header optional_header required_header,
       get_optional_required_header data_type
       = Ok (header, optional_header, required_header) ->
       (data_type = "scalars" \/ data_type = "timeseries")
       /\ NoDup header
       /\ incl optional_header header
       /\ required_header
          = filter (fun c => negb (mem c optional_header)) header.
Proof.
  unfold get_optional_required_header. split.
  - intros [Hs Ht]. apply String.eqb_neq in Hs, Ht. now rewrite Hs, Ht.
  - intros header optional_header required_header.
    destruct (String.eqb data_type "scalars") eqn:Hs.
    + apply String.eqb_eq in Hs. cbn. intros Hrun.
      injection Hrun as <- <- <-. split; [now left|].
      split; [|split; [|reflexivity]].
      * repeat constructor; cbn; intuition discriminate.
      * intros c Hc. cbn in Hc |- *. tauto.
    + destruct (String.eqb data_type "timeseries") eqn:Ht; [|discriminate].
      apply String.eqb_eq in Ht. cbn. intros Hrun.
      injection Hrun as <- <- <-. split; [now right|].
      split; [|split; [|reflexivity]].
      * repeat constructor; cbn; intuition discriminate.
      * intros c Hc. cbn in Hc |- *. tauto.
Qed.

(** ** From one function to the next *)

Lemma io_bind_ok {A B : Type} (m : io A) (k : A -> io B)
      (out : list notice) (b : B) :
  io_bind m k = (out, Ok b) ->
  exists out1 a out2, m = (out1, Ok a) /\ k a = (out2, Ok b).
Proof.
  unfold io_bind. destruct m as [out1 [a|e]]; [|discriminate].
  destruct (k a) as [out2 r] eqn:Hk. intros Hrun.
  injection Hrun as _ ->. now exists out1, a, out2.
Qed.

Lemma select_columns (df out : DataFrame) (header : list string) :
  select df header = Ok out -> columns out = header.
Proof.
  unfold select. destruct (filter _ header); [|discriminate].
  intros Hout. now injection Hout as <-.
Qed.

Lemma complete_timeseries_columns (header optional_header required_header
                                   : list string) (df out : DataFrame)
      (notices : list notice) :
  complete_timeseries header optional_header required_header df
  = (notices, Ok out) ->
  columns out = header.
Proof.
  unfold complete_timeseries. intros Hrun.
  apply io_bind_ok in Hrun. destruct Hrun as [o1 [without [o2 [_ Hrun]]]].
  apply io_bind_ok in Hrun. destruct Hrun as [o3 [df' [o4 [_ Hrun]]]].
  unfold io_lift in Hrun. injection Hrun as _ Hrun.
  exact (select_columns _ _ Hrun).
Qed.

(** X18: what the two loaders return passes the header check of
    [df_filtered] and [df_agg]: a table from [load_scalars] is taken for a
    scalar table and a table from [load_timeseries] for a time series
    table. *)
Theorem loaded_tables_pass_header_check :
  (forall (filename : string) (df out : DataFrame),
      snd (load_scalars filename df) = Ok out ->
      classify (columns out) = Ok Scalars)
  /\ (forall (df out : DataFrame),
         snd (load_timeseries df) = Ok out ->
         classify (columns out) = Ok TimeSeries).
Proof.
  split.
  - intros filename df out. rewrite load_scalars_unfold.
    destruct (filter _ required_header_scalars); [|discriminate].
    cbn [snd]. intros Hsel. now rewrite (select_columns _ _ Hsel).
  - intros df out. rewrite load_timeseries_eq.
    destruct (io_bind _ _) as [notices r] eqn:Hrun. cbn [snd].
    intros ->. apply io_bind_ok in Hrun.
    destruct Hrun as [o1 [results [o2 [_ Hrun]]]].
    apply io_bind_ok in Hrun. destruct Hrun as [o3 [df0 [o4 [_ Hrun]]]].
    apply io_bind_ok in Hrun. destruct Hrun as [o5 [df1 [o6 [_ Hrun]]]].
    now rewrite (complete_timeseries_columns _ _ _ _ Hrun).
Qed.

Lemma classify_ignores_optional (cols extra : list string) :
  (forall c, In c extra -> is_optional c = true) ->
  classify (cols ++ extra) = classify cols.
Proof.
  intros Hextra. rewrite !classify_eq. cbv zeta. rewrite filter_app.
  replace (filter (fun c => negb (is_optional c)) extra) with (@nil string);
    [now rewrite app_nil_r|].
  symmetry. induction extra as [|c extra IH]; [reflexivity|].
  cbn [filter]. rewrite (Hextra c) by now left. cbn [negb].
  apply IH. intros c' Hc'. apply Hextra. now right.
Qed.

(** A table that has got rows of the full header has its own columns, and
    then optional columns only. *)
Lemma append_header_row (df acc : DataFrame) (k : kind) (r : row) :
  classify (columns df) = Ok k ->
  map fst r = match k with
              | Scalars => header_scalars
              | TimeSeries => header_timeseries
              end ->
  (exists extra, columns acc = columns df ++ extra
                 /\ forall c, In c extra -> is_optional c = true) ->
  exists extra, columns (append acc r) = columns df ++ extra
                /\ forall c, In c extra -> is_optional c = true.
Proof.
  intros Hk Hkeys [extra [Hcols Hopt]]. unfold append. cbn [columns].
  exists (extra ++ filter (fun c => negb (mem c (columns acc))) (map fst r)).
  split; [now rewrite Hcols, app_assoc|].
  intros c Hc. apply in_app_or in Hc. destruct Hc as [Hc|Hc]; [auto|].
  apply filter_In in Hc. destruct Hc as [Hc Hnew].
  apply negb_true_iff, mem_false_iff in Hnew.
  assert (Hnin : ~ In c (columns df))
    by (intros Hin; apply Hnew; rewrite Hcols; apply in_or_app; now left).
  rewrite Hkeys in Hc. destruct k.
  - assert (Hreq : forall c0, In c0 required_header_scalars ->
                              In c0 (columns df))
      by (intros c0 Hc0; apply mem_true_iff;
          now apply (scalars_has_required _ Hk)).
    cbn in Hc.
    repeat (destruct Hc as [<-|Hc];
            [try reflexivity; exfalso; apply Hnin, Hreq; cbn; tauto|]).
    contradiction.
  - assert (Hreq : forall c0, In c0 required_header_timeseries ->
                              In c0 (columns df))
      by (intros c0 Hc0; apply mem_true_iff;
          now apply (timeseries_has_required _ Hk)).
    cbn in Hc.
    repeat (destruct Hc as [<-|Hc];
            [try reflexivity; exfalso; apply Hnin, Hreq; cbn; tauto|]).
    contradiction.
Qed.

(** X19: what [df_agg] returns passes the header check of [df_filtered]
    and [df_agg] as the table did: the aggregated table has the columns of
    the table, then the optional columns that the table lacked when a row
    was emitted.  Only the header check is stated: whether the rows of the
    result can be aggregated again depends on their names. *)
Theorem df_agg_result_is_recognized (df : DataFrame) (key : string)
        (out : DataFrame) :
  df_agg df key = Ok out ->
  classify (columns out) = classify (columns df)
  /\ exists extra, columns out = columns df ++ extra
                   /\ forall c, In c extra -> is_optional c = true.
Proof.
  intros Hrun.
  assert (Hcols : exists extra,
             columns out = columns df ++ extra
             /\ forall c, In c extra -> is_optional c = true).
  { set (P := fun o : DataFrame =>
                exists extra, columns o = columns df ++ extra
                              /\ forall c, In c extra -> is_optional c = true).
    assert (Hstart : P {| columns := columns df; rows := [] |}).
    { exists []. cbn [columns]. split; [now rewrite app_nil_r|].
      intros c []. }
    change (P out). revert Hrun. unfold df_agg.
    destruct (classify (columns df)) as [k|e] eqn:Hk; [|discriminate].
    cbn [bind].
    destruct (negb (mem key (agg_options k))); [discriminate|].
    destruct (negb (mem key (columns df))); [discriminate|].
    destruct (column df key) as [keys|e]; [|discriminate]. cbn [bind].
    destruct k.
    - unfold agg_scalars.
      destruct (column df "scenario") as [scenarios|e]; [|discriminate].
      cbn [bind]. intros Hrun. revert Hrun.
      apply foldM_invariant; [|exact Hstart].
      intros o1 scenario o1' _ Ho1. apply foldM_invariant; [|exact Ho1].
      intros o2 key_item o2' _ Ho2.
      destruct (agg_scalar_group df key scenario key_item) as [d|e];
        [|discriminate].
      cbn [bind]. apply foldM_invariant; [|exact Ho2].
      intros o3 [dict_key dict_item] o3' _ Ho3.
      destruct (new_scalar_row key scenario key_item dict_key dict_item)
        as [new_row|e] eqn:Hnew; [|discriminate].
      cbn [bind]. intros Hrow. injection Hrow as <-.
      eapply append_header_row; [exact Hk | | exact Ho3].
      unfold new_scalar_row in Hnew.
      destruct (String.eqb key "region");
        [|destruct (String.eqb key "carrier");
          [|destruct (String.eqb key "tech"); [|discriminate]]];
        cbn [bind] in Hnew; injection Hnew as <-; reflexivity.
    - unfold agg_timeseries. intros Hrun. revert Hrun.
      apply foldM_invariant; [|exact Hstart].
      intros o1 key_item o1' _ Ho1.
      destruct (agg_series_group df key key_item) as [d|e]; [|discriminate].
      cbn [bind].
      destruct (cell0 df "timeindex_start") as [c1|e]; [|discriminate].
      cbn [bind].
      destruct (cell0 df "timeindex_stop") as [c2|e]; [|discriminate].
      cbn [bind].
      destruct (cell0 df "timeindex_resolution") as [c3|e]; [|discriminate].
      cbn [bind]. destruct d as [series|]; [|discriminate]. cbn [bind].
      intros Hrow. injection Hrow as <-.
      eapply append_header_row; [exact Hk | reflexivity | exact Ho1]. }
  split; [|exact Hcols].
  destruct Hcols as [extra [-> Hopt]]. now apply classify_ignores_optional.
Qed.

End TableProperties.

(** ** The properties on concrete tables *)

#[local] Existing Instance no_calendar.
#[local] Existing Instance rows_after_header.

(** *** C1 *)

Lemma stack_unstack_round_trip_witness :
  rows two_variables <> []
  /\ (forall c, In c df_stacked_cols -> mem c (columns two_variables) = true)
  /\ constant two_variables "timeindex_start" (VTime 0)
  /\ constant two_variables "timeindex_stop" (VTime 7200)
  /\ constant two_variables "timeindex_resolution" (VFreq 3600)
  /\ (3 <= length (date_range 0 7200 3600))%nat
  /\ forallb (typed_stacked_row (length (date_range 0 7200 3600)))
             (rows two_variables) = true
  /\ NoDup (map var_name_of (rows two_variables))
  /\ exists out,
       snd (round_trip two_variables) = Ok out
       /\ map (fun r => row_get r "series") (rows out)
          = map (fun r => row_get r "series") (rows two_variables)
       /\ map (fun r => row_get r "var_name") (rows out)
          = map (fun r => row_get r "var_name") (rows two_variables)
       /\ map (fun r => row_get r "timeindex_start") (rows out)
          = map (fun r => row_get r "timeindex_start") (rows two_variables).
Proof.
  assert (H1 : rows two_variables <> []) by discriminate.
  assert (H2 : forall c, In c df_stacked_cols ->
                         mem c (columns two_variables) = true).
  { intros c Hc. apply mem_true_iff. exact Hc. }
  assert (H3 : constant two_variables "timeindex_start" (VTime 0)).
  { intros r [<-|[<-|[]]]; reflexivity. }
  assert (H4 : constant two_variables "timeindex_stop" (VTime 7200)).
  { intros r [<-|[<-|[]]]; reflexivity. }
  assert (H5 : constant two_variables "timeindex_resolution" (VFreq 3600)).
  { intros r [<-|[<-|[]]]; reflexivity. }
  assert (H6 : (3 <= length (date_range 0 7200 3600))%nat)
    by (vm_compute; lia).
  assert (H7 : forallb (typed_stacked_row (length (date_range 0 7200 3600)))
                       (rows two_variables) = true) by reflexivity.
  assert (H8 : NoDup (map var_name_of (rows two_variables))).
  { repeat constructor; simpl; intuition discriminate. }
  repeat (split; [assumption|]).
  exact (stack_unstack_round_trip H1 H2 H3 H4 H5 H6 H7 H8).
Defined.

(** C1 as the specification states it fails on tables whose rows share their
    three time fields: a table without rows and a table whose shared start
    is [None] make [unstack_timeseries] raise (the second with the
    [ValueError] of lines 767-770, as [None] is not equal to itself on
    line 757), and so do series that are shorter than the time index; two
    timestamps are too few for [stack_timeseries]; and with a name that
    occurs twice the series come back as the rows of the two columns. *)
Lemma stack_unstack_counterexample :
  round_trip (stacked_table []) = ([], Err PyIndexError)
  /\ round_trip (stacked_table
                   [stacked "a" VNone (VTime 7200) (VFreq 3600) [1; 2; 3]])
     = ([], Err (InconsistentTimeIndex "start date" "timeindex_start"))
  /\ round_trip (stacked_table
                   [stacked "a" (VTime 0) (VTime 7200) (VFreq 3600) [1; 2]])
     = ([], Err PyValueError)
  /\ round_trip (stacked_table
                   [stacked "a" (VTime 0) (VTime 3600) (VFreq 3600) [1; 2]])
     = ([], Err PyValueError)
  /\ exists out,
       round_trip
         (stacked_table
            [stacked "a" (VTime 0) (VTime 7200) (VFreq 3600) [1; 2; 3];
             stacked "a" (VTime 0) (VTime 7200) (VFreq 3600) [4; 5; 6]])
       = ([], Ok out)
       /\ col_of out "series"
          = [VTable [[Num 1; Num 4]; [Num 2; Num 5]; [Num 3; Num 6]];
             VTable [[Num 1; Num 4]; [Num 2; Num 5]; [Num 3; Num 6]]].
Proof.
  repeat (split; [reflexivity|]).
  eexists. split; reflexivity.
Qed.

(** *** C2 *)

(** C2 (the code departs from the specification): the value of an invest row
    whose name says ["out"] is added to the invest bucket, not subtracted,
    because ["in"] occurs in ["invest"]; see [invest_row_is_added]. *)
Theorem invest_out_is_added :
  exists out,
    df_agg invest_table "region" = Ok out
    /\ col_of out "var_name" = [VStr "invest"]
    /\ col_of out "var_value" = [VNum (Num 5)].
Proof. eexists. split; [reflexivity|]. split; reflexivity. Qed.

(** The same holds for a flow whose energy carrier contains ["in"]. *)
Example flow_out_wind_is_added :
  exists out,
    df_agg (scalar_table
              [scalar_row "base" "BB-x" "flow_out_wind" "wind" "BB" "x"
                          "volatile" 5]) "region" = Ok out
    /\ col_of out "var_name" = [VStr "flow_wind"]
    /\ col_of out "var_value" = [VNum (Num 5)].
Proof. eexists. split; [reflexivity|]. split; reflexivity. Qed.

(** The example of the specification: an in-flow of 10 and an out-flow of
    3 of one carrier give one row with 10 - 3, and ["All"] as region and
    tech. *)
Example flow_in_minus_out :
  df_agg (scalar_table
            [scalar_row "base" "BB-wind" "flow_in_electricity" "wind" "BB"
                        "onshore" "volatile" 10;
             scalar_row "base" "BE-wind" "flow_out_electricity" "wind" "BE"
                        "offshore" "volatile" 3]) "carrier"
  = Ok {| columns := required_header_scalars
                     ++ ["id_scal"; "var_unit"; "reference"; "comment"];
          rows := [[("id_scal", VNone);
                    ("scenario", VStr "base");
                    ("name", VStr "Aggregated by carrier");
                    ("var_name", VStr "flow_electricity_wind");
                    ("carrier", VStr "wind");
                    ("region", VStr "All");
                    ("tech", VStr "All");
                    ("type", VStr "All");
                    ("var_value", VNum (Num 7));
                    ("var_unit", VStr "-");
                    ("reference", VNone);
                    ("comment", VNone)]] |}.
Proof. reflexivity. Qed.

(** *** C3 *)

Lemma unknown_var_name_fails_witness :
  classify (columns unknown_table) = Ok Scalars
  /\ mem "region" (agg_options Scalars) = true
  /\ forallb typed_scalar_row (rows unknown_table) = true
  /\ existsb (fun r => negb (known (var_name_of r))) (rows unknown_table)
     = true
  /\ exists e,
       df_agg unknown_table "region" = Err e
       /\ agg_failure unknown_table e
       /\ (forallb (fun r => flow_has_carrier (var_name_of r))
                   (rows unknown_table) = true ->
           exists r, In r (rows unknown_table)
                     /\ known (var_name_of r) = false
                     /\ e = UnknownVariable (var_name_of r)).
Proof.
  assert (H1 : classify (columns unknown_table) = Ok Scalars)
    by reflexivity.
  assert (H2 : mem "region" (agg_options Scalars) = true) by reflexivity.
  assert (H3 : forallb typed_scalar_row (rows unknown_table) = true)
    by reflexivity.
  assert (H4 : existsb (fun r => negb (known (var_name_of r)))
                       (rows unknown_table) = true) by reflexivity.
  repeat (split; [assumption|]).
  exact (unknown_var_name_fails unknown_table "region" H1 H2 H3 H4).
Defined.

(** C3 as the specification states it fails when a flow row without a third
    segment comes before the row of the unknown name: the exception is an
    [IndexError]. *)
Lemma unknown_var_name_counterexample :
  df_agg (scalar_table
            [scalar_row "base" "BB-wind" "flow_in" "wind" "BB" "onshore"
                        "volatile" 4;
             scalar_row "base" "BB-x" "foobar_in" "wind" "BB" "onshore"
                        "volatile" 1]) "region"
  = Err PyIndexError.
Proof. reflexivity. Qed.

(** *** C4 *)

Lemma time_fields_checked_in_order_witness :
  rows no_start_table <> []
  /\ mem "timeindex_resolution" (columns no_start_table) = true
  /\ mem "timeindex_start" (columns no_start_table) = true
  /\ mem "timeindex_stop" (columns no_start_table) = true
  /\ plain_column no_start_table "timeindex_resolution"
  /\ plain_column no_start_table "timeindex_start"
  /\ plain_column no_start_table "timeindex_stop"
  /\ unstack_timeseries no_start_table
     = ([], Err (InconsistentTimeIndex "start date" "timeindex_start")).
Proof.
  assert (H1 : rows no_start_table <> []) by discriminate.
  assert (H2 : mem "timeindex_resolution" (columns no_start_table) = true)
    by reflexivity.
  assert (H3 : mem "timeindex_start" (columns no_start_table) = true)
    by reflexivity.
  assert (H4 : mem "timeindex_stop" (columns no_start_table) = true)
    by reflexivity.
  assert (H5 : plain_column no_start_table "timeindex_resolution").
  { intros r [<-|[<-|[]]]; reflexivity. }
  assert (H6 : plain_column no_start_table "timeindex_start").
  { intros r [<-|[<-|[]]]; reflexivity. }
  assert (H7 : plain_column no_start_table "timeindex_stop").
  { intros r [<-|[<-|[]]]; reflexivity. }
  repeat (split; [assumption|]).
  destruct (time_fields_checked_in_order H1 H2 H3 H4 H5 H6 H7)
    as [_ [_ Hstart]].
  destruct (Hstart (VFreq 3600)) as [_ [Hnone _]].
  - intros r [<-|[<-|[]]]; reflexivity.
  - discriminate.
  - apply Hnone. intros r [<-|[<-|[]]]; reflexivity.
Defined.

(** The table of the witness on the three checks, one by one: the
    resolution and the stop are returned, and the start that is [None] in
    both rows raises the [ValueError] of lines 767-770. *)
Example no_start_table_checks :
  check_consistency_timeindex no_start_table "timeindex_resolution"
  = Ok (VFreq 3600)
  /\ check_consistency_timeindex no_start_table "timeindex_start"
     = Err (InconsistentTimeIndex "start date" "timeindex_start")
  /\ check_consistency_timeindex no_start_table "timeindex_stop"
     = Ok (VTime 7200).
Proof. repeat split; reflexivity. Qed.

(** The checks are not independent of each other: on a table that lacks its
    starts and has two resolutions the resolution is checked first.  A
    table without the column [timeindex_start] raises a [KeyError], and a
    table without rows an [IndexError]. *)
Example time_fields_first_failure :
  unstack_timeseries
    (stacked_table [stacked "a" VNone (VTime 7200) (VFreq 3600) [1; 2; 3];
                    stacked "b" VNone (VTime 7200) (VFreq 1800) [4; 5; 6]])
  = ([], Err (InconsistentTimeIndex "frequency" "timeindex_resolution"))
  /\ unstack_timeseries
       {| columns := ["var_name"; "timeindex_stop"; "timeindex_resolution";
                      "series"];
          rows := [[("var_name", VStr "a");
                    ("timeindex_stop", VTime 7200);
                    ("timeindex_resolution", VFreq 3600);
                    ("series", VList [Num 1; Num 2; Num 3])]] |}
     = ([], Err (PyKeyError "timeindex_start"))
  /\ unstack_timeseries (stacked_table []) = ([], Err PyIndexError).
Proof. repeat split; reflexivity. Qed.

(** *** C5 *)

(** C5 as the specification states it fails on a [DatetimeIndex] out of
    order, which raises [NoFixedFrequency] and not [NotTimeIndexed] (the
    index is not monotonic, so that no calendar rule is looked for); on two
    ascending timestamps, which raise [ValueError]; and on two columns of
    one name, whose series are the rows of the two columns. *)
Lemma stack_timeseries_counterexample :
  stack_timeseries {| windex := DatetimeIndex [0; 7200; 3600] None;
                      wcolumns := [("a", [Num 1; Num 2; Num 3])] |}
  = ([], Err NoFixedFrequency)
  /\ stack_timeseries {| windex := DatetimeIndex [0; 3600] (Some 3600);
                         wcolumns := [("a", [Num 1; Num 2])] |}
     = ([], Err PyValueError)
  /\ exists out,
       stack_timeseries
         {| windex := DatetimeIndex [0; 3600; 7200] (Some 3600);
            wcolumns := [("a", [Num 1; Num 2; Num 3]);
                         ("a", [Num 4; Num 5; Num 6])] |}
       = ([], Ok out)
       /\ col_of out "series"
          = [VTable [[Num 1; Num 4]; [Num 2; Num 5]; [Num 3; Num 6]];
             VTable [[Num 1; Num 4]; [Num 2; Num 5]; [Num 3; Num 6]]].
Proof.
  split; [reflexivity|]. split; [reflexivity|].
  eexists. split; reflexivity.
Qed.

Lemma stack_timeseries_rows_witness :
  stack_timeseries wide_example
  = ([FrequencyInferred 3600],
     Ok {| columns := df_stacked_cols;
           rows := [stacked "BB-wind" (VTime 0) (VTime 7200) (VFreq 3600)
                            [1; 2; 3];
                    stacked "BE-load" (VTime 0) (VTime 7200) (VFreq 3600)
                            [4; 5; 6]] |}).
Proof.
  apply (proj2 (proj2 (stack_timeseries_rows wide_example))
               0 3600 2%nat None).
  - reflexivity.
  - lia.
  - lia.
  - now left.
  - repeat constructor; simpl; intuition discriminate.
  - intros col [<-|[<-|[]]]; reflexivity.
Defined.

(** A wide table without its frequency, stacked. *)
Example stack_timeseries_example :
  stack_timeseries wide_example = ([FrequencyInferred 3600], Ok two_variables).
Proof. reflexivity. Qed.

(** *** C6 *)

(** C6 as the specification states it fails on the required columns of
    scalars with the first two exchanged: the same columns are present, and
    the table is rejected. *)
Lemma header_check_counterexample :
  let h := ["name"; "scenario"; "var_name"; "carrier"; "region"; "tech";
            "type"; "var_value"] in
  Permutation h required_header_scalars
  /\ classify required_header_scalars = Ok Scalars
  /\ classify h = Err (UnrecognizedSchema header_timeseries header_scalars)
  /\ df_agg {| columns := h; rows := @nil (row number) |} "region"
     = Err (UnrecognizedSchema header_timeseries header_scalars)
  /\ df_filtered {| columns := h; rows := @nil (row number) |} "region" ["BB"]
     = ([], Err (UnrecognizedSchema header_timeseries header_scalars)).
Proof.
  cbv zeta. split; [apply perm_swap|]. repeat split; reflexivity.
Qed.

Lemma header_check_is_ordered_witness :
  df_filtered {| columns := ["name"; "scenario"; "var_name"; "carrier";
                             "region"; "tech"; "type"; "var_value"];
                 rows := @nil (row number) |} "region" ["BB"]
  = ([], Err (UnrecognizedSchema header_timeseries header_scalars))
  /\ df_agg {| columns := ["name"; "scenario"; "var_name"; "carrier";
                           "region"; "tech"; "type"; "var_value"];
               rows := @nil (row number) |} "region"
     = Err (UnrecognizedSchema header_timeseries header_scalars).
Proof.
  apply (proj2 (proj2 (header_check_is_ordered
                         {| columns := ["name"; "scenario"; "var_name";
                                        "carrier"; "region"; "tech"; "type";
                                        "var_value"];
                            rows := @nil (row number) |} "region" ["BB"]))).
  split; discriminate.
Defined.

(** *** C7 *)

Lemma timeseries_aggregation_by_region_witness :
  classify (columns regions_table) = Ok TimeSeries
  /\ forallb (typed_series_row 3) (rows regions_table) = true
  /\ exists out,
       df_agg regions_table "region" = Ok out
       /\ rows out
          = map (aggregated_series_row regions_table "region" 3)
                (fromkeys (map (fun r => row_get r "region")
                               (rows regions_table)))
       /\ NoDup (map (fun r => row_get r "region") (rows out)).
Proof.
  assert (H1 : classify (columns regions_table) = Ok TimeSeries)
    by reflexivity.
  assert (H2 : forallb (typed_series_row 3) (rows regions_table) = true)
    by reflexivity.
  repeat (split; [assumption|]).
  exact (timeseries_aggregation_by_region regions_table 3 H1 H2).
Defined.

Example regions_table_sums :
  exists out,
    df_agg regions_table "region" = Ok out
    /\ col_of out "region" = [VStr "BB"; VStr "BE"]
    /\ col_of out "series" = [VList [Num 11; Num 22; Num 33];
                              VList [Num 4; Num 5; Num 6]].
Proof. eexists. split; [reflexivity|]. split; reflexivity. Qed.

(** C7 as the specification states it fails on two regions with different
    time fields: the row of the second region gets the time fields of the
    first row of the table, not those of the first row of its group.  It
    also fails on series of different lengths, which [np.add] rejects or
    broadcasts. *)
Lemma timeseries_aggregation_counterexample :
  (exists out,
     df_agg (series_table
               [series_row "BB" "wind" (VTime 0) (VTime 7200) (VFreq 3600)
                           [1; 2; 3];
                series_row "BE" "load" (VTime 86400) (VTime 90000)
                           (VFreq 1800) [4; 5; 6]]) "region" = Ok out
     /\ col_of out "region" = [VStr "BB"; VStr "BE"]
     /\ col_of out "timeindex_start" = [VTime 0; VTime 0]
     /\ col_of out "timeindex_stop" = [VTime 7200; VTime 7200]
     /\ col_of out "timeindex_resolution" = [VFreq 3600; VFreq 3600])
  /\ df_agg (series_table
               [series_row "BB" "wind" (VTime 0) (VTime 7200) (VFreq 3600)
                           [1; 2; 3];
                series_row "BB" "pv" (VTime 0) (VTime 7200) (VFreq 3600)
                           [4; 5]]) "region"
     = Err PyValueError
  /\ exists out,
       df_agg (series_table
                 [series_row "BB" "wind" (VTime 0) (VTime 7200) (VFreq 3600)
                             [1; 2; 3];
                  series_row "BB" "pv" (VTime 0) (VTime 7200) (VFreq 3600)
                             [10]]) "region" = Ok out
       /\ col_of out "series" = [VList [Num 11; Num 12; Num 13]].
Proof.
  split; [|split].
  - eexists. split; [reflexivity|]. repeat split; reflexivity.
  - reflexivity.
  - eexists. split; reflexivity.
Qed.

(** *** C8 *)

Lemma load_timeseries_derives_region_witness :
  columns two_variables = df_stacked_cols
  /\ (forall r, In r (rows two_variables) ->
                is_str (row_get r "var_name") = true)
  /\ exists out,
       load_timeseries two_variables = ([], Ok out)
       /\ columns out = header_timeseries
       /\ col_of out "region" = [VStr "BB"; VStr "BE"]
       /\ col_of out "var_name" = col_of two_variables "var_name"
       /\ col_of out "series" = col_of two_variables "series".
Proof.
  assert (H1 : columns two_variables = df_stacked_cols) by reflexivity.
  assert (H2 : forall r, In r (rows two_variables) ->
                         is_str (row_get r "var_name") = true).
  { intros r [<-|[<-|[]]]; reflexivity. }
  repeat (split; [assumption|]).
  exact (proj1 (load_timeseries_derives_region two_variables H1 H2)
               eq_refl).
Defined.

(** The examples of the specification. *)
Example region_of_examples :
  region_of "BB-electricity-something" = Ok "BB"
  /\ region_of "BE-heat to BB-heat" = Ok "BE_BB"
  /\ region_of "electricity-demand" = Err MissingRegion
  /\ load_timeseries
       (stacked_table
          [stacked "BB-wind" (VTime 0) (VTime 7200) (VFreq 3600) [1; 2; 3];
           stacked "load" (VTime 0) (VTime 7200) (VFreq 3600) [4; 5; 6]])
     = ([], Err MissingRegion).
Proof. repeat split; reflexivity. Qed.

(** C8 as the specification states it fails on a stacked frame that has no
    [region] column and has one of the optional columns: no region is
    derived, and the selection of the header raises a [KeyError], also when
    a name has no region code. *)
Lemma load_timeseries_counterexample :
  load_timeseries
    {| columns := df_stacked_cols ++ ["var_unit"];
       rows := [stacked "BB-wind" (VTime 0) (VTime 7200) (VFreq 3600)
                        [1; 2; 3] ++ [("var_unit", VStr "MW")]] |}
  = ([], Err (PyKeyError "id_ts"))
  /\ load_timeseries
       {| columns := df_stacked_cols ++ ["var_unit"];
          rows := [stacked "wind" (VTime 0) (VTime 7200) (VFreq 3600)
                           [1; 2; 3] ++ [("var_unit", VStr "MW")]] |}
     = ([], Err (PyKeyError "id_ts")).
Proof. split; reflexivity. Qed.

(** *** C9 *)

Lemma df_filtered_scans_per_value_witness :
  classify (columns filter_table) = Ok Scalars
  /\ mem "region" (filter_options Scalars) = true
  /\ mem "region" (columns filter_table) = true
  /\ exists out,
       df_filtered filter_table "region" ["BB"; "HH"]
       = ([ValueNotFound "HH" "region"], Ok out)
       /\ rows out
          = [scalar_row "base" "BB-wind" "capacity" "wind" "BB" "onshore"
                        "volatile" 4;
             scalar_row "base" "BB-pv" "capacity" "solar" "BB" "pv"
                        "volatile" 6].
Proof.
  assert (H1 : classify (columns filter_table) = Ok Scalars) by reflexivity.
  assert (H2 : mem "region" (filter_options Scalars) = true) by reflexivity.
  assert (H3 : mem "region" (columns filter_table) = true) by reflexivity.
  repeat (split; [assumption|]).
  destruct (df_filtered_scans_per_value filter_table "region" ["BB"; "HH"]
              H1 H2 H3) as [out [Hrun [Hrows _]]].
  exists out. split; [exact Hrun | exact Hrows].
Defined.

(** C9 as the specification states it fails on a value that is listed twice:
    the one row of that region is returned twice. *)
Lemma df_filtered_counterexample :
  exists out,
    df_filtered filter_table "region" ["BE"; "BE"] = ([], Ok out)
    /\ rows out
       = [scalar_row "base" "BE-load" "flow_in_electricity" "load" "BE"
                     "demand" "load" 2;
          scalar_row "base" "BE-load" "flow_in_electricity" "load" "BE"
                     "demand" "load" 2]
    /\ filter (fun r => existsb (fun v => matches "region" v r) ["BE"; "BE"])
              (rows filter_table)
       = [scalar_row "base" "BE-load" "flow_in_electricity" "load" "BE"
                     "demand" "load" 2].
Proof. eexists. split; [reflexivity|]. split; reflexivity. Qed.

(** *** C10 *)

Lemma scalar_aggregation_type_All_witness :
  classify (columns filter_table) = Ok Scalars
  /\ exists out,
       df_agg filter_table "region" = Ok out
       /\ col_of out "region" = [VStr "BE"; VStr "BB"]
       /\ forall r, In r (rows out) -> row_get r "type" = VStr "All".
Proof.
  assert (H1 : classify (columns filter_table) = Ok Scalars) by reflexivity.
  split; [assumption|].
  eexists. split; [reflexivity|]. split; [reflexivity|].
  exact (scalar_aggregation_type_All filter_table "region" H1 eq_refl).
Defined.


(** ** The further properties on concrete tables *)

Lemma load_scalars_missing_required_witness :
  exists missing,
    load_scalars "scalars"
                 {| columns := ["scenario"; "name"; "var_value"];
                    rows := @nil (row number) |}
    = ([], Err (MissingRequiredColumns missing))
    /\ forall c, In c missing
                 <-> In c required_header_scalars
                     /\ ~ In c ["scenario"; "name"; "var_value"].
Proof.
  apply (load_scalars_missing_required "scalars"
           {| columns := ["scenario"; "name"; "var_value"];
              rows := @nil (row number) |}).
  exists "region". split; [cbn; tauto|]. cbn. intuition discriminate.
Defined.

Lemma load_scalars_canonical_witness :
  exists out,
    load_scalars "scalars" filter_table
    = ([OptionalColumnAdded "scalars" "var_unit";
        OptionalColumnAdded "scalars" "reference";
        OptionalColumnAdded "scalars" "comment"], Ok out)
    /\ columns out = header_scalars
    /\ col_of out "id_scal" = [VInt 0; VInt 1; VInt 2]
    /\ col_of out "var_value" = col_of filter_table "var_value".
Proof.
  destruct (load_scalars_canonical "scalars" filter_table)
    as [out [Hrun [Hcols [_ [_ [Hkeep [Hid _]]]]]]].
  - intros c Hc. exact Hc.
  - exists out. split; [exact Hrun|]. split; [exact Hcols|]. split.
    + apply Hid. cbn. intuition discriminate.
    + apply Hkeep; cbn; tauto.
Defined.

Lemma load_scalars_idempotent_witness :
  exists out,
    snd (load_scalars "scalars" filter_table) = Ok out
    /\ load_scalars "again" out = ([], Ok out).
Proof.
  eexists. split; [reflexivity|].
  apply (load_scalars_idempotent "scalars" "again" filter_table).
  reflexivity.
Defined.

Lemma load_timeseries_stacks_first_witness :
  load_timeseries wide_file
  = (wide <~ io_lift (wide_frame (head3 wide_file)) ;;
     stacked <~ stack_timeseries wide ;;
     load_timeseries stacked)
  /\ load_timeseries wide_file = load_timeseries (head3 wide_file).
Proof.
  apply (load_timeseries_stacks_first wide_file).
  - reflexivity.
  - intros c Hc. cbn in Hc |- *. intuition (subst; discriminate).
Defined.

(** The four rows of [wide_file] are loaded as the three values of its
    first three rows. *)
Example load_timeseries_wide_file :
  wide_frame (head3 wide_file) = Ok wide_example
  /\ exists out,
       load_timeseries wide_file = ([FrequencyInferred 3600], Ok out)
       /\ col_of out "var_name" = [VStr "BB-wind"; VStr "BE-load"]
       /\ col_of out "timeindex_stop" = [VTime 7200; VTime 7200]
       /\ col_of out "series" = [VList [Num 1; Num 2; Num 3];
                                 VList [Num 4; Num 5; Num 6]].
Proof.
  split; [reflexivity|].
  eexists. split; [reflexivity|]. repeat split; reflexivity.
Qed.

Lemma load_timeseries_missing_required_witness :
  exists missing,
    load_timeseries {| columns := ["var_name"; "series"];
                       rows := @nil (row number) |}
    = ([], Err (MissingRequiredColumns missing))
    /\ forall c, In c missing
                 <-> In c required_header_timeseries /\ c <> "region"
                     /\ ~ In c ["var_name"; "series"].
Proof.
  apply (load_timeseries_missing_required
           {| columns := ["var_name"; "series"];
              rows := @nil (row number) |}).
  - reflexivity.
  - exists "series". cbn. tauto.
  - exists "timeindex_start". cbn. intuition discriminate.
Defined.

Lemma load_timeseries_no_partial_completion_witness :
  exists c,
    load_timeseries region_last = ([], Err (PyKeyError c))
    /\ In c header_timeseries /\ ~ In c (columns region_last).
Proof.
  apply (load_timeseries_no_partial_completion region_last).
  - reflexivity.
  - intros c Hc. cbn in Hc |- *. tauto.
  - discriminate.
  - discriminate.
  - exists "id_ts". cbn. intuition discriminate.
Defined.

Lemma load_timeseries_required_header_witness :
  exists out,
    load_timeseries regions_table = ([], Ok out)
    /\ columns out = header_timeseries
    /\ col_of out "region" = [VStr "BB"; VStr "BE"; VStr "BB"]
    /\ col_of out "id_ts" = [VInt 0; VInt 1; VInt 2].
Proof.
  destruct (load_timeseries_required_header regions_table eq_refl)
    as [out [Hrun [Hcols [_ [Hkeep [Hid _]]]]]].
  exists out. split; [exact Hrun|]. split; [exact Hcols|]. split.
  - apply (Hkeep "region"). cbn. tauto.
  - exact Hid.
Defined.

Lemma df_filtered_errors_witness :
  fst (df_filtered filter_table "name" ["BB-pv"]) = []
  /\ (InvalidFilterKey "name" (filter_options Scalars)
      = UnrecognizedSchema header_timeseries header_scalars
      \/ exists k, classify (columns filter_table) = Ok k
                   /\ mem "name" (filter_options k) = false
                   /\ InvalidFilterKey "name" (filter_options Scalars)
                      = InvalidFilterKey "name" (filter_options k)).
Proof.
  apply (df_filtered_errors filter_table "name" ["BB-pv"]). reflexivity.
Defined.

Lemma df_filtered_idempotent_witness :
  exists notices out,
    df_filtered filter_table "region" ["BB"; "SH"] = (notices, Ok out)
    /\ notices = [ValueNotFound "SH" "region"]
    /\ length (rows out) = 2%nat
    /\ df_filtered out "region" ["BB"; "SH"] = (notices, Ok out).
Proof.
  eexists. eexists. split; [reflexivity|]. split; [reflexivity|].
  split; [reflexivity|].
  apply (df_filtered_idempotent (df := filter_table)).
  - intros r [<-|[<-|[<-|[]]]] c Hc; exact Hc.
  - repeat constructor; cbn; intuition discriminate.
  - reflexivity.
Defined.

Lemma df_agg_key_is_column_witness :
  df_agg unknown_table "region" = Err (UnknownVariable "foobar_in")
  /\ is_missing_column (UnknownVariable "foobar_in") = false.
Proof.
  split; [reflexivity|].
  apply (df_agg_key_is_column unknown_table "region"). reflexivity.
Defined.

Lemma scalar_aggregation_totals_witness :
  exists out,
    df_agg filter_table "region" = Ok out
    /\ rows out = aggregated_scalar_rows filter_table "region".
Proof.
  apply scalar_aggregation_totals; reflexivity.
Defined.

(** The rows of [filter_table] by region: the flow of [BE], and the two
    capacities of [BB] in one row. *)
Example aggregated_scalar_rows_example :
  map (fun r => (row_get r "region", row_get r "var_name",
                 row_get r "var_value"))
      (aggregated_scalar_rows filter_table "region")
  = [(VStr "BE", VStr "flow_electricity", VNum (Num 2));
     (VStr "BB", VStr "capacity", VNum (Num 10))].
Proof. reflexivity. Qed.

Lemma scalar_aggregation_succeeds_iff_witness :
  (exists out, df_agg filter_table "carrier" = Ok out)
  <-> forallb summable (rows filter_table) = true.
Proof.
  apply scalar_aggregation_succeeds_iff; reflexivity.
Defined.

Lemma check_consistency_timeindex_value_witness :
  check_consistency_timeindex two_variables "timeindex_start"
  = Ok (VTime 0)
  /\ check_consistency_timeindex two_variables "series" = Err PyValueError.
Proof.
  split.
  - destruct (check_consistency_timeindex_value
                two_variables "timeindex_start" eq_refl) as [_ [Hplain _]].
    apply Hplain.
    + discriminate.
    + intros r [<-|[<-|[]]]; reflexivity.
    + split; [|reflexivity]. intros r [<-|[<-|[]]]; reflexivity.
  - destruct (check_consistency_timeindex_value
                two_variables "series" eq_refl) as [_ [_ Hlist]].
    eapply Hlist.
    + reflexivity.
    + reflexivity.
    + discriminate.
Defined.

Lemma unstack_timeseries_notices_witness :
  fst (unstack_timeseries commented_table) = [RemarksLost "comment"].
Proof.
  apply (unstack_timeseries_notices commented_table).
  intros index [<-|[<-|[<-|[]]]]; eexists; reflexivity.
Defined.

Lemma stack_timeseries_shape_witness :
  columns two_variables = df_stacked_cols
  /\ col_of two_variables "var_name"
     = map (fun col => VStr (fst col)) (wcolumns wide_example)
  /\ exists start stop f,
       constant two_variables "timeindex_start" (VTime start)
       /\ constant two_variables "timeindex_stop" (VTime stop)
       /\ constant two_variables "timeindex_resolution" (VFreq f)
       /\ (wcolumns wide_example <> [] ->
           check_consistency_timeindex two_variables "timeindex_resolution"
           = Ok (VFreq f)
           /\ check_consistency_timeindex two_variables "timeindex_start"
              = Ok (VTime start)
           /\ check_consistency_timeindex two_variables "timeindex_stop"
              = Ok (VTime stop)).
Proof.
  apply (stack_timeseries_shape wide_example (out := [FrequencyInferred 3600])).
  reflexivity.
Defined.

Lemma unstack_after_stack_witness :
  (stacked <~ stack_timeseries wide_example ;; unstack_timeseries stacked)
  = ([FrequencyInferred 3600],
     Ok {| windex := DatetimeIndex [0; 3600; 7200] (Some 3600);
           wcolumns := wcolumns wide_example |}).
Proof.
  apply (@unstack_after_stack _ _ _ wide_example 0 3600 2%nat None).
  - reflexivity.
  - lia.
  - lia.
  - now left.
  - repeat constructor; cbn; intuition discriminate.
  - intros col [<-|[<-|[]]]; reflexivity.
  - discriminate.
Defined.

Lemma df_agg_result_is_recognized_witness :
  exists out,
    df_agg filter_table "region" = Ok out
    /\ classify (columns out) = classify (columns filter_table)
    /\ exists extra, columns out = columns filter_table ++ extra
                     /\ forall c, In c extra -> is_optional c = true.
Proof.
  eexists. split; [reflexivity|].
  apply (df_agg_result_is_recognized filter_table "region"). reflexivity.
Defined.
